(** * Parley: the conversation turn-taking orchestrator

    A shallow embedding of the React component [ResponsiveAIAssistant]
    in its two voice-enabled versions:

    - [Tts]  : src/components/ResponsiveAIAssistant.tsx, which speaks every
               streamed chunk with the browser's speech synthesiser
               ([speechQueueRef], [processNextSpeech]);
    - [Clip] : the version that plays one server-rendered audio clip per
               response ([audioQueueRef], [playNextAudio]).

    Every handler of the component is a function [Render -> World -> World].
    The [Render] argument holds the values of the [useState] hooks that the
    handler's closure reads; the handlers installed by the mount effect
    (dependency list []) all read one and the same snapshot, that of the
    first render, while the buttons and the other effects read the current
    render.  The [World]
    holds what a handler can change at once: the [useRef] cells, the browser
    devices (recogniser, synthesiser, audio elements, timers, clock) and the
    log of the actions the handler performed, state-setter calls included.
    [console.log] and [console.error] calls are not recorded.

    Around the component:

    - [Js]               : async functions, as the actions they perform and
                           the value they return or throw;
    - [Uploader]         : src/usePdfUploader.js, the upload of a document;
    - [ActivePdfDisplay] : the sidebar element of the study material, in
                           src/components/ResponsiveAIAssistant.tsx;
    - [ChatApi]          : the edge handler of the chat endpoint;
    - [AppWrapper]       : src/main.tsx, what the wrapper of the application
                           shows of an upload. *)

From Stdlib Require Import String Ascii List Bool Arith Lia DecimalString.
Import ListNotations.
Open Scope string_scope.

(** ** JavaScript strings *)

(** White space removed by [String.prototype.trim], for the code units below
    256: TAB, LF, VT, FF, CR, SPACE and NBSP. *)
Definition is_white (c : ascii) : bool :=
  let n := nat_of_ascii c in
  (Nat.leb 9 n && Nat.leb n 13) || Nat.eqb n 32 || Nat.eqb n 160.

Fixpoint trimStart (s : string) : string :=
  match s with
  | EmptyString => EmptyString
  | String c s' => if is_white c then trimStart s' else s
  end.

Fixpoint trimEnd (s : string) : string :=
  match s with
  | EmptyString => EmptyString
  | String c s' =>
      match trimEnd s' with
      | EmptyString => if is_white c then EmptyString else String c EmptyString
      | t => String c t
      end
  end.

Definition trim (s : string) : string := trimEnd (trimStart s).

(** A string is truthy when it is not empty. *)
Definition truthy (s : string) : bool :=
  match s with
  | EmptyString => false
  | String _ _ => true
  end.

(** [a || b] on strings. *)
Definition or_else (a b : string) : string := if truthy a then a else b.

(** [a || b] on object references. *)
Definition or_ref {A} (a b : option A) : option A :=
  match a with
  | Some _ => a
  | None => b
  end.

Definition is_some {A} (o : option A) : bool :=
  match o with
  | Some _ => true
  | None => false
  end.

Definition olist {A} (o : option A) : list A :=
  match o with
  | Some a => [a]
  | None => []
  end.

(** ** Data shared by the two versions *)

Definition Socket := nat.

Inductive Sender := user | ai.

(** [id] is [history_id idx] for the string `history-${idx}` and
    [clock_id ms] for [Date.now().toString()]. *)
Inductive MessageId :=
| history_id (idx : nat)
| clock_id (ms : nat).

Record Message := {
  id : MessageId;
  text : string;
  sender : Sender;
  timestamp : nat;
  audioUrl : option string
}.

Record SessionDataType := {
  sd_sessionId : string;
  filename : string;
  initialMessage : string
}.

(** One entry of the [history] array of [session_joined]. *)
Record HistoryEntry := {
  role : string;
  content : string
}.

(** One [SpeechRecognitionResult]: the transcript of its first alternative
    and its [isFinal] flag. *)
Record SpeechResult := {
  transcript : string;
  isFinal : bool
}.

Record SpeechRecognitionEvent := {
  resultIndex : nat;
  results : list SpeechResult
}.

(** An [HTMLAudioElement] created by [new Audio(url)]; [audio_id] is the
    identity of the object, compared by [===]. *)
Record Audio := {
  audio_id : nat;
  audio_url : string
}.

Definition audio_eqb (a b : Audio) : bool :=
  Nat.eqb (audio_id a) (audio_id b) && String.eqb (audio_url a) (audio_url b).

(** The values of the [useState] hooks (and of the [sessionData] prop) as one
    render shows them to the closures it creates.  [recognition] and
    [speechSynthesis] are [true] when the state holds an object, [false] when
    it holds [null]. *)
Record Render := {
  messages : list Message;
  showChat : bool;
  inputText : string;
  isListening : bool;
  isSpeaking : bool;
  recognition : bool;
  speechSynthesis : bool;
  socket : option Socket;
  sessionId : string;
  isConnected : bool;
  isAIResponding : bool;
  conversationMode : bool;
  isConversationLocked : bool;
  audioMode : bool;
  sessionData : option SessionDataType
}.

(** Calls of the state setters. *)
Inductive Update :=
| setMessages (l : list Message)
| appendMessage (m : Message)            (* setMessages(prev => [...prev, m]) *)
| setInputText (s : string)
| setIsListening (b : bool)
| setIsSpeaking (b : bool)
| setShowChat (b : bool)
| setSessionId (s : string)
| setIsConnected (b : bool)
| setCurrentAIMessage (s : string)
| appendCurrentAIMessage (s : string)    (* setCurrentAIMessage(prev => prev + s) *)
| setIsAIResponding (b : bool)
| setConversationMode (b : bool)
| setIsConversationLocked (b : bool)
| setAudioMode (b : bool)
| setInterimTranscript (s : string).

(** What a handler does to the outside, in the order it does it. *)
Inductive Action :=
| emit_join_session (sock : Socket) (sid : string)
| emit_user_message (sock : Socket) (sid : string) (message : string)
| alert (msg : string)
| recognition_start                      (* start() called on the recogniser *)
| recognition_stop
| speak (utterance : string)             (* speechSynthesis.speak(utterance) *)
| synth_cancel                           (* speechSynthesis.cancel() *)
| audio_play (a : Audio)
| audio_pause (a : Audio)
| set_timeout (ms : nat)
| clear_timeout (handle : nat)
| set_state (u : Update).

(** The life of the playback segments: a segment was handed to the output
    device, the device reported the end of a segment (normally or with an
    error). *)
Inductive Playback (A : Type) :=
| Started (x : A)
| Finished (x : A).
Arguments Started {A} x.
Arguments Finished {A} x.

(** The hooks after one setter call; [currentAIMessage] and
    [interimTranscript] are shown only, so they are not part of [Render]. *)
Definition update (r : Render) (u : Update) : Render :=
  match u with
  | setMessages l =>
      {| messages := l; showChat := showChat r; inputText := inputText r;
         isListening := isListening r; isSpeaking := isSpeaking r;
         recognition := recognition r; speechSynthesis := speechSynthesis r;
         socket := socket r; sessionId := sessionId r; isConnected := isConnected r;
         isAIResponding := isAIResponding r; conversationMode := conversationMode r;
         isConversationLocked := isConversationLocked r; audioMode := audioMode r;
         sessionData := sessionData r |}
  | appendMessage m =>
      {| messages := messages r ++ [m]; showChat := showChat r;
         inputText := inputText r; isListening := isListening r;
         isSpeaking := isSpeaking r; recognition := recognition r;
         speechSynthesis := speechSynthesis r; socket := socket r;
         sessionId := sessionId r; isConnected := isConnected r;
         isAIResponding := isAIResponding r; conversationMode := conversationMode r;
         isConversationLocked := isConversationLocked r; audioMode := audioMode r;
         sessionData := sessionData r |}
  | setInputText s =>
      {| messages := messages r; showChat := showChat r; inputText := s;
         isListening := isListening r; isSpeaking := isSpeaking r;
         recognition := recognition r; speechSynthesis := speechSynthesis r;
         socket := socket r; sessionId := sessionId r; isConnected := isConnected r;
         isAIResponding := isAIResponding r; conversationMode := conversationMode r;
         isConversationLocked := isConversationLocked r; audioMode := audioMode r;
         sessionData := sessionData r |}
  | setIsListening b =>
      {| messages := messages r; showChat := showChat r; inputText := inputText r;
         isListening := b; isSpeaking := isSpeaking r; recognition := recognition r;
         speechSynthesis := speechSynthesis r; socket := socket r;
         sessionId := sessionId r; isConnected := isConnected r;
         isAIResponding := isAIResponding r; conversationMode := conversationMode r;
         isConversationLocked := isConversationLocked r; audioMode := audioMode r;
         sessionData := sessionData r |}
  | setIsSpeaking b =>
      {| messages := messages r; showChat := showChat r; inputText := inputText r;
         isListening := isListening r; isSpeaking := b; recognition := recognition r;
         speechSynthesis := speechSynthesis r; socket := socket r;
         sessionId := sessionId r; isConnected := isConnected r;
         isAIResponding := isAIResponding r; conversationMode := conversationMode r;
         isConversationLocked := isConversationLocked r; audioMode := audioMode r;
         sessionData := sessionData r |}
  | setShowChat b =>
      {| messages := messages r; showChat := b; inputText := inputText r;
         isListening := isListening r; isSpeaking := isSpeaking r;
         recognition := recognition r; speechSynthesis := speechSynthesis r;
         socket := socket r; sessionId := sessionId r; isConnected := isConnected r;
         isAIResponding := isAIResponding r; conversationMode := conversationMode r;
         isConversationLocked := isConversationLocked r; audioMode := audioMode r;
         sessionData := sessionData r |}
  | setSessionId s =>
      {| messages := messages r; showChat := showChat r; inputText := inputText r;
         isListening := isListening r; isSpeaking := isSpeaking r;
         recognition := recognition r; speechSynthesis := speechSynthesis r;
         socket := socket r; sessionId := s; isConnected := isConnected r;
         isAIResponding := isAIResponding r; conversationMode := conversationMode r;
         isConversationLocked := isConversationLocked r; audioMode := audioMode r;
         sessionData := sessionData r |}
  | setIsConnected b =>
      {| messages := messages r; showChat := showChat r; inputText := inputText r;
         isListening := isListening r; isSpeaking := isSpeaking r;
         recognition := recognition r; speechSynthesis := speechSynthesis r;
         socket := socket r; sessionId := sessionId r; isConnected := b;
         isAIResponding := isAIResponding r; conversationMode := conversationMode r;
         isConversationLocked := isConversationLocked r; audioMode := audioMode r;
         sessionData := sessionData r |}
  | setIsAIResponding b =>
      {| messages := messages r; showChat := showChat r; inputText := inputText r;
         isListening := isListening r; isSpeaking := isSpeaking r;
         recognition := recognition r; speechSynthesis := speechSynthesis r;
         socket := socket r; sessionId := sessionId r; isConnected := isConnected r;
         isAIResponding := b; conversationMode := conversationMode r;
         isConversationLocked := isConversationLocked r; audioMode := audioMode r;
         sessionData := sessionData r |}
  | setConversationMode b =>
      {| messages := messages r; showChat := showChat r; inputText := inputText r;
         isListening := isListening r; isSpeaking := isSpeaking r;
         recognition := recognition r; speechSynthesis := speechSynthesis r;
         socket := socket r; sessionId := sessionId r; isConnected := isConnected r;
         isAIResponding := isAIResponding r; conversationMode := b;
         isConversationLocked := isConversationLocked r; audioMode := audioMode r;
         sessionData := sessionData r |}
  | setIsConversationLocked b =>
      {| messages := messages r; showChat := showChat r; inputText := inputText r;
         isListening := isListening r; isSpeaking := isSpeaking r;
         recognition := recognition r; speechSynthesis := speechSynthesis r;
         socket := socket r; sessionId := sessionId r; isConnected := isConnected r;
         isAIResponding := isAIResponding r; conversationMode := conversationMode r;
         isConversationLocked := b; audioMode := audioMode r;
         sessionData := sessionData r |}
  | setAudioMode b =>
      {| messages := messages r; showChat := showChat r; inputText := inputText r;
         isListening := isListening r; isSpeaking := isSpeaking r;
         recognition := recognition r; speechSynthesis := speechSynthesis r;
         socket := socket r; sessionId := sessionId r; isConnected := isConnected r;
         isAIResponding := isAIResponding r; conversationMode := conversationMode r;
         isConversationLocked := isConversationLocked r; audioMode := b;
         sessionData := sessionData r |}
  | setCurrentAIMessage _ | appendCurrentAIMessage _ | setInterimTranscript _ => r
  end.

(** The render that follows the setter calls of a log. *)
Fixpoint rerender (r : Render) (l : list Action) : Render :=
  match l with
  | [] => r
  | set_state u :: l' => rerender (update r u) l'
  | _ :: l' => rerender r l'
  end.

(** The [user_message] emissions of a log, oldest first. *)
Fixpoint submissions (l : list Action) : list (string * string) :=
  match l with
  | [] => []
  | emit_user_message _ sid m :: l' => (sid, m) :: submissions l'
  | _ :: l' => submissions l'
  end.

(** The calls of the recogniser's [start()] in a log. *)
Fixpoint starts (l : list Action) : nat :=
  match l with
  | [] => 0
  | recognition_start :: l' => S (starts l')
  | _ :: l' => starts l'
  end.

(** The utterances handed to the synthesiser in a log, oldest first. *)
Fixpoint spoken (l : list Action) : list string :=
  match l with
  | [] => []
  | speak u :: l' => u :: spoken l'
  | _ :: l' => spoken l'
  end.

(** The audio elements whose [play()] was called in a log, oldest first. *)
Fixpoint played (l : list Action) : list Audio :=
  match l with
  | [] => []
  | audio_play a :: l' => a :: played l'
  | _ :: l' => played l'
  end.

(** The segments begun, in order. *)
Fixpoint segments_begun {A} (l : list (Playback A)) : list A :=
  match l with
  | [] => []
  | Started x :: l' => x :: segments_begun l'
  | Finished _ :: l' => segments_begun l'
  end.

(** The segments that came to their end, in order. *)
Fixpoint segments_ended {A} (l : list (Playback A)) : list A :=
  match l with
  | [] => []
  | Started _ :: l' => segments_ended l'
  | Finished x :: l' => x :: segments_ended l'
  end.

(** [one_at_a_time eqb cur l]: read from the left with [cur] in flight, no
    segment of [l] begins while another is in flight, and the segment that
    ends is the one in flight.  The result is the segment left in flight. *)
Fixpoint one_at_a_time {A} (eqb : A -> A -> bool) (cur : option A)
    (l : list (Playback A)) : option (option A) :=
  match l with
  | [] => Some cur
  | Started x :: l' =>
      match cur with
      | None => one_at_a_time eqb (Some x) l'
      | Some _ => None
      end
  | Finished x :: l' =>
      match cur with
      | Some y => if eqb x y then one_at_a_time eqb None l' else None
      | None => None
      end
  end.

(** The loop of [onresult]: the transcripts of the results from
    [resultIndex] on, the final ones and the interim ones concatenated
    apart.  The pair is (interimText, finalText). *)
Fixpoint collect (rs : list SpeechResult) (interimText finalText : string)
    : string * string :=
  match rs with
  | [] => (interimText, finalText)
  | r :: rs' =>
      if isFinal r
      then collect rs' interimText (finalText ++ transcript r)
      else collect rs' (interimText ++ transcript r) finalText
  end.

Definition transcripts (e : SpeechRecognitionEvent) : string * string :=
  collect (skipn (resultIndex e) (results e)) "" "".

Definition interimText (e : SpeechRecognitionEvent) : string := fst (transcripts e).
Definition finalText (e : SpeechRecognitionEvent) : string := snd (transcripts e).

(** [data.history.map((msg, idx) => ({ id: `history-${idx}`, text:
    msg.content, sender: msg.role === 'user' ? 'user' : 'ai', timestamp: new
    Date() }))], the index starting at [idx]. *)
Fixpoint loadedMessages (now idx : nat) (history : list HistoryEntry) : list Message :=
  match history with
  | [] => []
  | msg :: rest =>
      {| id := history_id idx;
         text := content msg;
         sender := if String.eqb (role msg) "user" then user else ai;
         timestamp := now;
         audioUrl := None |} :: loadedMessages now (S idx) rest
  end.

(** [history.slice().reverse().find(msg => msg.role === 'tutor')]. *)
Definition lastAIMessage (history : list HistoryEntry) : option HistoryEntry :=
  find (fun msg => String.eqb (role msg) "tutor") (rev history).

(** ** The version with on-device speech synthesis
    (src/components/ResponsiveAIAssistant.tsx) *)

Module Tts.

(** A [SpeechSynthesisUtterance] and the handlers it carries: those of
    [processNextSpeech] or those of [handleSpeak]. *)
Inductive Origin := from_queue | from_replay.

Record Utterance := {
  utterance_text : string;
  origin : Origin
}.

(** The callbacks given to [setTimeout]. *)
Inductive Timer :=
| restart_unguarded      (* () => recognition?.start() *)
| restart_if_stopped.    (* the callback of onend and of ai_complete *)

Record World := {
  (* useRef cells *)
  socketRef : option Socket;
  sessionIdRef : string;
  speechQueueRef : list string;
  isSpeakingRef : bool;
  isRecognitionRunningRef : bool;
  lastTranscriptRef : string;
  (* browser *)
  micActive : bool;                      (* the recogniser is started *)
  synth : list Utterance;                (* handed to speechSynthesis, not yet ended *)
  heard : list (Playback string);        (* queue segments handed over and ended *)
  timers : list (nat * (nat * Timer));   (* pending: handle, delay, callback *)
  nextTimer : nat;
  clock : nat;                           (* Date.now() *)
  (* log *)
  trace : list Action
}.

Definition set_socketRef v w :=
  {| socketRef := v; sessionIdRef := sessionIdRef w; speechQueueRef := speechQueueRef w;
     isSpeakingRef := isSpeakingRef w; isRecognitionRunningRef := isRecognitionRunningRef w;
     lastTranscriptRef := lastTranscriptRef w; micActive := micActive w; synth := synth w;
     heard := heard w; timers := timers w; nextTimer := nextTimer w; clock := clock w;
     trace := trace w |}.

Definition set_sessionIdRef v w :=
  {| socketRef := socketRef w; sessionIdRef := v; speechQueueRef := speechQueueRef w;
     isSpeakingRef := isSpeakingRef w; isRecognitionRunningRef := isRecognitionRunningRef w;
     lastTranscriptRef := lastTranscriptRef w; micActive := micActive w; synth := synth w;
     heard := heard w; timers := timers w; nextTimer := nextTimer w; clock := clock w;
     trace := trace w |}.

Definition set_speechQueueRef v w :=
  {| socketRef := socketRef w; sessionIdRef := sessionIdRef w; speechQueueRef := v;
     isSpeakingRef := isSpeakingRef w; isRecognitionRunningRef := isRecognitionRunningRef w;
     lastTranscriptRef := lastTranscriptRef w; micActive := micActive w; synth := synth w;
     heard := heard w; timers := timers w; nextTimer := nextTimer w; clock := clock w;
     trace := trace w |}.

Definition set_isSpeakingRef v w :=
  {| socketRef := socketRef w; sessionIdRef := sessionIdRef w; speechQueueRef := speechQueueRef w;
     isSpeakingRef := v; isRecognitionRunningRef := isRecognitionRunningRef w;
     lastTranscriptRef := lastTranscriptRef w; micActive := micActive w; synth := synth w;
     heard := heard w; timers := timers w; nextTimer := nextTimer w; clock := clock w;
     trace := trace w |}.

Definition set_isRecognitionRunningRef v w :=
  {| socketRef := socketRef w; sessionIdRef := sessionIdRef w; speechQueueRef := speechQueueRef w;
     isSpeakingRef := isSpeakingRef w; isRecognitionRunningRef := v;
     lastTranscriptRef := lastTranscriptRef w; micActive := micActive w; synth := synth w;
     heard := heard w; timers := timers w; nextTimer := nextTimer w; clock := clock w;
     trace := trace w |}.

Definition set_lastTranscriptRef v w :=
  {| socketRef := socketRef w; sessionIdRef := sessionIdRef w; speechQueueRef := speechQueueRef w;
     isSpeakingRef := isSpeakingRef w; isRecognitionRunningRef := isRecognitionRunningRef w;
     lastTranscriptRef := v; micActive := micActive w; synth := synth w;
     heard := heard w; timers := timers w; nextTimer := nextTimer w; clock := clock w;
     trace := trace w |}.

Definition set_micActive v w :=
  {| socketRef := socketRef w; sessionIdRef := sessionIdRef w; speechQueueRef := speechQueueRef w;
     isSpeakingRef := isSpeakingRef w; isRecognitionRunningRef := isRecognitionRunningRef w;
     lastTranscriptRef := lastTranscriptRef w; micActive := v; synth := synth w;
     heard := heard w; timers := timers w; nextTimer := nextTimer w; clock := clock w;
     trace := trace w |}.

Definition set_synth v w :=
  {| socketRef := socketRef w; sessionIdRef := sessionIdRef w; speechQueueRef := speechQueueRef w;
     isSpeakingRef := isSpeakingRef w; isRecognitionRunningRef := isRecognitionRunningRef w;
     lastTranscriptRef := lastTranscriptRef w; micActive := micActive w; synth := v;
     heard := heard w; timers := timers w; nextTimer := nextTimer w; clock := clock w;
     trace := trace w |}.

Definition set_heard v w :=
  {| socketRef := socketRef w; sessionIdRef := sessionIdRef w; speechQueueRef := speechQueueRef w;
     isSpeakingRef := isSpeakingRef w; isRecognitionRunningRef := isRecognitionRunningRef w;
     lastTranscriptRef := lastTranscriptRef w; micActive := micActive w; synth := synth w;
     heard := v; timers := timers w; nextTimer := nextTimer w; clock := clock w;
     trace := trace w |}.

Definition set_timers v n w :=
  {| socketRef := socketRef w; sessionIdRef := sessionIdRef w; speechQueueRef := speechQueueRef w;
     isSpeakingRef := isSpeakingRef w; isRecognitionRunningRef := isRecognitionRunningRef w;
     lastTranscriptRef := lastTranscriptRef w; micActive := micActive w; synth := synth w;
     heard := heard w; timers := v; nextTimer := n; clock := clock w;
     trace := trace w |}.

Definition set_clock v w :=
  {| socketRef := socketRef w; sessionIdRef := sessionIdRef w; speechQueueRef := speechQueueRef w;
     isSpeakingRef := isSpeakingRef w; isRecognitionRunningRef := isRecognitionRunningRef w;
     lastTranscriptRef := lastTranscriptRef w; micActive := micActive w; synth := synth w;
     heard := heard w; timers := timers w; nextTimer := nextTimer w; clock := v;
     trace := trace w |}.

(** Append one action to the log. *)
Definition act (a : Action) w :=
  {| socketRef := socketRef w; sessionIdRef := sessionIdRef w; speechQueueRef := speechQueueRef w;
     isSpeakingRef := isSpeakingRef w; isRecognitionRunningRef := isRecognitionRunningRef w;
     lastTranscriptRef := lastTranscriptRef w; micActive := micActive w; synth := synth w;
     heard := heard w; timers := timers w; nextTimer := nextTimer w; clock := clock w;
     trace := trace w ++ [a] |}.

Definition set (u : Update) : World -> World := act (set_state u).

(** *** Browser devices *)

(** [recognition.start()] on a recogniser object: it throws when the
    recogniser is already started.  The boolean is [true] when the call
    returned normally. *)
Definition start (w : World) : World * bool :=
  if micActive w
  then (act recognition_start w, false)
  else (set_micActive true (act recognition_start w), true).

(** [recognition.stop()]. *)
Definition stop (w : World) : World :=
  set_micActive false (act recognition_stop w).

(** [speechSynthesis.speak(utterance)]. *)
Definition synth_speak (u : Utterance) (w : World) : World :=
  let w := act (speak (utterance_text u)) w in
  let w := set_synth (synth w ++ [u]) w in
  match origin u with
  | from_queue => set_heard (heard w ++ [Started (utterance_text u)]) w
  | from_replay => w
  end.

(** [speechSynthesis.cancel()]: every utterance leaves the synthesiser. *)
Definition cancel (w : World) : World :=
  set_synth [] (act synth_cancel w).

(** [setTimeout(cb, ms)]. *)
Definition setTimeout (cb : Timer) (ms : nat) (w : World) : World :=
  set_timers (timers w ++ [(nextTimer w, (ms, cb))]) (S (nextTimer w))
    (act (set_timeout ms) w).

(** *** The handlers of the component *)

Definition activeSocket (r : Render) (w : World) : option Socket :=
  or_ref (socketRef w) (socket r).

Definition activeSessionId (r : Render) (w : World) : string :=
  or_else (match sessionData r with Some d => sd_sessionId d | None => "" end)
          (or_else (sessionIdRef w) (sessionId r)).

Definition handleSendMessage (r : Render) (messageText : option string) (w : World) : World :=
  let textToSend :=
    match messageText with
    | Some m => or_else m (inputText r)
    | None => inputText r
    end in
  match activeSocket r w with
  | Some sock =>
      if truthy (trim textToSend) && truthy (activeSessionId r w)
      then
        let userMessage :=
          {| id := clock_id (clock w); text := textToSend; sender := user;
             timestamp := clock w; audioUrl := None |} in
        let w := set (appendMessage userMessage) w in
        let w := set (setShowChat true) w in
        let w := act (emit_user_message sock (activeSessionId r w) textToSend) w in
        set (setInputText "") w
      else
        if negb (truthy (activeSessionId r w))
        then act (alert "Not connected to server. Please wait...") w
        else w
  | None => act (alert "Not connected to server. Please wait...") w
  end.

Definition processNextSpeech (r : Render) (w : World) : World :=
  match speechQueueRef w with
  | [] => set (setIsSpeaking false) (set_isSpeakingRef false w)
  | text :: rest =>
      let w := set_isSpeakingRef true w in
      let w := set (setIsSpeaking true) w in
      let w := set_speechQueueRef rest w in
      (* speechSynthesis!.speak(utterance): a TypeError when the state is null *)
      if speechSynthesis r
      then synth_speak {| utterance_text := text; origin := from_queue |} w
      else w
  end.

Definition utterance_onend (r : Render) : World -> World := processNextSpeech r.
Definition utterance_onerror (r : Render) : World -> World := processNextSpeech r.

Definition speakChunk (r : Render) (text : string) (w : World) : World :=
  if negb (speechSynthesis r) || negb (truthy (trim text)) then w
  else
    let w := set_speechQueueRef (speechQueueRef w ++ [text]) w in
    if negb (isSpeakingRef w) then processNextSpeech r w else w.

(** The effect with dependency list [sessionData, showChat,
    messages.length]. *)
Definition sessionData_effect (r : Render) (w : World) : World :=
  match sessionData r with
  | Some d =>
      if negb (showChat r)
      then
        let w := set (setShowChat true) w in
        let hasInitialMessage :=
          existsb (fun msg => String.eqb (text msg) (initialMessage d)) (messages r) in
        if truthy (initialMessage d) && negb hasInitialMessage
        then set (appendMessage {| id := clock_id (clock w); text := initialMessage d;
                                   sender := ai; timestamp := clock w;
                                   audioUrl := None |}) w
        else w
      else w
  | None =>
      match messages r with
      | [] => w
      | _ :: _ =>
          let w := set (setMessages []) w in
          let w := set (setShowChat false) w in
          set (setIsConversationLocked true) w
      end
  end.

Definition onresult (r : Render) (e : SpeechRecognitionEvent) (w : World) : World :=
  let currentText := or_else (finalText e) (interimText e) in
  if truthy currentText
  then set (setInterimTranscript currentText) (set_lastTranscriptRef currentText w)
  else w.

Definition onspeechend (r : Render) (w : World) : World := stop w.

Definition onspeechstart (r : Render) (w : World) : World := set_lastTranscriptRef "" w.

Definition onerror (r : Render) (error : string) (w : World) : World :=
  if String.eqb error "no-speech" || String.eqb error "aborted"
  then
    if conversationMode r && negb (isConversationLocked r)
    then setTimeout restart_unguarded 1000 w
    else w
  else
    let w := set (setConversationMode false) w in
    let w := set (setIsListening false) w in
    set (setIsConversationLocked true) w.

Definition onend (r : Render) (w : World) : World :=
  let w := set_isRecognitionRunningRef false w in
  let textToSend := trim (lastTranscriptRef w) in
  let w :=
    if truthy textToSend && conversationMode r
    then
      let w := handleSendMessage r (Some textToSend) w in
      let w := set (setInterimTranscript "") w in
      set_lastTranscriptRef "" w
    else w in
  if conversationMode r && negb (isAIResponding r) && negb (isConversationLocked r)
  then setTimeout restart_if_stopped (if audioMode r then 1500 else 500) w
  else set (setIsListening false) w.

(** The timer callbacks. *)
Definition fire (r : Render) (cb : Timer) (w : World) : World :=
  match cb with
  | restart_unguarded =>
      if recognition r then fst (start w) else w
  | restart_if_stopped =>
      if negb (isRecognitionRunningRef w)
      then
        (* try { recognition.start(); isRecognitionRunningRef.current = true } catch *)
        if recognition r
        then let (w', returned) := start w in
             if returned then set_isRecognitionRunningRef true w' else w'
        else w
      else w
  end.

Definition on_connect (r : Render) (w : World) : World := set (setIsConnected true) w.

Definition on_connected (r : Render) (sock : Socket) (sid : string) (w : World) : World :=
  let w := set (setSessionId sid) w in
  let w := set_sessionIdRef sid w in
  act (emit_join_session sock sid) w.

Definition on_session_joined (r : Render) (sid : string)
    (history : option (list HistoryEntry)) (w : World) : World :=
  let w := set (setIsConnected true) w in
  let w := set_sessionIdRef sid w in
  match sessionData r, history with
  | None, Some (h :: hs) =>
      let w :=
        match lastAIMessage (h :: hs) with
        | Some msg => if audioMode r then speakChunk r (content msg) w else w
        | None => w
        end in
      let w := set (setMessages (loadedMessages (clock w) 0 (h :: hs))) w in
      set (setShowChat true) w
  | _, _ => w
  end.

Definition on_ai_start (r : Render) (w : World) : World :=
  set (setCurrentAIMessage "") (set (setIsAIResponding true) w).

Definition on_ai_chunk (r : Render) (chunk : string) (w : World) : World :=
  let w := set (appendCurrentAIMessage chunk) w in
  if audioMode r then speakChunk r chunk w else w.

Definition on_ai_complete (r : Render) (fullResponse : string) (w : World) : World :=
  let w := set (setIsAIResponding false) w in
  let aiMessage :=
    {| id := clock_id (clock w); text := fullResponse; sender := ai;
       timestamp := clock w; audioUrl := None |} in
  let w := set (appendMessage aiMessage) w in
  let w := set (setCurrentAIMessage "") w in
  if conversationMode r && recognition r && negb (isConversationLocked r)
  then setTimeout restart_if_stopped (if audioMode r then 1500 else 500) w
  else w.

Definition on_error (r : Render) (message : string) (w : World) : World :=
  set (setIsAIResponding false) (act (alert ("Error: " ++ message)) w).

Definition on_disconnect (r : Render) (w : World) : World := set (setIsConnected false) w.

Definition toggleConversationMode (r : Render) (w : World) : World :=
  if negb (recognition r) then act (alert "Speech recognition not supported") w
  else if conversationMode r then
    let w := stop w in
    let w := set_isRecognitionRunningRef false w in
    let w := set (setConversationMode false) w in
    let w := set (setAudioMode false) w in
    let w := set (setIsListening false) w in
    set (setIsConversationLocked true) w
  else if negb (isConversationLocked r) then
    if negb (isRecognitionRunningRef w)
    then
      let (w', returned) := start w in
      if returned then
        let w' := set_isRecognitionRunningRef true w' in
        let w' := set (setConversationMode true) w' in
        let w' := set (setAudioMode true) w' in
        set (setIsListening true) w'
      else w'
    else w
  else w.

(** The audio button: onClick={() => setAudioMode(!audioMode)}.  No effect
    of this version depends on [audioMode]. *)
Definition toggleAudioMode (r : Render) (w : World) : World :=
  set (setAudioMode (negb (audioMode r))) w.

Definition handleSpeak (r : Render) (text : string) (w : World) : World :=
  if negb (speechSynthesis r)
  then act (alert "Speech synthesis is not supported in your browser.") w
  else if isSpeaking r then
    let w := cancel w in
    let w := set_speechQueueRef [] w in
    let w := set_isSpeakingRef false w in
    set (setIsSpeaking false) w
  else synth_speak {| utterance_text := text; origin := from_replay |} w.

Definition handleVoiceInput (r : Render) (w : World) : World :=
  if negb (recognition r)
  then act (alert "Speech recognition is not supported in your browser.") w
  else if isListening r then
    let w := stop w in
    let w := set_isRecognitionRunningRef false w in
    set (setIsListening false) w
  else if negb (isRecognitionRunningRef w) then
    let (w', returned) := start w in
    if returned
    then set (setIsListening true) (set_isRecognitionRunningRef true w')
    else w'
  else w.

(** handleKeyPress on Enter without Shift. *)
Definition handleKeyPress_Enter (r : Render) (w : World) : World :=
  handleSendMessage r None w.

(** The send button: disabled={!inputText.trim() || !isConnected ||
    isAIResponding}, onClick={() => handleSendMessage()}. *)
Definition send_button_disabled (r : Render) : bool :=
  negb (truthy (trim (inputText r))) || negb (isConnected r) || isAIResponding r.

Definition send_button_onClick (r : Render) (w : World) : World :=
  if send_button_disabled r then w else handleSendMessage r None w.

(** *** Events *)

(** The synthesiser reports the end of the utterance it is speaking: the
    utterance leaves the synthesiser and its [onend] or [onerror] handler
    runs.  [failed] tells which of the two. *)
Definition utterance_done (r : Render) (failed : bool) (w : World) : World :=
  match synth w with
  | [] => w
  | u :: rest =>
      let w := set_synth rest w in
      match origin u with
      | from_queue =>
          let w := set_heard (heard w ++ [Finished (utterance_text u)]) w in
          if failed then utterance_onerror r w else utterance_onend r w
      | from_replay => set (setIsSpeaking false) w
      end
  end.

(** The synthesiser begins to speak its first utterance; only the
    utterances of [handleSpeak] have an [onstart] handler. *)
Definition utterance_started (r : Render) (w : World) : World :=
  match synth w with
  | u :: _ =>
      match origin u with
      | from_replay => set (setIsSpeaking true) w
      | from_queue => w
      end
  | [] => w
  end.

Fixpoint take_timer (handle : nat) (l : list (nat * (nat * Timer)))
    : option (Timer * list (nat * (nat * Timer))) :=
  match l with
  | [] => None
  | (h, (ms, cb)) :: l' =>
      if Nat.eqb h handle then Some (cb, l')
      else match take_timer handle l' with
           | Some (cb', rest) => Some (cb', (h, (ms, cb)) :: rest)
           | None => None
           end
  end.

Inductive Event :=
| result (e : SpeechRecognitionEvent)
| speechend
| speechstart
| error (kind : string)
| ended
| connect
| connected (sid : string)
| session_joined (sid : string) (history : option (list HistoryEntry))
| ai_start
| ai_chunk (chunk : string)
| ai_complete (fullResponse : string)
| socket_error (message : string)
| disconnect
| utterance_start
| utterance_end
| utterance_error
| timeout (handle : nat)
| tick (ms : nat).

(** One event delivered to the handlers installed by the mount effect, all
    of which read the snapshot [r]. *)
Definition step (r : Render) (w : World) (e : Event) : World :=
  match e with
  | result e => onresult r e w
  | speechend => onspeechend r w
  | speechstart => onspeechstart r w
  | error kind => onerror r kind w
  | ended => onend r (set_micActive false w)
  | connect => on_connect r w
  | connected sid =>
      match socketRef w with
      | Some sock => on_connected r sock sid w
      | None => w
      end
  | session_joined sid history => on_session_joined r sid history w
  | ai_start => on_ai_start r w
  | ai_chunk chunk => on_ai_chunk r chunk w
  | ai_complete fullResponse => on_ai_complete r fullResponse w
  | socket_error message => on_error r message w
  | disconnect => on_disconnect r w
  | utterance_start => utterance_started r w
  | utterance_end => utterance_done r false w
  | utterance_error => utterance_done r true w
  | timeout handle =>
      match take_timer handle (timers w) with
      | Some (cb, rest) => fire r cb (set_timers rest (nextTimer w) w)
      | None => w
      end
  | tick ms => set_clock (clock w + ms) w
  end.

Definition run (r : Render) (w : World) (es : list Event) : World :=
  fold_left (step r) es w.

(** The world when the mount effect has run: [socketRef.current = newSocket]. *)
Definition mounted (sock : Socket) : World :=
  {| socketRef := Some sock; sessionIdRef := ""; speechQueueRef := [];
     isSpeakingRef := false; isRecognitionRunningRef := false; lastTranscriptRef := "";
     micActive := false; synth := []; heard := []; timers := []; nextTimer := 0;
     clock := 0; trace := [] |}.

(** The playback sequencer on its own: a chunk is enqueued, the segment in
    flight ends, the segment in flight fails. *)
Inductive Sequencer :=
| enqueue (text : string)
| segment_end
| segment_error.

Definition sequencer_step (r : Render) (w : World) (e : Sequencer) : World :=
  match e with
  | enqueue text => speakChunk r text w
  | segment_end => utterance_done r false w
  | segment_error => utterance_done r true w
  end.

End Tts.

(** ** The version with server-rendered audio clips *)

Module Clip.

(** The callbacks given to [setTimeout]. *)
Inductive Timer :=
| silence_send           (* the callback of onspeechend *)
| restart_unguarded      (* () => recognition?.start() *)
| restart_after_end      (* the callback of onend *)
| restart_and_listen.    (* the callback of ai_complete *)

Record World := {
  (* useRef cells *)
  socketRef : option Socket;
  sessionIdRef : string;
  audioQueueRef : list string;
  currentAudioRef : option Audio;
  audioModeRef : bool;
  isRecognitionRunningRef : bool;
  lastTranscriptRef : string;
  micEnabledRef : bool;
  (* the variable [silenceTimer] of the mount effect *)
  silenceTimer : option nat;
  (* browser *)
  micActive : bool;                      (* the recogniser is started *)
  playing : list Audio;                  (* audio elements that are sounding *)
  heard : list (Playback Audio);         (* clips handed over and ended *)
  nextAudio : nat;                       (* identity of the next new Audio *)
  timers : list (nat * (nat * Timer));   (* pending: handle, delay, callback *)
  nextTimer : nat;
  clock : nat;                           (* Date.now() *)
  (* log *)
  trace : list Action
}.

Definition set_socketRef v w :=
  {| socketRef := v; sessionIdRef := sessionIdRef w; audioQueueRef := audioQueueRef w;
     currentAudioRef := currentAudioRef w; audioModeRef := audioModeRef w;
     isRecognitionRunningRef := isRecognitionRunningRef w;
     lastTranscriptRef := lastTranscriptRef w; micEnabledRef := micEnabledRef w;
     silenceTimer := silenceTimer w; micActive := micActive w; playing := playing w;
     heard := heard w; nextAudio := nextAudio w; timers := timers w;
     nextTimer := nextTimer w; clock := clock w; trace := trace w |}.

Definition set_sessionIdRef v w :=
  {| socketRef := socketRef w; sessionIdRef := v; audioQueueRef := audioQueueRef w;
     currentAudioRef := currentAudioRef w; audioModeRef := audioModeRef w;
     isRecognitionRunningRef := isRecognitionRunningRef w;
     lastTranscriptRef := lastTranscriptRef w; micEnabledRef := micEnabledRef w;
     silenceTimer := silenceTimer w; micActive := micActive w; playing := playing w;
     heard := heard w; nextAudio := nextAudio w; timers := timers w;
     nextTimer := nextTimer w; clock := clock w; trace := trace w |}.

Definition set_audioQueueRef v w :=
  {| socketRef := socketRef w; sessionIdRef := sessionIdRef w; audioQueueRef := v;
     currentAudioRef := currentAudioRef w; audioModeRef := audioModeRef w;
     isRecognitionRunningRef := isRecognitionRunningRef w;
     lastTranscriptRef := lastTranscriptRef w; micEnabledRef := micEnabledRef w;
     silenceTimer := silenceTimer w; micActive := micActive w; playing := playing w;
     heard := heard w; nextAudio := nextAudio w; timers := timers w;
     nextTimer := nextTimer w; clock := clock w; trace := trace w |}.

Definition set_currentAudioRef v w :=
  {| socketRef := socketRef w; sessionIdRef := sessionIdRef w;
     audioQueueRef := audioQueueRef w; currentAudioRef := v; audioModeRef := audioModeRef w;
     isRecognitionRunningRef := isRecognitionRunningRef w;
     lastTranscriptRef := lastTranscriptRef w; micEnabledRef := micEnabledRef w;
     silenceTimer := silenceTimer w; micActive := micActive w; playing := playing w;
     heard := heard w; nextAudio := nextAudio w; timers := timers w;
     nextTimer := nextTimer w; clock := clock w; trace := trace w |}.

Definition set_audioModeRef v w :=
  {| socketRef := socketRef w; sessionIdRef := sessionIdRef w;
     audioQueueRef := audioQueueRef w; currentAudioRef := currentAudioRef w;
     audioModeRef := v; isRecognitionRunningRef := isRecognitionRunningRef w;
     lastTranscriptRef := lastTranscriptRef w; micEnabledRef := micEnabledRef w;
     silenceTimer := silenceTimer w; micActive := micActive w; playing := playing w;
     heard := heard w; nextAudio := nextAudio w; timers := timers w;
     nextTimer := nextTimer w; clock := clock w; trace := trace w |}.

Definition set_isRecognitionRunningRef v w :=
  {| socketRef := socketRef w; sessionIdRef := sessionIdRef w;
     audioQueueRef := audioQueueRef w; currentAudioRef := currentAudioRef w;
     audioModeRef := audioModeRef w; isRecognitionRunningRef := v;
     lastTranscriptRef := lastTranscriptRef w; micEnabledRef := micEnabledRef w;
     silenceTimer := silenceTimer w; micActive := micActive w; playing := playing w;
     heard := heard w; nextAudio := nextAudio w; timers := timers w;
     nextTimer := nextTimer w; clock := clock w; trace := trace w |}.

Definition set_lastTranscriptRef v w :=
  {| socketRef := socketRef w; sessionIdRef := sessionIdRef w;
     audioQueueRef := audioQueueRef w; currentAudioRef := currentAudioRef w;
     audioModeRef := audioModeRef w; isRecognitionRunningRef := isRecognitionRunningRef w;
     lastTranscriptRef := v; micEnabledRef := micEnabledRef w;
     silenceTimer := silenceTimer w; micActive := micActive w; playing := playing w;
     heard := heard w; nextAudio := nextAudio w; timers := timers w;
     nextTimer := nextTimer w; clock := clock w; trace := trace w |}.

Definition set_micEnabledRef v w :=
  {| socketRef := socketRef w; sessionIdRef := sessionIdRef w;
     audioQueueRef := audioQueueRef w; currentAudioRef := currentAudioRef w;
     audioModeRef := audioModeRef w; isRecognitionRunningRef := isRecognitionRunningRef w;
     lastTranscriptRef := lastTranscriptRef w; micEnabledRef := v;
     silenceTimer := silenceTimer w; micActive := micActive w; playing := playing w;
     heard := heard w; nextAudio := nextAudio w; timers := timers w;
     nextTimer := nextTimer w; clock := clock w; trace := trace w |}.

Definition set_silenceTimer v w :=
  {| socketRef := socketRef w; sessionIdRef := sessionIdRef w;
     audioQueueRef := audioQueueRef w; currentAudioRef := currentAudioRef w;
     audioModeRef := audioModeRef w; isRecognitionRunningRef := isRecognitionRunningRef w;
     lastTranscriptRef := lastTranscriptRef w; micEnabledRef := micEnabledRef w;
     silenceTimer := v; micActive := micActive w; playing := playing w; heard := heard w;
     nextAudio := nextAudio w; timers := timers w; nextTimer := nextTimer w;
     clock := clock w; trace := trace w |}.

Definition set_micActive v w :=
  {| socketRef := socketRef w; sessionIdRef := sessionIdRef w;
     audioQueueRef := audioQueueRef w; currentAudioRef := currentAudioRef w;
     audioModeRef := audioModeRef w; isRecognitionRunningRef := isRecognitionRunningRef w;
     lastTranscriptRef := lastTranscriptRef w; micEnabledRef := micEnabledRef w;
     silenceTimer := silenceTimer w; micActive := v; playing := playing w; heard := heard w;
     nextAudio := nextAudio w; timers := timers w; nextTimer := nextTimer w;
     clock := clock w; trace := trace w |}.

Definition set_playing v w :=
  {| socketRef := socketRef w; sessionIdRef := sessionIdRef w;
     audioQueueRef := audioQueueRef w; currentAudioRef := currentAudioRef w;
     audioModeRef := audioModeRef w; isRecognitionRunningRef := isRecognitionRunningRef w;
     lastTranscriptRef := lastTranscriptRef w; micEnabledRef := micEnabledRef w;
     silenceTimer := silenceTimer w; micActive := micActive w; playing := v;
     heard := heard w; nextAudio := nextAudio w; timers := timers w;
     nextTimer := nextTimer w; clock := clock w; trace := trace w |}.

Definition set_heard v w :=
  {| socketRef := socketRef w; sessionIdRef := sessionIdRef w;
     audioQueueRef := audioQueueRef w; currentAudioRef := currentAudioRef w;
     audioModeRef := audioModeRef w; isRecognitionRunningRef := isRecognitionRunningRef w;
     lastTranscriptRef := lastTranscriptRef w; micEnabledRef := micEnabledRef w;
     silenceTimer := silenceTimer w; micActive := micActive w; playing := playing w;
     heard := v; nextAudio := nextAudio w; timers := timers w; nextTimer := nextTimer w;
     clock := clock w; trace := trace w |}.

Definition set_timers v n w :=
  {| socketRef := socketRef w; sessionIdRef := sessionIdRef w;
     audioQueueRef := audioQueueRef w; currentAudioRef := currentAudioRef w;
     audioModeRef := audioModeRef w; isRecognitionRunningRef := isRecognitionRunningRef w;
     lastTranscriptRef := lastTranscriptRef w; micEnabledRef := micEnabledRef w;
     silenceTimer := silenceTimer w; micActive := micActive w; playing := playing w;
     heard := heard w; nextAudio := nextAudio w; timers := v; nextTimer := n;
     clock := clock w; trace := trace w |}.

Definition set_clock v w :=
  {| socketRef := socketRef w; sessionIdRef := sessionIdRef w;
     audioQueueRef := audioQueueRef w; currentAudioRef := currentAudioRef w;
     audioModeRef := audioModeRef w; isRecognitionRunningRef := isRecognitionRunningRef w;
     lastTranscriptRef := lastTranscriptRef w; micEnabledRef := micEnabledRef w;
     silenceTimer := silenceTimer w; micActive := micActive w; playing := playing w;
     heard := heard w; nextAudio := nextAudio w; timers := timers w;
     nextTimer := nextTimer w; clock := v; trace := trace w |}.

Definition set_nextAudio v w :=
  {| socketRef := socketRef w; sessionIdRef := sessionIdRef w;
     audioQueueRef := audioQueueRef w; currentAudioRef := currentAudioRef w;
     audioModeRef := audioModeRef w; isRecognitionRunningRef := isRecognitionRunningRef w;
     lastTranscriptRef := lastTranscriptRef w; micEnabledRef := micEnabledRef w;
     silenceTimer := silenceTimer w; micActive := micActive w; playing := playing w;
     heard := heard w; nextAudio := v; timers := timers w; nextTimer := nextTimer w;
     clock := clock w; trace := trace w |}.

(** Append one action to the log. *)
Definition act (a : Action) w :=
  {| socketRef := socketRef w; sessionIdRef := sessionIdRef w;
     audioQueueRef := audioQueueRef w; currentAudioRef := currentAudioRef w;
     audioModeRef := audioModeRef w; isRecognitionRunningRef := isRecognitionRunningRef w;
     lastTranscriptRef := lastTranscriptRef w; micEnabledRef := micEnabledRef w;
     silenceTimer := silenceTimer w; micActive := micActive w; playing := playing w;
     heard := heard w; nextAudio := nextAudio w; timers := timers w;
     nextTimer := nextTimer w; clock := clock w; trace := trace w ++ [a] |}.

Definition set (u : Update) : World -> World := act (set_state u).

(** *** Browser devices *)

(** [recognition.start()] on a recogniser object: it throws when the
    recogniser is already started.  The boolean is [true] when the call
    returned normally. *)
Definition start (w : World) : World * bool :=
  if micActive w
  then (act recognition_start w, false)
  else (set_micActive true (act recognition_start w), true).

(** [recognition.stop()]. *)
Definition stop (w : World) : World :=
  set_micActive false (act recognition_stop w).

Fixpoint remove_audio (a : Audio) (l : list Audio) : list Audio :=
  match l with
  | [] => []
  | b :: l' => if audio_eqb a b then remove_audio a l' else b :: remove_audio a l'
  end.

Definition is_playing (a : Audio) (w : World) : bool :=
  existsb (audio_eqb a) (playing w).

(** [audio.play()]. *)
Definition play (a : Audio) (w : World) : World :=
  let w := act (audio_play a) w in
  let w := set_playing (playing w ++ [a]) w in
  set_heard (heard w ++ [Started a]) w.

(** [audio.pause()]. *)
Definition pause (a : Audio) (w : World) : World :=
  set_playing (remove_audio a (playing w)) (act (audio_pause a) w).

(** [setTimeout(cb, ms)]; the handle is [nextTimer] of the world before. *)
Definition setTimeout (cb : Timer) (ms : nat) (w : World) : World :=
  set_timers (timers w ++ [(nextTimer w, (ms, cb))]) (S (nextTimer w))
    (act (set_timeout ms) w).

Fixpoint take_timer (handle : nat) (l : list (nat * (nat * Timer)))
    : option (Timer * list (nat * (nat * Timer))) :=
  match l with
  | [] => None
  | (h, (ms, cb)) :: l' =>
      if Nat.eqb h handle then Some (cb, l')
      else match take_timer handle l' with
           | Some (cb', rest) => Some (cb', (h, (ms, cb)) :: rest)
           | None => None
           end
  end.

(** [clearTimeout(handle)]. *)
Definition clearTimeout (handle : nat) (w : World) : World :=
  let w := act (clear_timeout handle) w in
  match take_timer handle (timers w) with
  | Some (_, rest) => set_timers rest (nextTimer w) w
  | None => w
  end.

(** *** The handlers of the component *)

Definition stopCurrentAudio (w : World) : World :=
  let w :=
    match currentAudioRef w with
    | Some a => set_currentAudioRef None (pause a w)
    | None => w
    end in
  set (setIsSpeaking false) w.

Definition playNextAudio (w : World) : World :=
  if negb (audioModeRef w) then w
  else if is_some (currentAudioRef w) then w
  else
    match audioQueueRef w with
    | [] => set (setIsSpeaking false) w
    | nextUrl :: rest =>
        let w := set_audioQueueRef rest w in
        if negb (truthy nextUrl) then set (setIsSpeaking false) w
        else
          let audio := {| audio_id := nextAudio w; audio_url := nextUrl |} in
          let w := set_nextAudio (S (nextAudio w)) w in
          let w := set_currentAudioRef (Some audio) w in
          play audio w
    end.

(** The closure [handleComplete] created by [playNextAudio] for [audio]. *)
Definition handleComplete (audio : Audio) (w : World) : World :=
  let w :=
    match currentAudioRef w with
    | Some cur => if audio_eqb cur audio then set_currentAudioRef None w else w
    | None => w
    end in
  let w :=
    match audioQueueRef w with
    | [] => set (setIsSpeaking false) w
    | _ :: _ => w
    end in
  playNextAudio w.

Definition audio_onended (audio : Audio) : World -> World := handleComplete audio.
Definition audio_onerror (audio : Audio) : World -> World := handleComplete audio.
(** [audio.play().catch(...)]. *)
Definition play_rejected (audio : Audio) : World -> World := handleComplete audio.
(** [audio.play().then(() => setIsSpeaking(true))]. *)
Definition play_resolved (audio : Audio) : World -> World := set (setIsSpeaking true).

Definition enqueueAudio (url : string) (w : World) : World :=
  if negb (truthy url) then w
  else
    let w := set_audioQueueRef (audioQueueRef w ++ [url]) w in
    if audioModeRef w then playNextAudio w else w.

Definition buildAudioUrl (audioBase64 mimeType : option string) : option string :=
  match audioBase64 with
  | Some b =>
      if truthy b
      then Some ("data:" ++ or_else (match mimeType with Some m => m | None => "" end)
                                     "audio/mpeg" ++ ";base64," ++ b)
      else None
  | None => None
  end.

(** The effect with dependency list [audioMode], run with the value of
    [audioMode] of the render that triggers it. *)
Definition audioMode_effect (audioMode : bool) (w : World) : World :=
  let w := set_audioModeRef audioMode w in
  if negb audioMode
  then stopCurrentAudio (set_audioQueueRef [] w)
  else playNextAudio w.

Definition activeSocket (r : Render) (w : World) : option Socket :=
  or_ref (socketRef w) (socket r).

Definition activeSessionId (r : Render) (w : World) : string :=
  or_else (sessionIdRef w) (sessionId r).

Definition handleSendMessage (r : Render) (messageText : option string) (w : World) : World :=
  let textToSend :=
    match messageText with
    | Some m => or_else m (inputText r)
    | None => inputText r
    end in
  match activeSocket r w with
  | Some sock =>
      if truthy (trim textToSend) && truthy (activeSessionId r w)
      then
        let userMessage :=
          {| id := clock_id (clock w); text := textToSend; sender := user;
             timestamp := clock w; audioUrl := None |} in
        let w := set (appendMessage userMessage) w in
        let w := set (setShowChat true) w in
        let w := act (emit_user_message sock (activeSessionId r w) textToSend) w in
        set (setInputText "") w
      else
        if negb (truthy (activeSessionId r w))
        then act (alert "Not connected to server. Please wait...") w
        else w
  | None => act (alert "Not connected to server. Please wait...") w
  end.

Definition onresult (r : Render) (e : SpeechRecognitionEvent) (w : World) : World :=
  let currentText := or_else (finalText e) (interimText e) in
  let w :=
    if truthy currentText
    then set (setInterimTranscript currentText) (set_lastTranscriptRef currentText w)
    else w in
  if truthy (finalText e) && conversationMode r
  then
    let w := handleSendMessage r (Some (finalText e)) w in
    let w := set (setInterimTranscript "") w in
    set_lastTranscriptRef "" w
  else w.

Definition onspeechend (r : Render) (w : World) : World :=
  set_silenceTimer (Some (nextTimer w)) (setTimeout silence_send 500 w).

Definition onspeechstart (r : Render) (w : World) : World :=
  let w :=
    match silenceTimer w with
    | Some handle => clearTimeout handle w
    | None => w
    end in
  set_lastTranscriptRef "" w.

Definition onerror (r : Render) (error : string) (w : World) : World :=
  if String.eqb error "no-speech" then
    if conversationMode r then setTimeout restart_unguarded 1000 w else w
  else if String.eqb error "aborted" then
    if conversationMode r then setTimeout restart_unguarded 500 w else w
  else
    set (setIsListening false) (set (setConversationMode false) w).

Definition onend (r : Render) (w : World) : World :=
  let w := set_isRecognitionRunningRef false w in
  if conversationMode r && micEnabledRef w && negb (isAIResponding r)
  then setTimeout restart_after_end 100 w
  else set (setIsListening false) w.

(** The timer callbacks. *)
Definition fire (r : Render) (cb : Timer) (w : World) : World :=
  match cb with
  | silence_send =>
      let textToSend := trim (lastTranscriptRef w) in
      if truthy textToSend && conversationMode r
      then
        let w := handleSendMessage r (Some textToSend) w in
        let w := set (setInterimTranscript "") w in
        set_lastTranscriptRef "" w
      else w
  | restart_unguarded =>
      if recognition r then fst (start w) else w
  | restart_after_end =>
      if negb (isRecognitionRunningRef w)
      then
        (* try { recognition?.start(); isRecognitionRunningRef.current = true } catch *)
        if recognition r
        then let (w', returned) := start w in
             if returned then set_isRecognitionRunningRef true w' else w'
        else set_isRecognitionRunningRef true w
      else w
  | restart_and_listen =>
      if negb (isRecognitionRunningRef w)
      then
        if recognition r
        then let (w', returned) := start w in
             if returned
             then set (setIsListening true) (set_isRecognitionRunningRef true w')
             else w'
        else w
      else w
  end.

Definition on_connect (r : Render) (w : World) : World := set (setIsConnected true) w.

Definition on_connected (r : Render) (sock : Socket) (sid : string) (w : World) : World :=
  act (emit_join_session sock sid) (set (setSessionId sid) w).

Definition on_session_joined (r : Render) (sid : string)
    (history : option (list HistoryEntry)) (w : World) : World :=
  let w := set (setIsConnected true) w in
  let w := set_sessionIdRef sid w in
  match history with
  | Some (h :: hs) => set (setMessages (loadedMessages (clock w) 0 (h :: hs))) w
  | _ => w
  end.

Definition on_ai_start (r : Render) (w : World) : World :=
  set (setCurrentAIMessage "") (set (setIsAIResponding true) w).

Definition on_ai_chunk (r : Render) (chunk : string) (w : World) : World :=
  set (appendCurrentAIMessage chunk) w.

Definition on_ai_complete (r : Render) (fullResponse : string)
    (audioBase64 audioMimeType : option string) (w : World) : World :=
  let w := set (setIsAIResponding false) w in
  let url := buildAudioUrl audioBase64 audioMimeType in
  let aiMessage :=
    {| id := clock_id (clock w); text := fullResponse; sender := ai;
       timestamp := clock w; audioUrl := url |} in
  let w := set (appendMessage aiMessage) w in
  let w := set (setCurrentAIMessage "") w in
  let w :=
    match url with
    | Some u => if truthy u && audioMode r then enqueueAudio u w else w
    | None => w
    end in
  if conversationMode r && recognition r && micEnabledRef w
  then setTimeout restart_and_listen (if audioMode r then 1500 else 500) w
  else w.

Definition on_error (r : Render) (message : string) (w : World) : World :=
  set (setIsAIResponding false) (act (alert ("Error: " ++ message)) w).

Definition on_disconnect (r : Render) (w : World) : World := set (setIsConnected false) w.

Definition toggleConversationMode (r : Render) (w : World) : World :=
  if negb (recognition r) then act (alert "Speech recognition not supported") w
  else if conversationMode r then
    let w := stop w in
    let w := set_isRecognitionRunningRef false w in
    let w := set (setConversationMode false) w in
    let w := set (setAudioMode false) w in
    let w := set (setIsListening false) w in
    set_micEnabledRef false w
  else if negb (isRecognitionRunningRef w) then
    let (w', returned) := start w in
    if returned then
      let w' := set_isRecognitionRunningRef true w' in
      let w' := set (setConversationMode true) w' in
      let w' := set (setAudioMode true) w' in
      let w' := set (setIsListening true) w' in
      set_micEnabledRef true w'
    else w'
  else w.

Definition handleVoiceInput (r : Render) (w : World) : World :=
  if negb (recognition r)
  then act (alert "Speech recognition is not supported in your browser.") w
  else if isListening r then
    let w := stop w in
    let w := set_isRecognitionRunningRef false w in
    let w := set (setIsListening false) w in
    set_micEnabledRef false w
  else if negb (isRecognitionRunningRef w) then
    let (w', returned) := start w in
    if returned
    then set_micEnabledRef true
           (set (setIsListening true) (set_isRecognitionRunningRef true w'))
    else w'
  else w.

(** handleKeyPress on Enter without Shift. *)
Definition handleKeyPress_Enter (r : Render) (w : World) : World :=
  handleSendMessage r None w.

(** The send button: disabled={!inputText.trim() || !isConnected ||
    isAIResponding}, onClick={() => handleSendMessage()}. *)
Definition send_button_disabled (r : Render) : bool :=
  negb (truthy (trim (inputText r))) || negb (isConnected r) || isAIResponding r.

Definition send_button_onClick (r : Render) (w : World) : World :=
  if send_button_disabled r then w else handleSendMessage r None w.

(** *** Events *)

(** How the playback of an audio element comes to its end: the [ended]
    event, the [error] event, or the rejection of the promise of [play()]. *)
Inductive Completion := by_end | by_error | by_rejection.

(** An audio element reports its end; when it was sounding it falls silent,
    and the handler installed for the report runs. *)
Definition audio_done (how : Completion) (a : Audio) (w : World) : World :=
  let w :=
    if is_playing a w
    then set_heard (heard w ++ [Finished a]) (set_playing (remove_audio a (playing w)) w)
    else w in
  match how with
  | by_end => audio_onended a w
  | by_error => audio_onerror a w
  | by_rejection => play_rejected a w
  end.

Inductive Event :=
| result (e : SpeechRecognitionEvent)
| speechend
| speechstart
| error (kind : string)
| ended
| connect
| connected (sid : string)
| session_joined (sid : string) (history : option (list HistoryEntry))
| ai_start
| ai_chunk (chunk : string)
| ai_complete (fullResponse : string) (audioBase64 audioMimeType : option string)
| socket_error (message : string)
| disconnect
| clip_ended (a : Audio)
| clip_error (a : Audio)
| clip_rejected (a : Audio)
| clip_resolved (a : Audio)
| audio_mode (audioMode : bool)
| timeout (handle : nat)
| tick (ms : nat).

(** One event delivered to the handlers installed by the mount effect, all
    of which read the snapshot [r]. *)
Definition step (r : Render) (w : World) (e : Event) : World :=
  match e with
  | result e => onresult r e w
  | speechend => onspeechend r w
  | speechstart => onspeechstart r w
  | error kind => onerror r kind w
  | ended => onend r (set_micActive false w)
  | connect => on_connect r w
  | connected sid =>
      match socketRef w with
      | Some sock => on_connected r sock sid w
      | None => w
      end
  | session_joined sid history => on_session_joined r sid history w
  | ai_start => on_ai_start r w
  | ai_chunk chunk => on_ai_chunk r chunk w
  | ai_complete fullResponse audioBase64 audioMimeType =>
      on_ai_complete r fullResponse audioBase64 audioMimeType w
  | socket_error message => on_error r message w
  | disconnect => on_disconnect r w
  | clip_ended a => audio_done by_end a w
  | clip_error a => audio_done by_error a w
  | clip_rejected a => audio_done by_rejection a w
  | clip_resolved a => play_resolved a w
  | audio_mode b => audioMode_effect b w
  | timeout handle =>
      match take_timer handle (timers w) with
      | Some (cb, rest) => fire r cb (set_timers rest (nextTimer w) w)
      | None => w
      end
  | tick ms => set_clock (clock w + ms) w
  end.

Definition run (r : Render) (w : World) (es : list Event) : World :=
  fold_left (step r) es w.

(** The world when the mount effects have run: [socketRef.current =
    newSocket], and the [audioMode] effect has run with the initial value of
    the hook, [useState(false)]. *)
Definition mounted (sock : Socket) : World :=
  audioMode_effect false
    {| socketRef := Some sock; sessionIdRef := ""; audioQueueRef := [];
       currentAudioRef := None; audioModeRef := false;
       isRecognitionRunningRef := false; lastTranscriptRef := "";
       micEnabledRef := false; silenceTimer := None; micActive := false;
       playing := []; heard := []; nextAudio := 0; timers := [];
       nextTimer := 0; clock := 0; trace := [] |}.

(** The playback sequencer on its own: a clip is enqueued, or a clip reports
    its end, an error, or a rejected [play()]. *)
Inductive Sequencer :=
| enqueue (url : string)
| segment_end (a : Audio)
| segment_error (a : Audio)
| segment_rejected (a : Audio).

Definition sequencer_step (w : World) (e : Sequencer) : World :=
  match e with
  | enqueue url => enqueueAudio url w
  | segment_end a => audio_done by_end a w
  | segment_error a => audio_done by_error a w
  | segment_rejected a => audio_done by_rejection a w
  end.

End Clip.

(** ** Asynchronous functions *)

Module Js.

(** A thrown value or the reason of a rejected promise, an [Error] object:
    [error.message]. *)
Record Error := { message : string }.

(** The settlement of an awaited promise. *)
Inductive Outcome (A : Type) :=
| resolved (x : A)
| rejected (e : Error).
Arguments resolved {A} x.
Arguments rejected {A} e.

(** The body of an async function whose actions are of type [Act]: the
    actions done so far, and a value or the value thrown. *)
Definition M (Act A : Type) : Type := list Act * (A + Error).

Definition ret {Act A} (x : A) : M Act A := ([], inl x).

Definition throw {Act A} (e : Error) : M Act A := ([], inr e).

Definition bind {Act A B} (m : M Act A) (f : A -> M Act B) : M Act B :=
  match m with
  | (l, inl x) => let (l', y) := f x in ((l ++ l')%list, y)
  | (l, inr e) => (l, inr e)
  end.

Definition perform {Act} (a : Act) : M Act unit := ([a], inl tt).

Definition await {Act A} (o : Outcome A) : M Act A :=
  match o with
  | resolved x => ret x
  | rejected e => throw e
  end.

(** try { body } catch (error) { handler }. *)
Definition try_catch {Act} (body : M Act unit) (handler : Error -> M Act unit)
    : M Act unit :=
  match body with
  | (l, inl x) => (l, inl x)
  | (l, inr e) => let (l', y) := handler e in ((l ++ l')%list, y)
  end.

(** try { body } catch (error) { handler } finally { final }. *)
Definition try_catch_finally {Act} (body : M Act unit) (handler : Error -> M Act unit)
    (final : M Act unit) : M Act unit :=
  let (l, y) := try_catch body handler in
  let (l', z) := final in
  ((l ++ l')%list, match z with inl _ => y | inr e => inr e end).

Notation "x <- m ;; k" := (bind m (fun x => k))
  (at level 61, m at next level, right associativity).
Notation "m ;; k" := (bind m (fun _ => k))
  (at level 61, right associativity).

(** [s.startsWith(searchString)]. *)
Fixpoint startsWith (s searchString : string) {struct searchString} : bool :=
  match searchString with
  | EmptyString => true
  | String c rest =>
      match s with
      | EmptyString => false
      | String c' s' => Ascii.eqb c' c && startsWith s' rest
      end
  end.

(** A template literal prints an absent value as "undefined". *)
Definition template (o : option string) : string :=
  match o with
  | Some s => s
  | None => "undefined"
  end.

(** [value || fallback] on a string that may be absent. *)
Definition or_default (o : option string) (fallback : string) : string :=
  match o with
  | Some s => or_else s fallback
  | None => fallback
  end.

End Js.

(** ** The upload of a document (src/usePdfUploader.js) *)

Module Uploader.

Import Js.

(** A dropped [File]. *)
Record File := {
  name : string;
  type : string
}.

(** The JSON body of a reply of the server; a field that is absent is
    [None]. *)
Record ServerResult := {
  success : bool;
  error : option string;
  filename : option string;
  sessionId : option string;
  reply_message : option string      (* result.message *)
}.

(** A [Response] of [fetch]. *)
Record Response := {
  ok : bool;
  status : nat;
  text : Outcome string;             (* await response.text() *)
  json : Outcome ServerResult        (* await response.json() *)
}.

(** What the hook does to the outside: its state setters, the two
    requests and the callback. *)
Inductive Action :=
| setIsUploading (b : bool)
| setUploadStatus (s : string)
| setUploadError (e : option Error)
| fetch_upload_pdf (file : File) (pdfText : string)
| fetch_start_conversation (sessionId : option string)
| onUploadSuccess (sessionId : option string) (filename : string)
    (initialMessage : option string).

Definition decimal (n : nat) : string := NilEmpty.string_of_uint (Nat.to_uint n).

Definition newline : string := String (ascii_of_nat 10) "".

(** What the awaited operations of [extractPdfText] give: the bytes of the
    file, the document, and for each page [getPage(i)] and then
    [getTextContent()], the [str] of its items. *)
Record Reading := {
  arrayBuffer : Outcome unit;
  document : Outcome (list (Outcome (Outcome (list string))))
}.

(** The loop over the pages, [fullText] being the text so far. *)
Fixpoint read_pages (pages : list (Outcome (Outcome (list string))))
    (fullText : string) : M Action string :=
  match pages with
  | [] => ret fullText
  | getPage :: rest =>
      page <- await getPage ;;
      textContent <- await page ;;
      read_pages rest (fullText ++ String.concat " " textContent ++ newline)
  end.

Definition extractPdfText (reading : Reading) : M Action string :=
  _ <- await (arrayBuffer reading) ;;
  pdf <- await (document reading) ;;
  read_pages pdf "".

(** What the awaited operations of [handleFileDrop] give. *)
Record Env := {
  reading : Reading;
  upload_response : Outcome Response;   (* fetch(.../api/upload-pdf) *)
  start_response : Outcome Response     (* fetch(.../api/start-conversation) *)
}.

Definition only_pdf : Error := {| message := "Only PDF files are supported." |}.

(** [handleFileDrop(file)] in a render whose [isUploading] is given; [file]
    is [None] for a null argument. *)
Definition handleFileDrop (isUploading : bool) (file : option File) (env : Env)
    : M Action unit :=
  if isUploading then ret tt
  else
    match file with
    | None => perform (setUploadError (Some only_pdf))
    | Some file =>
        if negb (String.eqb (type file) "application/pdf")
        then perform (setUploadError (Some only_pdf))
        else
          perform (setIsUploading true) ;;
          perform (setUploadStatus ("Processing " ++ name file ++ "...")) ;;
          perform (setUploadError None) ;;
          try_catch_finally
            (pdfText <- extractPdfText (reading env) ;;
             let fileName := name file in
             perform (setUploadStatus "Uploading text to server...") ;;
             perform (fetch_upload_pdf file pdfText) ;;
             response <- await (upload_response env) ;;
             (if negb (ok response)
              then
                errorText <- await (text response) ;;
                throw {| message := "Upload failed (Status " ++ decimal (status response)
                                    ++ "): " ++ substring 0 100 errorText ++ "..." |}
              else ret tt) ;;
             result <- await (json response) ;;
             (if negb (success result)
              then throw {| message := or_default (error result)
                                         "Server reported failure during PDF upload." |}
              else ret tt) ;;
             perform (setUploadStatus ("Successfully uploaded " ++ template (filename result)
                                       ++ ". Starting conversation...")) ;;
             perform (fetch_start_conversation (sessionId result)) ;;
             response <- await (start_response env) ;;
             (if negb (ok response)
              then
                errorText <- await (text response) ;;
                throw {| message := "Conversation start failed (Status "
                                    ++ decimal (status response)
                                    ++ "): " ++ substring 0 100 errorText ++ "..." |}
              else ret tt) ;;
             result <- await (json response) ;;
             if success result
             then perform (onUploadSuccess (sessionId result) fileName
                             (reply_message result))
             else throw {| message := or_default (error result)
                                        "Server reported failure starting conversation." |})
            (fun error =>
               perform (setUploadError (Some error)) ;;
               perform (setUploadStatus ("Operation failed: " ++ message error)))
            (perform (setIsUploading false))
    end.

(** The drop handler of the effect: [e.dataTransfer.files]. *)
Definition handleDrop (isUploading : bool) (files : list File) (env : Env) : M Action unit :=
  match files with
  | [] => ret tt
  | file :: _ => handleFileDrop isUploading (Some file) env
  end.

(** The state of the hook: [isUploading], [uploadStatus], [uploadError]. *)
Record Hook := {
  isUploading : bool;
  uploadStatus : string;
  uploadError : option Error
}.

Definition initial : Hook :=
  {| isUploading := false; uploadStatus := ""; uploadError := None |}.

Definition update (h : Hook) (a : Action) : Hook :=
  match a with
  | setIsUploading b =>
      {| isUploading := b; uploadStatus := uploadStatus h; uploadError := uploadError h |}
  | setUploadStatus s =>
      {| isUploading := isUploading h; uploadStatus := s; uploadError := uploadError h |}
  | setUploadError e =>
      {| isUploading := isUploading h; uploadStatus := uploadStatus h; uploadError := e |}
  | _ => h
  end.

Definition rerender (h : Hook) (l : list Action) : Hook := fold_left update l h.

End Uploader.

(** ** The sidebar element of the study material
    (ActivePdfDisplay in src/components/ResponsiveAIAssistant.tsx) *)

Module ActivePdfDisplay.
Import Js.

(** The JSON body of a reply to /api/pdf-content. *)
Record ContentResult := {
  success : bool;
  pdfText : option string;
  error : option string
}.

Record Response := {
  ok : bool;
  text : Outcome string;             (* await response.text() *)
  json : Outcome ContentResult       (* await response.json() *)
}.

Inductive Action :=
| fetch_reset (sessionId : string)
| setSessionData_null                (* setSessionData(null) *)
| fetch_pdf_content (sessionId : string)
| setContent (content : option string)
| setShowModal (b : bool).

(** [handleResetClick]; [confirmed] is the answer to [window.confirm].  The
    rejection of the request is only logged. *)
Definition handleResetClick (confirmed : bool) (sessionData : SessionDataType)
    : list Action :=
  if negb confirmed then []
  else [fetch_reset (sd_sessionId sessionData); setSessionData_null].

(** [handleViewClick]; [parse errorText] is [JSON.parse(errorText).error],
    or what that expression throws. *)
Definition handleViewClick (parse : string -> Outcome (option string))
    (sessionData : SessionDataType) (response : Outcome Response) : M Action unit :=
  perform (setContent (Some "Loading PDF content...")) ;;
  perform (setShowModal true) ;;
  try_catch
    (perform (fetch_pdf_content (sd_sessionId sessionData)) ;;
     response <- await response ;;
     if negb (ok response)
     then
       errorText <- await (text response) ;;
       if startsWith errorText "<!"
       then perform (setContent (Some "Server Error: The backend crashed while fetching the PDF content. Please check the Flask console."))
       else
         errorJson_error <- await (parse errorText) ;;
         perform (setContent
                    (Some ("Error: " ++ or_default errorJson_error "Unknown server error.")))
     else
       result <- await (json response) ;;
       if success result
       then perform (setContent (pdfText result))
       else perform (setContent
                       (Some ("Error: Could not retrieve PDF text. "
                              ++ or_default (error result) "Server failed."))))
    (fun error =>
       perform (setContent
                  (Some ("Network Error: " ++ message error
                         ++ ". Ensure the Flask server is running and accessible at http://localhost:8501.")))).

(** The file name as the element shows it. *)
Definition shown_filename (sessionData : SessionDataType) : string :=
  if Nat.ltb 25 (String.length (filename sessionData))
  then substring 0 22 (filename sessionData) ++ "..."
  else filename sessionData.

End ActivePdfDisplay.

(** ** The chat endpoint (the edge handler of the API) *)

Module ChatApi.
Import Js.

Record ChatMessage := {
  role : string;
  content : string
}.

(** The JSON body of a request: [messages] spread into an array, or the
    TypeError of spreading a value that is not iterable. *)
Record Body := {
  messages : Outcome (list ChatMessage);
  pdfContext : option string;
  isInitial : bool
}.

Record Request := {
  method : string;
  json : Outcome Body                (* await req.json(), destructured *)
}.

(** A [Response] as the handler builds it, with the headers that the
    handler sets.  [streamText] and [toDataStreamResponse] are taken not to
    throw. *)
Inductive Response :=
| plain (status : nat) (headers : list (string * string)) (body : option string)
| json_error (status : nat) (headers : list (string * string)) (error : string)
    (* JSON.stringify({ error }) *)
| data_stream (headers : list (string * string)) (messages : list ChatMessage).
    (* streamText({ messages, ... }).toDataStreamResponse({ headers }) *)

Definition newline : string := String (ascii_of_nat 10) "".

Definition base_prompt : string :=
  "You are an enthusiastic, encouraging AI tutor helping a student learn from their study material."
  ++ newline ++ newline ++ "Guidelines:" ++ newline
  ++ "- Keep responses conversational and natural (2-4 sentences)" ++ newline
  ++ "- Explain concepts clearly and check understanding" ++ newline
  ++ "- Be warm and encouraging" ++ newline
  ++ "- Keep it SHORT - responses will be spoken aloud" ++ newline
  ++ "- Reference the material when relevant" ++ newline
  ++ "- Ask engaging questions to check understanding".

Definition material (pdfContext : string) : string :=
  newline ++ newline ++ "=== STUDY MATERIAL ===" ++ newline ++ pdfContext
  ++ newline ++ newline ++ "=== END MATERIAL ===" ++ newline ++ newline
  ++ "Use this material to guide your tutoring.".

Definition opening : string :=
  newline ++ newline
  ++ "This is the start of the conversation. Introduce a key concept from the material and ask the student what they know about it.".

Definition systemPrompt (pdfContext : option string) (isInitial : bool) : string :=
  let systemPrompt := base_prompt in
  let systemPrompt :=
    match pdfContext with
    | Some c => if truthy c then systemPrompt ++ material c else systemPrompt
    | None => systemPrompt
    end in
  if isInitial then systemPrompt ++ opening else systemPrompt.

Definition handler (req : Request) : Response :=
  if String.eqb (method req) "OPTIONS"
  then plain 200 [("Access-Control-Allow-Origin", "*");
                  ("Access-Control-Allow-Methods", "POST, OPTIONS");
                  ("Access-Control-Allow-Headers", "Content-Type")] None
  else if negb (String.eqb (method req) "POST")
  then plain 405 [] (Some "Method not allowed")
  else
    let attempt : Error + Response :=
      match json req with
      | resolved body =>
          match messages body with
          | resolved messages =>
              inr (data_stream [("Access-Control-Allow-Origin", "*")]
                     ({| role := "system";
                         content := systemPrompt (pdfContext body) (isInitial body) |}
                      :: messages))
          | rejected error => inl error
          end
      | rejected error => inl error
      end in
    match attempt with
    | inr response => response
    | inl error =>
        json_error 500 [("Content-Type", "application/json");
                        ("Access-Control-Allow-Origin", "*")]
          (or_else (message error) "Internal server error")
    end.

Definition headers_of (response : Response) : list (string * string) :=
  match response with
  | plain _ headers _ | json_error _ headers _ | data_stream headers _ => headers
  end.

End ChatApi.

(** ** The wrapper of the application (src/main.tsx) *)

Module AppWrapper.

(** What [StatusBanner] renders. *)
Inductive Banner :=
| error_banner (message : string)    (* Upload Error: {uploadError.message} *)
| status_banner (status : string)    (* Status: {uploadStatus} *)
| no_banner.                         (* null *)

Definition StatusBanner (h : Uploader.Hook) : Banner :=
  match Uploader.uploadError h with
  | Some uploadError => error_banner (Js.message uploadError)
  | None =>
      if Uploader.isUploading h
      then status_banner (Uploader.uploadStatus h)
      else no_banner
  end.

(** const showLoader = isUploading && !uploadError. *)
Definition showLoader (h : Uploader.Hook) : bool :=
  Uploader.isUploading h && negb (is_some (Uploader.uploadError h)).

End AppWrapper.

(** * Vocabulary of the properties *)

Local Open Scope list_scope.

(** Reduction of the record updates of the two worlds. *)
Ltac tts_red :=
  cbn [Tts.set Tts.act Tts.set_socketRef Tts.set_sessionIdRef Tts.set_speechQueueRef
       Tts.set_isSpeakingRef Tts.set_isRecognitionRunningRef Tts.set_lastTranscriptRef
       Tts.set_micActive Tts.set_synth Tts.set_heard Tts.set_timers Tts.set_clock
       Tts.socketRef Tts.sessionIdRef Tts.speechQueueRef Tts.isSpeakingRef
       Tts.isRecognitionRunningRef Tts.lastTranscriptRef Tts.micActive Tts.synth
       Tts.heard Tts.timers Tts.nextTimer Tts.clock Tts.trace].

Ltac clip_red :=
  cbn [Clip.set Clip.act Clip.set_socketRef Clip.set_sessionIdRef Clip.set_audioQueueRef
       Clip.set_currentAudioRef Clip.set_audioModeRef Clip.set_isRecognitionRunningRef
       Clip.set_lastTranscriptRef Clip.set_micEnabledRef Clip.set_silenceTimer
       Clip.set_micActive Clip.set_playing Clip.set_heard Clip.set_nextAudio
       Clip.set_timers Clip.set_clock
       Clip.socketRef Clip.sessionIdRef Clip.audioQueueRef Clip.currentAudioRef
       Clip.audioModeRef Clip.isRecognitionRunningRef Clip.lastTranscriptRef
       Clip.micEnabledRef Clip.silenceTimer Clip.micActive Clip.playing Clip.heard
       Clip.nextAudio Clip.timers Clip.nextTimer Clip.clock Clip.trace].

(** The notice of [handleSendMessage]. *)
Definition not_connected_notice : Action :=
  alert "Not connected to server. Please wait...".

(** A render in which conversation mode and audio output are on and every
    browser capability is present, with [text] typed into the input. *)
Definition render_on (text : string) : Render :=
  {| messages := []; showChat := false;
     inputText := text; isListening := false; isSpeaking := false;
     recognition := true; speechSynthesis := true; socket := None;
     sessionId := ""; isConnected := true; isAIResponding := false;
     conversationMode := true; isConversationLocked := false;
     audioMode := true; sessionData := None |}.

(** A world in which one chunk is sounding and two more wait in the queue. *)
Definition world_speaking : Tts.World :=
  Tts.speakChunk (render_on "") "Three."
    (Tts.speakChunk (render_on "") "Two."
       (Tts.speakChunk (render_on "") "One." (Tts.mounted 1))).

(** The recoverable errors of the recogniser. *)
Definition whitelisted (kind : string) : bool :=
  String.eqb kind "no-speech" || String.eqb kind "aborted".

(** A render of the speech-synthesis version in which the session data
    has just been removed while a message is shown. *)
Definition render_reset : Render :=
  {| messages := [ {| id := clock_id 0; text := "Hi"; sender := ai;
                      timestamp := 0; audioUrl := None |} ];
     showChat := true;
     inputText := ""; isListening := false; isSpeaking := false;
     recognition := true; speechSynthesis := true; socket := None;
     sessionId := ""; isConnected := true; isAIResponding := false;
     conversationMode := true; isConversationLocked := false;
     audioMode := true; sessionData := None |}.

(** The render that follows: the reset effect has set the lock flag and has
    left conversation mode on. *)
Definition render_locked : Render :=
  rerender render_reset
    (Tts.trace (Tts.sessionData_effect render_reset (Tts.mounted 1))).

(** Everything handed to the speech sequencer so far: the utterances given
    to the synthesiser, then the chunks that wait in the queue. *)
Definition handed_over (w : Tts.World) : list string :=
  spoken (Tts.trace w) ++ Tts.speechQueueRef w.

(** A history entry. *)
Definition entry (r c : string) : HistoryEntry := {| role := r; content := c |}.

(** A render of the speech-synthesis version that holds the session data of
    an uploaded document. *)
Definition render_with_document : Render :=
  {| messages := []; showChat := true;
     inputText := ""; isListening := false; isSpeaking := false;
     recognition := true; speechSynthesis := true; socket := None;
     sessionId := ""; isConnected := true; isAIResponding := false;
     conversationMode := true; isConversationLocked := false;
     audioMode := true;
     sessionData := Some {| sd_sessionId := "doc-1"; filename := "notes.pdf";
                            initialMessage := "Welcome" |} |}.

(** The utterance that [processNextSpeech] makes of a chunk. *)
Definition queued (t : string) : Tts.Utterance :=
  {| Tts.utterance_text := t; Tts.origin := Tts.from_queue |}.

(** The report of the clip in flight, whichever it is. *)
Definition finish_current (w : Clip.World) (how : Clip.Completion) : Clip.World :=
  match Clip.currentAudioRef w with
  | Some a => Clip.audio_done how a w
  | None => w
  end.

(** The audio-clip version with audio output on, one clip sounding and two
    more in the queue. *)
Definition clips_playing : Clip.World :=
  Clip.enqueueAudio "data:c"
    (Clip.enqueueAudio "data:b"
       (Clip.enqueueAudio "data:a" (Clip.audioMode_effect true (Clip.mounted 1)))).

(** A response streamed in two chunks. *)
Definition first_chunk : string :=
  "Gravity is the pull that every mass has on every other mass. ".

Definition second_chunk : string :=
  "It keeps the planets on their orbits around the sun.".

Definition gravity : list Tts.Event :=
  [Tts.ai_start; Tts.ai_chunk first_chunk; Tts.ai_chunk second_chunk;
   Tts.ai_complete (first_chunk ++ second_chunk)%string].

(** A result event with one final, or one interim, transcript. *)
Definition final_result (t : string) : SpeechRecognitionEvent :=
  {| resultIndex := 0; results := [ {| transcript := t; isFinal := true |} ] |}.

Definition interim_result (t : string) : SpeechRecognitionEvent :=
  {| resultIndex := 0; results := [ {| transcript := t; isFinal := false |} ] |}.

(** A session is joined and the transport disconnects. *)
Definition joined_then_disconnected : list Tts.Event :=
  [Tts.connect; Tts.connected "abc"; Tts.session_joined "abc" None; Tts.disconnect].

(** The chunks that [speakChunk] accepts among those enqueued. *)
Definition accepted_chunk (r : Render) (e : Tts.Sequencer) : list string :=
  match e with
  | Tts.enqueue t => if speechSynthesis r && truthy (trim t) then [t] else []
  | _ => []
  end.

(** The invariant of the speech sequencer: the segments went one at a time
    and [cur] is the one in flight, which is the whole content of the
    synthesiser; [isSpeakingRef] says whether there is one; nothing waits
    while none is in flight; the segments begun, then the queue, are the
    chunks accepted, in order. *)
Definition Tts_sequenced (w : Tts.World) (chunks : list string) : Prop :=
  exists cur,
    one_at_a_time String.eqb None (Tts.heard w) = Some cur
    /\ Tts.synth w = map queued (olist cur)
    /\ Tts.isSpeakingRef w = is_some cur
    /\ (cur = None -> Tts.speechQueueRef w = [])
    /\ segments_begun (Tts.heard w) ++ Tts.speechQueueRef w = chunks
    /\ spoken (Tts.trace w) = segments_begun (Tts.heard w).

(** The urls that [enqueueAudio] accepts among those enqueued. *)
Definition accepted_url (e : Clip.Sequencer) : list string :=
  match e with
  | Clip.enqueue url => if truthy url then [url] else []
  | _ => []
  end.

(** The invariant of the clip sequencer while audio output is on: the clips
    went one at a time and the one in flight is [currentAudioRef], which is
    the only clip that sounds; nothing waits while none is in flight; the
    urls of the clips begun, then the queue, are the urls accepted, in
    order. *)
Definition Clip_sequenced (w : Clip.World) (urls : list string) : Prop :=
  Clip.audioModeRef w = true
  /\ one_at_a_time audio_eqb None (Clip.heard w) = Some (Clip.currentAudioRef w)
  /\ Clip.playing w = olist (Clip.currentAudioRef w)
  /\ (Clip.currentAudioRef w = None -> Clip.audioQueueRef w = [])
  /\ Forall (fun url => truthy url = true) (Clip.audioQueueRef w)
  /\ map audio_url (segments_begun (Clip.heard w)) ++ Clip.audioQueueRef w = urls
  /\ played (Clip.trace w) = segments_begun (Clip.heard w).

(** Two worlds of the audio-clip version with the same submissions so far
    and the same socket and session. *)
Definition Clip_quiet (w w' : Clip.World) : Prop :=
  submissions (Clip.trace w') = submissions (Clip.trace w)
  /\ Clip.socketRef w' = Clip.socketRef w
  /\ Clip.sessionIdRef w' = Clip.sessionIdRef w.

Definition Tts_quiet (w w' : Tts.World) : Prop :=
  submissions (Tts.trace w') = submissions (Tts.trace w)
  /\ Tts.socketRef w' = Tts.socketRef w
  /\ Tts.sessionIdRef w' = Tts.sessionIdRef w.

(** The events of an utterance in the audio-clip version.  While it is
    captured: interim results and end-of-speech signals.  After its final
    result: end-of-speech signals, ends of the recogniser and timers that
    fire. *)
Definition Clip_capturing (e : Clip.Event) : bool :=
  match e with
  | Clip.result ev => negb (truthy (finalText ev))
  | Clip.speechend => true
  | _ => false
  end.

Definition Clip_closing (e : Clip.Event) : bool :=
  match e with
  | Clip.speechend | Clip.ended | Clip.timeout _ => true
  | _ => false
  end.

(** The events of an utterance in the speech-synthesis version.  While it
    is captured: interim results.  After its final result: end-of-speech
    signals, ends of the recogniser and timers that fire. *)
Definition Tts_capturing (e : Tts.Event) : bool :=
  match e with
  | Tts.result ev => negb (truthy (finalText ev))
  | _ => false
  end.

Definition Tts_closing (e : Tts.Event) : bool :=
  match e with
  | Tts.speechend | Tts.ended | Tts.timeout _ => true
  | _ => false
  end.

Definition Tts_is_ended (e : Tts.Event) : bool :=
  match e with
  | Tts.ended => true
  | _ => false
  end.

(** The two versions after the join of session "abc". *)
Definition clip_joined : Clip.World :=
  Clip.run (render_on "") (Clip.mounted 1)
    [Clip.connect; Clip.connected "abc"; Clip.session_joined "abc" None].

Definition tts_joined : Tts.World :=
  Tts.run (render_on "") (Tts.mounted 1)
    [Tts.connect; Tts.connected "abc"; Tts.session_joined "abc" None].

(** The value of [isSpeaking] after the setter calls of a log, [b] being
    its value before. *)
Fixpoint speaking_flag (b : bool) (l : list Action) : bool :=
  match l with
  | [] => b
  | set_state (setIsSpeaking b') :: l' => speaking_flag b' l'
  | _ :: l' => speaking_flag b l'
  end.

(** ** The repertoire of every handler *)

(** [w'] has the log of [w], followed by actions that all satisfy [P]. *)
Definition Tts_adds (P : Action -> bool) (w w' : Tts.World) : Prop :=
  exists acts, Tts.trace w' = Tts.trace w ++ acts /\ forallb P acts = true.

Definition Clip_adds (P : Action -> bool) (w w' : Clip.World) : Prop :=
  exists acts, Clip.trace w' = Clip.trace w ++ acts /\ forallb P acts = true.

(** The actions of [processNextSpeech]. *)
Definition speech_output (a : Action) : bool :=
  match a with
  | speak _ | set_state (setIsSpeaking _) => true
  | _ => false
  end.

(** The actions of [handleSendMessage]. *)
Definition submission_output (a : Action) : bool :=
  match a with
  | set_state (appendMessage m) =>
      match sender m with user => true | ai => false end
  | set_state (setShowChat b) => b
  | set_state (setInputText s) => negb (truthy s)
  | emit_user_message _ _ _ | alert _ => true
  | _ => false
  end.

(** What the handler of each event of the speech-synthesis version can do
    to the outside. *)
Definition Tts_footprint (e : Tts.Event) (a : Action) : bool :=
  match e with
  | Tts.result _ =>
      match a with set_state (setInterimTranscript _) => true | _ => false end
  | Tts.speechend =>
      match a with recognition_stop => true | _ => false end
  | Tts.speechstart | Tts.tick _ => false
  | Tts.error _ =>
      match a with
      | set_timeout ms => Nat.eqb ms 1000
      | set_state (setConversationMode b) | set_state (setIsListening b) => negb b
      | set_state (setIsConversationLocked b) => b
      | _ => false
      end
  | Tts.ended =>
      submission_output a
      || match a with
         | set_state (setInterimTranscript s) => negb (truthy s)
         | set_timeout ms => Nat.eqb ms 1500 || Nat.eqb ms 500
         | set_state (setIsListening b) => negb b
         | _ => false
         end
  | Tts.connect =>
      match a with set_state (setIsConnected b) => b | _ => false end
  | Tts.connected _ =>
      match a with
      | set_state (setSessionId _) | emit_join_session _ _ => true
      | _ => false
      end
  | Tts.session_joined _ _ =>
      speech_output a
      || match a with
         | set_state (setIsConnected b) | set_state (setShowChat b) => b
         | set_state (setMessages _) => true
         | _ => false
         end
  | Tts.ai_start =>
      match a with
      | set_state (setIsAIResponding b) => b
      | set_state (setCurrentAIMessage s) => negb (truthy s)
      | _ => false
      end
  | Tts.ai_chunk _ =>
      speech_output a
      || match a with set_state (appendCurrentAIMessage _) => true | _ => false end
  | Tts.ai_complete _ =>
      match a with
      | set_state (setIsAIResponding b) => negb b
      | set_state (appendMessage m) =>
          match sender m with ai => true | user => false end
      | set_state (setCurrentAIMessage s) => negb (truthy s)
      | set_timeout ms => Nat.eqb ms 1500 || Nat.eqb ms 500
      | _ => false
      end
  | Tts.socket_error _ =>
      match a with
      | alert _ => true
      | set_state (setIsAIResponding b) => negb b
      | _ => false
      end
  | Tts.disconnect =>
      match a with set_state (setIsConnected b) => negb b | _ => false end
  | Tts.utterance_start =>
      match a with set_state (setIsSpeaking b) => b | _ => false end
  | Tts.utterance_end | Tts.utterance_error => speech_output a
  | Tts.timeout _ =>
      match a with recognition_start => true | _ => false end
  end.

(** The commands of the user interface of the speech-synthesis version, and
    the effect on the session data.  A press runs the handler of the button
    whether or not the render shows the button as disabled. *)
Inductive TtsCommand :=
| press_conversation            (* toggleConversationMode *)
| press_audio                   (* setAudioMode(!audioMode) *)
| press_replay (text : string)  (* handleSpeak *)
| press_microphone              (* handleVoiceInput *)
| press_Enter                   (* handleKeyPress *)
| press_send                    (* the send button *)
| session_data_changed.         (* the effect on sessionData *)

Definition Tts_command (r : Render) (w : Tts.World) (c : TtsCommand) : Tts.World :=
  match c with
  | press_conversation => Tts.toggleConversationMode r w
  | press_audio => Tts.toggleAudioMode r w
  | press_replay text => Tts.handleSpeak r text w
  | press_microphone => Tts.handleVoiceInput r w
  | press_Enter => Tts.handleKeyPress_Enter r w
  | press_send => Tts.send_button_onClick r w
  | session_data_changed => Tts.sessionData_effect r w
  end.

Definition Tts_command_footprint (c : TtsCommand) (a : Action) : bool :=
  match c with
  | press_conversation =>
      match a with
      | alert _ | recognition_stop | recognition_start => true
      | set_state (setConversationMode _) | set_state (setAudioMode _)
      | set_state (setIsListening _) => true
      | set_state (setIsConversationLocked b) => b
      | _ => false
      end
  | press_audio =>
      match a with set_state (setAudioMode _) => true | _ => false end
  | press_replay _ =>
      match a with
      | alert _ | synth_cancel | speak _ => true
      | set_state (setIsSpeaking b) => negb b
      | _ => false
      end
  | press_microphone =>
      match a with
      | alert _ | recognition_stop | recognition_start => true
      | set_state (setIsListening _) => true
      | _ => false
      end
  | press_Enter | press_send => submission_output a
  | session_data_changed =>
      match a with
      | set_state (setShowChat _) | set_state (setMessages []) => true
      | set_state (appendMessage m) =>
          match sender m with ai => true | user => false end
      | set_state (setIsConversationLocked b) => b
      | _ => false
      end
  end.

(** One thing that happens to the component: an event delivered to the
    handlers of the mount effect, which read the render [r0] they
    captured, or a command of the interface, which reads the render it is
    issued in. *)
Inductive TtsInput :=
| delivered (e : Tts.Event)
| issued (r : Render) (c : TtsCommand).

Definition Tts_input (r0 : Render) (w : Tts.World) (i : TtsInput) : Tts.World :=
  match i with
  | delivered e => Tts.step r0 w e
  | issued r c => Tts_command r w c
  end.

Definition Tts_inputs (r0 : Render) (w : Tts.World) (l : list TtsInput) : Tts.World :=
  fold_left (Tts_input r0) l w.

(** The inputs that can submit a message, start the recogniser, or hand
    text to the synthesiser. *)
Definition Tts_submits (i : TtsInput) : bool :=
  match i with
  | delivered Tts.ended | issued _ press_Enter | issued _ press_send => true
  | _ => false
  end.

Definition Tts_starts_recogniser (i : TtsInput) : bool :=
  match i with
  | delivered (Tts.timeout _) | issued _ press_conversation
  | issued _ press_microphone => true
  | _ => false
  end.

Definition is_submission (a : Action) : bool :=
  match a with emit_user_message _ _ _ => true | _ => false end.

Definition is_start (a : Action) : bool :=
  match a with recognition_start => true | _ => false end.

Definition clears_lock (a : Action) : bool :=
  match a with set_state (setIsConversationLocked b) => negb b | _ => false end.

Definition turns_conversation_on (a : Action) : bool :=
  match a with set_state (setConversationMode b) => b | _ => false end.

(** A scenario: the lock is set by a recogniser error, then the user
    presses every button and the server goes on talking. *)
Definition after_fatal_error : list TtsInput :=
  [delivered (Tts.error "not-allowed");
   issued render_locked press_conversation;
   issued render_locked press_microphone;
   delivered Tts.ended;
   delivered Tts.connect;
   delivered (Tts.ai_complete "Done.");
   issued render_locked session_data_changed;
   delivered (Tts.timeout 0)].

(** The one input that can switch conversation mode on: the conversation
    button, pressed in a render with a recogniser, conversation mode off
    and the lock not set. *)
Definition Tts_may_turn_on (i : TtsInput) : bool :=
  match i with
  | issued r press_conversation =>
      recognition r && negb (conversationMode r) && negb (isConversationLocked r)
  | _ => false
  end.

(** A conversation without a word of the user: the server talks, the
    recogniser fails and restarts, and the buttons other than Enter and
    send are pressed. *)
Definition nothing_said : list TtsInput :=
  [delivered Tts.connect; delivered (Tts.connected "abc");
   delivered (Tts.session_joined "abc" None);
   issued (render_on "typed") press_conversation;
   delivered (Tts.result (final_result "hello"));
   delivered Tts.speechend;
   delivered (Tts.error "no-speech");
   delivered (Tts.timeout 0);
   delivered Tts.ai_start; delivered (Tts.ai_chunk first_chunk);
   delivered (Tts.ai_complete first_chunk);
   issued (render_on "typed") (press_replay "again");
   issued (render_on "typed") press_audio].

(** The same without a timer firing and without the two buttons of the
    recogniser. *)
Definition no_timer_no_button : list TtsInput :=
  [delivered Tts.connect; delivered (Tts.connected "abc");
   delivered (Tts.session_joined "abc" None);
   delivered (Tts.result (final_result "hello"));
   delivered Tts.speechend; delivered Tts.ended;
   delivered (Tts.error "no-speech");
   delivered Tts.ai_start; delivered (Tts.ai_chunk first_chunk);
   delivered (Tts.ai_complete first_chunk);
   delivered Tts.utterance_end;
   issued (render_on "typed") press_Enter;
   issued (render_on "typed") (press_replay "again")].

(** The actions of [playNextAudio] and of [handleComplete]. *)
Definition clip_output (a : Action) : bool :=
  match a with
  | audio_play _ => true
  | set_state (setIsSpeaking b) => negb b
  | _ => false
  end.

(** What the handler of each event of the audio-clip version can do to the
    outside. *)
Definition Clip_footprint (e : Clip.Event) (a : Action) : bool :=
  match e with
  | Clip.result _ =>
      submission_output a
      || match a with set_state (setInterimTranscript _) => true | _ => false end
  | Clip.speechend =>
      match a with set_timeout ms => Nat.eqb ms 500 | _ => false end
  | Clip.speechstart =>
      match a with clear_timeout _ => true | _ => false end
  | Clip.tick _ => false
  | Clip.error _ =>
      match a with
      | set_timeout ms => Nat.eqb ms 1000 || Nat.eqb ms 500
      | set_state (setConversationMode b) | set_state (setIsListening b) => negb b
      | _ => false
      end
  | Clip.ended =>
      match a with
      | set_timeout ms => Nat.eqb ms 100
      | set_state (setIsListening b) => negb b
      | _ => false
      end
  | Clip.connect =>
      match a with set_state (setIsConnected b) => b | _ => false end
  | Clip.connected _ =>
      match a with
      | set_state (setSessionId _) | emit_join_session _ _ => true
      | _ => false
      end
  | Clip.session_joined _ _ =>
      match a with
      | set_state (setIsConnected b) => b
      | set_state (setMessages _) => true
      | _ => false
      end
  | Clip.ai_start =>
      match a with
      | set_state (setIsAIResponding b) => b
      | set_state (setCurrentAIMessage s) => negb (truthy s)
      | _ => false
      end
  | Clip.ai_chunk _ =>
      match a with set_state (appendCurrentAIMessage _) => true | _ => false end
  | Clip.ai_complete _ _ _ =>
      clip_output a
      || match a with
         | set_state (setIsAIResponding b) => negb b
         | set_state (appendMessage m) =>
             match sender m with ai => true | user => false end
         | set_state (setCurrentAIMessage s) => negb (truthy s)
         | set_timeout ms => Nat.eqb ms 1500 || Nat.eqb ms 500
         | _ => false
         end
  | Clip.socket_error _ =>
      match a with
      | alert _ => true
      | set_state (setIsAIResponding b) => negb b
      | _ => false
      end
  | Clip.disconnect =>
      match a with set_state (setIsConnected b) => negb b | _ => false end
  | Clip.clip_ended _ | Clip.clip_error _ | Clip.clip_rejected _ => clip_output a
  | Clip.clip_resolved _ =>
      match a with set_state (setIsSpeaking b) => b | _ => false end
  | Clip.audio_mode _ =>
      clip_output a || match a with audio_pause _ => true | _ => false end
  | Clip.timeout _ =>
      submission_output a
      || match a with
         | set_state (setInterimTranscript s) => negb (truthy s)
         | recognition_start => true
         | set_state (setIsListening b) => b
         | _ => false
         end
  end.

(** The commands of the user interface of the audio-clip version, with the
    same reading of a press. *)
Inductive ClipCommand :=
| tap_conversation              (* toggleConversationMode *)
| tap_audio                     (* setAudioMode(!audioMode) *)
| tap_replay (message : Message) (* handleSpeak *)
| tap_microphone                (* handleVoiceInput *)
| tap_Enter                     (* handleKeyPress *)
| tap_send.                     (* the send button *)

(** The audio button: onClick={() => setAudioMode(!audioMode)}; the effect
    on [audioMode] follows as the event [Clip.audio_mode]. *)
Definition Clip_toggleAudioMode (r : Render) (w : Clip.World) : Clip.World :=
  Clip.set (setAudioMode (negb (audioMode r))) w.

(** [handleSpeak(message)] of the audio-clip version: the clip of the
    message is played on an audio element of its own, outside the queue;
    it has no handler for its end. *)
Definition Clip_handleSpeak (message : Message) (w : Clip.World) : Clip.World :=
  match audioUrl message with
  | Some url =>
      if truthy url
      then
        let audio := {| audio_id := Clip.nextAudio w; audio_url := url |} in
        let w := Clip.set_nextAudio (S (Clip.nextAudio w)) w in
        let w := Clip.act (audio_play audio) w in
        Clip.set_playing (Clip.playing w ++ [audio]) w
      else Clip.act (alert "Audio is not available for this response yet.") w
  | None => Clip.act (alert "Audio is not available for this response yet.") w
  end.

Definition Clip_command (r : Render) (w : Clip.World) (c : ClipCommand) : Clip.World :=
  match c with
  | tap_conversation => Clip.toggleConversationMode r w
  | tap_audio => Clip_toggleAudioMode r w
  | tap_replay message => Clip_handleSpeak message w
  | tap_microphone => Clip.handleVoiceInput r w
  | tap_Enter => Clip.handleKeyPress_Enter r w
  | tap_send => Clip.send_button_onClick r w
  end.

Definition Clip_command_footprint (c : ClipCommand) (a : Action) : bool :=
  match c with
  | tap_conversation =>
      match a with
      | alert _ | recognition_stop | recognition_start => true
      | set_state (setConversationMode _) | set_state (setAudioMode _)
      | set_state (setIsListening _) => true
      | _ => false
      end
  | tap_audio =>
      match a with set_state (setAudioMode _) => true | _ => false end
  | tap_replay _ =>
      match a with alert _ | audio_play _ => true | _ => false end
  | tap_microphone =>
      match a with
      | alert _ | recognition_stop | recognition_start => true
      | set_state (setIsListening _) => true
      | _ => false
      end
  | tap_Enter | tap_send => submission_output a
  end.

Inductive ClipInput :=
| clip_delivered (e : Clip.Event)
| clip_issued (r : Render) (c : ClipCommand).

Definition Clip_input (r0 : Render) (w : Clip.World) (i : ClipInput) : Clip.World :=
  match i with
  | clip_delivered e => Clip.step r0 w e
  | clip_issued r c => Clip_command r w c
  end.

Definition Clip_inputs (r0 : Render) (w : Clip.World) (l : list ClipInput) : Clip.World :=
  fold_left (Clip_input r0) l w.

(** The inputs of the audio-clip version that can submit a message. *)
Definition Clip_submits (i : ClipInput) : bool :=
  match i with
  | clip_delivered (Clip.result ev) => truthy (finalText ev)
  | clip_delivered (Clip.timeout _) => true
  | clip_issued _ tap_Enter | clip_issued _ tap_send => true
  | _ => false
  end.

(** The inputs that can make a clip sound. *)
Definition Clip_plays (i : ClipInput) : bool :=
  match i with
  | clip_delivered (Clip.ai_complete _ _ _)
  | clip_delivered (Clip.clip_ended _) | clip_delivered (Clip.clip_error _)
  | clip_delivered (Clip.clip_rejected _) | clip_delivered (Clip.audio_mode _)
  | clip_issued _ (tap_replay _) => true
  | _ => false
  end.

Definition is_play (a : Action) : bool :=
  match a with audio_play _ => true | _ => false end.

(** A message of the tutor with its clip. *)
Definition message_with_clip : Message :=
  {| id := clock_id 0; text := first_chunk; sender := ai; timestamp := 0;
     audioUrl := Some "data:audio/mpeg;base64,QUJD" |}.

(** A conversation of the audio-clip version in which the user says
    nothing final and types nothing. *)
Definition clip_nothing_said : list ClipInput :=
  [clip_delivered Clip.connect; clip_delivered (Clip.connected "abc");
   clip_delivered (Clip.session_joined "abc" None);
   clip_issued (render_on "typed") tap_conversation;
   clip_delivered (Clip.result (interim_result "hel"));
   clip_delivered Clip.speechend;
   clip_delivered Clip.speechstart;
   clip_delivered (Clip.error "no-speech");
   clip_delivered Clip.ended;
   clip_delivered Clip.ai_start; clip_delivered (Clip.ai_chunk first_chunk);
   clip_delivered (Clip.ai_complete first_chunk (Some "QUJD") None);
   clip_issued (render_on "typed") tap_audio;
   clip_issued (render_on "typed") (tap_replay message_with_clip);
   clip_issued (render_on "typed") tap_microphone].

(** The same without a reply of the server and without a report of a
    clip. *)
Definition clip_no_reply : list ClipInput :=
  [clip_delivered Clip.connect; clip_delivered (Clip.connected "abc");
   clip_delivered (Clip.session_joined "abc" None);
   clip_issued (render_on "typed") tap_conversation;
   clip_delivered (Clip.result (final_result "hello"));
   clip_delivered Clip.speechend;
   clip_delivered (Clip.timeout 0);
   clip_delivered Clip.ended;
   clip_delivered Clip.ai_start; clip_delivered (Clip.ai_chunk first_chunk);
   clip_delivered (Clip.clip_resolved {| audio_id := 0; audio_url := "data:a" |});
   clip_issued (render_on "typed") tap_Enter].

(** The microphone is switched off by the user: [micEnabledRef] is false
    and the pending timers are those of [onspeechend]. *)
Definition is_silence_timer (t : nat * (nat * Clip.Timer)) : bool :=
  match snd (snd t) with
  | Clip.silence_send => true
  | _ => false
  end.

Definition Clip_microphone_off (w : Clip.World) : Prop :=
  Clip.micEnabledRef w = false
  /\ forallb is_silence_timer (Clip.timers w) = true.

Definition Clip_is_error (e : Clip.Event) : bool :=
  match e with
  | Clip.error _ => true
  | _ => false
  end.

(** The user stops the microphone, and the conversation goes on. *)
Definition clip_stopped : Clip.World :=
  Clip.handleVoiceInput
    (rerender (render_on "")
       (Clip.trace (Clip.toggleConversationMode
                      (update (render_on "") (setConversationMode false))
                      (Clip.mounted 1))))
    (Clip.toggleConversationMode
       (update (render_on "") (setConversationMode false)) (Clip.mounted 1)).

Definition clip_goes_on : list Clip.Event :=
  [Clip.ended; Clip.speechend; Clip.result (final_result "hello");
   Clip.ai_start; Clip.ai_chunk first_chunk;
   Clip.ai_complete first_chunk (Some "QUJD") None;
   Clip.timeout 0; Clip.timeout 1; Clip.ended].

(** ** The reply as it streams in *)

(** The value of the hook [currentAIMessage] after the setter calls of a
    log, [s] being its value before. *)
Fixpoint currentAIMessage (s : string) (l : list Action) : string :=
  match l with
  | [] => s
  | set_state (setCurrentAIMessage s') :: l' => currentAIMessage s' l'
  | set_state (appendCurrentAIMessage chunk) :: l' =>
      currentAIMessage (s ++ chunk)%string l'
  | _ :: l' => currentAIMessage s l'
  end.

Definition writes_reply (a : Action) : bool :=
  match a with
  | set_state (setCurrentAIMessage _) | set_state (appendCurrentAIMessage _) => true
  | _ => false
  end.

(** The chunks among the events, oldest first. *)
Definition Tts_chunks (es : list Tts.Event) : list string :=
  flat_map (fun e => match e with Tts.ai_chunk chunk => [chunk] | _ => [] end) es.

(** The events that neither open nor close a reply. *)
Definition Tts_within_reply (e : Tts.Event) : bool :=
  match e with
  | Tts.ai_start | Tts.ai_complete _ => false
  | _ => true
  end.

(** A reply in two chunks, with the recogniser and the synthesiser at work
    meanwhile. *)
Definition gravity_chunks : list Tts.Event :=
  [Tts.ai_chunk first_chunk; Tts.result (interim_result "wait");
   Tts.utterance_end; Tts.ai_chunk second_chunk; Tts.ended; Tts.tick 40].

(** ** What is emitted *)

(** A user_message carries a session id and a text that is not blank. *)
Definition well_formed (a : Action) : bool :=
  match a with
  | emit_user_message _ sid message => truthy sid && truthy (trim message)
  | _ => true
  end.

(** ** The timer of the end of speech *)

(** The handles of the pending timers were all given out already. *)
Definition Clip_handles_fresh (w : Clip.World) : Prop :=
  forallb (fun t => Nat.ltb (fst t) (Clip.nextTimer w)) (Clip.timers w) = true.

(** ** The loop of [onresult] *)

(** [results.filter(r => r.isFinal).map(r => r.transcript).join('')] from
    [resultIndex] on, and the same for the interim results. *)
Definition final_transcripts (e : SpeechRecognitionEvent) : string :=
  String.concat ""
    (map transcript (filter isFinal (skipn (resultIndex e) (results e)))).

Definition interim_transcripts (e : SpeechRecognitionEvent) : string :=
  String.concat ""
    (map transcript
       (filter (fun r => negb (isFinal r)) (skipn (resultIndex e) (results e)))).

(** ** The session data of a document *)

(** A render that has just received the session data of a document. *)
Definition render_document_arrived : Render :=
  update render_with_document (setShowChat false).

(** ** The upload of a document *)

(** The JSON body of a reply that the hook takes for a success: the
    request resolved, the status is ok, the body parses and its [success]
    field holds. *)
Definition accepted (o : Js.Outcome Uploader.Response)
    : option Uploader.ServerResult :=
  match o with
  | Js.resolved response =>
      if Uploader.ok response
      then match Uploader.json response with
           | Js.resolved result =>
               if Uploader.success result then Some result else None
           | Js.rejected _ => None
           end
      else None
  | Js.rejected _ => None
  end.

Definition is_setIsUploading (a : Uploader.Action) : bool :=
  match a with
  | Uploader.setIsUploading _ => true
  | _ => false
  end.

Definition is_callback (a : Uploader.Action) : bool :=
  match a with
  | Uploader.onUploadSuccess _ _ _ => true
  | _ => false
  end.

Definition is_request (a : Uploader.Action) : bool :=
  match a with
  | Uploader.fetch_upload_pdf _ _ | Uploader.fetch_start_conversation _ => true
  | _ => false
  end.

(** The text of a document whose pages all load:
    [pages.map(items => items.join(' ') + '\n').join('')]. *)
Definition pages_text (pages : list (list string)) : string :=
  String.concat ""
    (map (fun items => (String.concat " " items ++ Uploader.newline)%string) pages).

Definition loaded (items : list string)
    : Js.Outcome (Js.Outcome (list string)) :=
  Js.resolved (Js.resolved items).

(** A document of two pages, and a server that accepts it. *)
Definition notes_pdf : Uploader.File :=
  {| Uploader.name := "notes.pdf"; Uploader.type := "application/pdf" |}.

Definition two_pages : Uploader.Reading :=
  {| Uploader.arrayBuffer := Js.resolved tt;
     Uploader.document :=
       Js.resolved [loaded ["Gravity"; "pulls."]; loaded ["Planets"; "orbit."]] |}.

Definition reply_ok (result : Uploader.ServerResult) : Uploader.Response :=
  {| Uploader.ok := true; Uploader.status := 200;
     Uploader.text := Js.resolved "";
     Uploader.json := Js.resolved result |}.

Definition uploaded : Uploader.ServerResult :=
  {| Uploader.success := true; Uploader.error := None;
     Uploader.filename := Some "notes.pdf"; Uploader.sessionId := Some "s-1";
     Uploader.reply_message := None |}.

Definition started : Uploader.ServerResult :=
  {| Uploader.success := true; Uploader.error := None;
     Uploader.filename := None; Uploader.sessionId := Some "s-2";
     Uploader.reply_message := Some "Welcome" |}.

Definition server_accepts : Uploader.Env :=
  {| Uploader.reading := two_pages;
     Uploader.upload_response := Js.resolved (reply_ok uploaded);
     Uploader.start_response := Js.resolved (reply_ok started) |}.

(** A server that crashes on the upload. *)
Definition server_crashes : Uploader.Env :=
  {| Uploader.reading := two_pages;
     Uploader.upload_response :=
       Js.resolved
         {| Uploader.ok := false; Uploader.status := 500;
            Uploader.text := Js.resolved "<!DOCTYPE html>";
            Uploader.json := Js.rejected {| Js.message := "Unexpected token" |} |};
     Uploader.start_response := Js.resolved (reply_ok started) |}.

(** ** The sidebar element of the study material *)

Definition loading : ActivePdfDisplay.Action :=
  ActivePdfDisplay.setContent (Some "Loading PDF content...").

(** The reply to /api/pdf-content that the element takes for a success. *)
Definition content_of (response : Js.Outcome ActivePdfDisplay.Response)
    : option ActivePdfDisplay.ContentResult :=
  match response with
  | Js.resolved r =>
      if ActivePdfDisplay.ok r
      then match ActivePdfDisplay.json r with
           | Js.resolved result =>
               if ActivePdfDisplay.success result then Some result else None
           | Js.rejected _ => None
           end
      else None
  | Js.rejected _ => None
  end.

(** The texts that report a failure begin with one of three words. *)
Definition reports_failure (content : option string) : bool :=
  match content with
  | Some s =>
      Js.startsWith s "Error: " || Js.startsWith s "Server Error: "
      || Js.startsWith s "Network Error: "
  | None => false
  end.

(** A parser of error bodies that finds no JSON. *)
Definition no_json (errorText : string) : Js.Outcome (option string) :=
  Js.rejected {| Js.message := "Unexpected token" |}.

Definition long_name : SessionDataType :=
  {| sd_sessionId := "doc-1";
     filename := "Introduction to classical mechanics.pdf";
     initialMessage := "Welcome" |}.

(** ** The chat endpoint *)

Definition allow_origin : string * string := ("Access-Control-Allow-Origin", "*").

Definition system_message (body : ChatApi.Body) : ChatApi.ChatMessage :=
  {| ChatApi.role := "system";
     ChatApi.content := ChatApi.systemPrompt (ChatApi.pdfContext body)
                          (ChatApi.isInitial body) |}.

(** ** A session of the speech-synthesis version *)

(** The render with other session data, a prop that the parent sets. *)
Definition with_sessionData (d : option SessionDataType) (r : Render) : Render :=
  {| messages := messages r; showChat := showChat r; inputText := inputText r;
     isListening := isListening r; isSpeaking := isSpeaking r;
     recognition := recognition r; speechSynthesis := speechSynthesis r;
     socket := socket r; sessionId := sessionId r; isConnected := isConnected r;
     isAIResponding := isAIResponding r; conversationMode := conversationMode r;
     isConversationLocked := isConversationLocked r; audioMode := audioMode r;
     sessionData := d |}.

(** What happens in a session: an event is delivered, a button is pressed,
    or the parent hands over other session data and the effect on them
    runs. *)
Inductive TtsLive :=
| happens (e : Tts.Event)
| pressed (c : TtsCommand)
| handed (d : option SessionDataType).

(** The actions logged between two worlds. *)
Definition Tts_logged (w w' : Tts.World) : list Action :=
  skipn (length (Tts.trace w)) (Tts.trace w').

(** One step of a session, from the current render and world.  A button
    reads the current render.  The handlers of the mount effect read the
    render [r0] that they captured when [stale] holds, and the current
    render otherwise.  The render that follows applies the setter calls
    logged by the step. *)
Definition Tts_live_step (stale : bool) (r0 : Render) (s : Render * Tts.World)
    (i : TtsLive) : Render * Tts.World :=
  let (r, w) := s in
  match i with
  | happens e =>
      let w' := Tts.step (if stale then r0 else r) w e in
      (rerender r (Tts_logged w w'), w')
  | pressed c =>
      let w' := Tts_command r w c in
      (rerender r (Tts_logged w w'), w')
  | handed d =>
      let w' := Tts.sessionData_effect (with_sessionData d r) w in
      (rerender (with_sessionData d r) (Tts_logged w w'), w')
  end.

Definition Tts_live (stale : bool) (r0 : Render) (s : Render * Tts.World)
    (l : list TtsLive) : Render * Tts.World :=
  fold_left (Tts_live_step stale r0) l s.

(** After a manual stop: the server talks, the recogniser reports, a
    document arrives and the buttons are pressed. *)
Definition after_the_stop : list TtsLive :=
  [happens Tts.ended; pressed press_conversation; happens Tts.ai_start;
   happens (Tts.ai_chunk first_chunk); happens (Tts.ai_complete first_chunk);
   handed (Some long_name); pressed press_conversation; pressed press_microphone;
   happens (Tts.timeout 0); handed None; pressed press_conversation].

(** ** Audio output off in the render that the handlers read *)

(** A render with audio output off, conversation mode on and every
    capability present. *)
Definition render_audio_off : Render := update (render_on "") (setAudioMode false).

Definition clip_reply_with_audio : list Clip.Event :=
  [Clip.audio_mode true; Clip.ai_start; Clip.ai_chunk first_chunk;
   Clip.ai_complete first_chunk (Some "QUJD") (Some "audio/wav");
   Clip.clip_ended {| audio_id := 0; audio_url := "data:audio/wav;base64,QUJD" |};
   Clip.audio_mode false; Clip.audio_mode true;
   Clip.ai_complete second_chunk (Some "REVG") None].

Definition tts_reply : list Tts.Event :=
  [Tts.session_joined "abc" (Some [entry "tutor" "Welcome back."]);
   Tts.ai_start; Tts.ai_chunk first_chunk; Tts.ai_chunk second_chunk;
   Tts.ai_complete (first_chunk ++ second_chunk)%string;
   Tts.utterance_end; Tts.utterance_error].

(** ** The reset of the session *)

Definition clears_session (l : list ActivePdfDisplay.Action) : bool :=
  existsb (fun a => match a with
                    | ActivePdfDisplay.setSessionData_null => true
                    | _ => false
                    end) l.

(** The button "Remove & Reset Session" in a session: the sidebar element
    is rendered only with session data; when the click clears them, the
    parent hands the component no session data and the effect runs. *)
Definition Tts_reset_click (stale : bool) (r0 : Render) (confirmed : bool)
    (s : Render * Tts.World) : Render * Tts.World :=
  match sessionData (fst s) with
  | Some d =>
      if clears_session (ActivePdfDisplay.handleResetClick confirmed d)
      then Tts_live_step stale r0 s (handed None)
      else s
  | None => s
  end.

(** A conversation about a document, with one message on screen. *)
Definition render_in_conversation : Render :=
  update render_with_document
    (appendMessage {| id := clock_id 0; text := "Welcome"; sender := ai;
                      timestamp := 0; audioUrl := None |}).

(** ** From the upload to the conversation *)

(** A field that is absent in a reply is [undefined] in the session data.
    The component reads [sessionId] and [initialMessage] only through [||]
    and [&&], for which [undefined] and the empty string are alike. *)
Definition present (o : option string) : string :=
  match o with
  | Some s => s
  | None => ""
  end.

(** The session data that the callback of the upload stores:
    [onUploadSuccess] is [setSessionData] (src/main.tsx). *)
Definition session_data_of (a : Uploader.Action) : option SessionDataType :=
  match a with
  | Uploader.onUploadSuccess sid fname msg =>
      Some {| sd_sessionId := present sid; filename := fname;
              initialMessage := present msg |}
  | _ => None
  end.

(** A file is dropped while no upload is in progress: each call of the
    callback hands its session data to the component. *)
Definition Tts_drop (stale : bool) (r0 : Render) (file : Uploader.File)
    (env : Uploader.Env) (s : Render * Tts.World) : Render * Tts.World :=
  fold_left
    (fun s a =>
       match session_data_of a with
       | Some d => Tts_live_step stale r0 s (handed (Some d))
       | None => s
       end)
    (fst (Uploader.handleFileDrop false (Some file) env)) s.

(** The render of the component before any document and any message. *)
Definition render_empty : Render := update (render_on "") (setConversationMode false).

(** ** The replay of a clip by hand *)

(** The audio elements made so far are older than the next one. *)
Definition Clip_current_is_older (w : Clip.World) : Prop :=
  forall c, Clip.currentAudioRef w = Some c -> audio_id c < Clip.nextAudio w.

(** ** The component as it is mounted *)

(** The first render of the speech-synthesis version: every hook holds the
    initial value given to [useState] and the parent holds no session data
    yet (src/main.tsx).  The handlers of the recogniser and of the socket
    are installed once, by the effect with the empty dependency list, so
    they are closures of this render for the life of the component. *)
Definition Tts_first_render : Render :=
  {| messages := []; showChat := false;
     inputText := ""; isListening := false; isSpeaking := false;
     recognition := false; speechSynthesis := false; socket := None;
     sessionId := ""; isConnected := false; isAIResponding := false;
     conversationMode := true; isConversationLocked := false;
     audioMode := true; sessionData := None |}.

(** The first render of the audio-clip version, whose [audioMode] starts as
    [false]; that version has no synthesiser state, no lock flag and no
    session data. *)
Definition Clip_first_render : Render :=
  {| messages := []; showChat := false;
     inputText := ""; isListening := false; isSpeaking := false;
     recognition := false; speechSynthesis := false; socket := None;
     sessionId := ""; isConnected := false; isAIResponding := false;
     conversationMode := true; isConversationLocked := false;
     audioMode := false; sessionData := None |}.

(** The render that follows the mount effect: [setRecognition] and
    [setSpeechSynthesis] were called when the browser has the capability,
    and [setSocket] with the new socket. *)
Definition Tts_render_mounted (has_recognition has_synthesis : bool) (sock : Socket)
    : Render :=
  {| messages := []; showChat := false;
     inputText := ""; isListening := false; isSpeaking := false;
     recognition := has_recognition; speechSynthesis := has_synthesis;
     socket := Some sock;
     sessionId := ""; isConnected := false; isAIResponding := false;
     conversationMode := true; isConversationLocked := false;
     audioMode := true; sessionData := None |}.

Definition Clip_render_mounted (has_recognition : bool) (sock : Socket) : Render :=
  {| messages := []; showChat := false;
     inputText := ""; isListening := false; isSpeaking := false;
     recognition := has_recognition; speechSynthesis := false;
     socket := Some sock;
     sessionId := ""; isConnected := false; isAIResponding := false;
     conversationMode := true; isConversationLocked := false;
     audioMode := false; sessionData := None |}.

(** One step of the mounted speech-synthesis version.  An event runs its
    handler on the first render, a button runs its handler on the current
    render, and the effect on the session data runs in the render that
    follows, as it does whenever one of its dependencies has changed; when
    none has, its run changes nothing. *)
Definition Tts_mounted_step (s : Render * Tts.World) (i : TtsLive)
    : Render * Tts.World :=
  Tts_live_step true Tts_first_render
    (Tts_live_step true Tts_first_render s i) (pressed session_data_changed).

Definition Tts_mounted_run (s : Render * Tts.World) (l : list TtsLive)
    : Render * Tts.World :=
  fold_left Tts_mounted_step l s.

(** A session of the mounted component, from the mount on. *)
Definition Tts_session (has_recognition has_synthesis : bool) (l : list TtsLive)
    : Render * Tts.World :=
  Tts_mounted_run (Tts_render_mounted has_recognition has_synthesis 1, Tts.mounted 1) l.

(** The same for the audio-clip version: the effect on [audioMode] runs in
    the render that follows a step when the step has changed [audioMode]. *)
Inductive ClipLive :=
| clip_happens (e : Clip.Event)
| clip_pressed (c : ClipCommand).

Definition Clip_logged (w w' : Clip.World) : list Action :=
  skipn (length (Clip.trace w)) (Clip.trace w').

Definition Clip_mounted_step (s : Render * Clip.World) (i : ClipLive)
    : Render * Clip.World :=
  let (r, w) := s in
  let w1 :=
    match i with
    | clip_happens e => Clip.step Clip_first_render w e
    | clip_pressed c => Clip_command r w c
    end in
  let r1 := rerender r (Clip_logged w w1) in
  if Bool.eqb (audioMode r1) (audioMode r) then (r1, w1)
  else
    let w2 := Clip.audioMode_effect (audioMode r1) w1 in
    (rerender r1 (Clip_logged w1 w2), w2).

Definition Clip_mounted_run (s : Render * Clip.World) (l : list ClipLive)
    : Render * Clip.World :=
  fold_left Clip_mounted_step l s.

Definition Clip_session (has_recognition : bool) (l : list ClipLive)
    : Render * Clip.World :=
  Clip_mounted_run (Clip_render_mounted has_recognition 1, Clip.mounted 1) l.

(** The utterance that [handleSpeak] makes of a text. *)
Definition replayed (t : string) : Tts.Utterance :=
  {| Tts.utterance_text := t; Tts.origin := Tts.from_replay |}.

(** The session data of an uploaded document. *)
Definition notes : SessionDataType :=
  {| sd_sessionId := "doc-1"; filename := "notes.pdf"; initialMessage := "Welcome" |}.

(** Calls of the setters that switch listening on, and that set the lock. *)
Definition turns_listening_on (a : Action) : bool :=
  match a with set_state (setIsListening b) => b | _ => false end.

Definition sets_lock (a : Action) : bool :=
  match a with set_state (setIsConversationLocked b) => b | _ => false end.

(** A history of two entries. *)
Definition two_entries : list HistoryEntry := [entry "user" "Hi"; entry "tutor" "Hello"].

(** What can follow an error of the recogniser: more errors, the end of
    the recogniser, timers that fire, a reply, the microphone button and a
    document. *)
Definition after_the_error : list TtsLive :=
  [happens (Tts.error "no-speech"); happens Tts.ended; happens (Tts.timeout 0);
   happens Tts.ai_start; happens (Tts.ai_complete "Done.");
   pressed press_microphone; handed (Some notes); happens (Tts.timeout 1)].

(** A reply with its clip arrives in the audio-clip version, the user
    turns audio output on and replays the reply. *)
Definition clip_replay_begun : list ClipLive :=
  [clip_happens Clip.connect; clip_happens (Clip.connected "abc");
   clip_happens (Clip.session_joined "abc" None);
   clip_happens Clip.ai_start; clip_happens (Clip.ai_chunk first_chunk);
   clip_happens (Clip.ai_complete first_chunk (Some "QUJD") None);
   clip_pressed tap_audio;
   clip_pressed (tap_replay message_with_clip)].

(** The clip of that replay. *)
Definition replayed_clip : Audio :=
  {| audio_id := 0; audio_url := "data:audio/mpeg;base64,QUJD" |}.

(** A document arrives in the speech-synthesis version, and the user
    replays its first message, which begins to sound. *)
Definition tts_replay_begun : list TtsLive :=
  [happens Tts.connect; happens (Tts.connected "abc");
   happens (Tts.session_joined "abc" None);
   handed (Some notes); pressed (press_replay "Welcome"); happens Tts.utterance_start].

(** Two messages are on screen in the speech-synthesis version and the
    user replays one, then the other, before the synthesiser has reported
    the start of the first. *)
Definition tts_two_messages : list TtsLive :=
  [happens Tts.connect; happens (Tts.connected "abc");
   happens (Tts.session_joined "abc" None);
   handed (Some notes);
   happens Tts.ai_start; happens (Tts.ai_chunk first_chunk);
   happens (Tts.ai_complete first_chunk)].

Definition is_cancel (a : Action) : bool :=
  match a with synth_cancel => true | _ => false end.

(** The speech queue is empty, and when [isSpeaking] holds in the render
    an utterance is with the synthesiser. *)
Definition Tts_speaking_means_utterance (s : Render * Tts.World) : Prop :=
  Tts.speechQueueRef (snd s) = []
  /\ (isSpeaking (fst s) = true -> Tts.synth (snd s) <> []).

(** ** Proof steps *)

(** Closes a goal [Tts_adds P w w'] where [w'] is built from [w] by record
    updates and logged actions under conditionals. *)
Ltac tts_adds :=
  unfold Tts_adds;
  repeat (tts_red;
          match goal with
          | |- context [if ?c then _ else _] => destruct c
          | |- context [match ?x with _ => _ end] => destruct x
          end);
  tts_red; rewrite <- ?app_assoc;
  first [ exists []; split; [symmetry; apply app_nil_r | reflexivity]
        | eexists; split; [reflexivity | reflexivity] ].

(** Discharges [footprint a = true -> P a = true] by cases on the action. *)
Ltac by_footprint :=
  let a := fresh "a" in
  intros a; destruct a as [| | | | | | | | | | |[]]; cbn;
  try discriminate; try reflexivity;
  repeat match goal with b : bool |- _ => destruct b end;
  cbn; intros; try discriminate; try reflexivity; auto.

Ltac clip_adds :=
  unfold Clip_adds;
  repeat (clip_red;
          match goal with
          | |- context [if ?c then _ else _] => destruct c
          | |- context [match ?x with _ => _ end] => destruct x
          end);
  clip_red; rewrite <- ?app_assoc;
  first [ exists []; split; [symmetry; apply app_nil_r | reflexivity]
        | eexists; split; [reflexivity | reflexivity] ].

(** Cases on everything the hook awaits. *)
Ltac uploader_cases env silent :=
  let rd := fresh "rd" in
  let up := fresh "up" in
  let st := fresh "st" in
  destruct env as [rd up st];
  unfold Uploader.handleFileDrop; cbn [Uploader.reading Uploader.upload_response
                                         Uploader.start_response];
  let H := fresh "H" in
  pose proof (silent rd) as H;
  let l := fresh "l" in
  let t := fresh "pdfText" in
  destruct (Uploader.extractPdfText rd) as [l [t|?]]; cbn [fst] in H; subst l;
  [ destruct up as [[[] ? [?|?] [[[] ? ? ? ?]|?]]|?];
    destruct st as [[[] ? [?|?] [[[] ? ? ? ?]|?]]|?] | ];
  cbn.

(** * Properties *)

(** ** Logs and strings *)

Lemma submissions_app (l l' : list Action) :
  submissions (l ++ l') = submissions l ++ submissions l'.
Proof.
  induction l as [|a l IH]; simpl; [reflexivity|].
  destruct a; simpl; rewrite IH; reflexivity.
Qed.

Lemma spoken_app (l l' : list Action) :
  spoken (l ++ l') = spoken l ++ spoken l'.
Proof.
  induction l as [|a l IH]; simpl; [reflexivity|].
  destruct a; simpl; rewrite IH; reflexivity.
Qed.

Lemma played_app (l l' : list Action) :
  played (l ++ l') = played l ++ played l'.
Proof.
  induction l as [|a l IH]; simpl; [reflexivity|].
  destruct a; simpl; rewrite IH; reflexivity.
Qed.

Lemma starts_app (l l' : list Action) :
  starts (l ++ l') = starts l + starts l'.
Proof.
  induction l as [|a l IH]; simpl; [reflexivity|].
  destruct a; simpl; rewrite IH; reflexivity.
Qed.

Lemma truthy_trim (s : string) : truthy (trim s) = true -> truthy s = true.
Proof. destruct s; simpl; [discriminate | reflexivity]. Qed.

Lemma truthy_empty (s : string) : truthy s = false <-> s = "".
Proof. destruct s; simpl; split; congruence. Qed.

Lemma or_else_truthy (a b : string) : truthy a = true -> or_else a b = a.
Proof. intros H; unfold or_else; rewrite H; reflexivity. Qed.

(** ** Submission without a session *)

(** C9: a submission attempted while there is no socket or no session id
    is refused with the "not connected" alert: the alert is the one action
    performed, so no user_message is emitted, and the attempt is not
    dropped silently.  This holds for any text, in both versions. *)
Theorem C9_submission_without_session_is_refused :
  forall (r : Render) (messageText : option string),
    (forall w : Tts.World,
        Tts.activeSocket r w = None \/ Tts.activeSessionId r w = "" ->
        Tts.handleSendMessage r messageText w = Tts.act not_connected_notice w
        /\ submissions (Tts.trace (Tts.handleSendMessage r messageText w))
           = submissions (Tts.trace w))
    /\
    (forall w : Clip.World,
        Clip.activeSocket r w = None \/ Clip.activeSessionId r w = "" ->
        Clip.handleSendMessage r messageText w = Clip.act not_connected_notice w
        /\ submissions (Clip.trace (Clip.handleSendMessage r messageText w))
           = submissions (Clip.trace w)).
Proof.
  intros r messageText; split; intros w H.
  - assert (E : Tts.handleSendMessage r messageText w = Tts.act not_connected_notice w).
    { unfold Tts.handleSendMessage.
      destruct H as [H | H]; rewrite H.
      - reflexivity.
      - destruct (Tts.activeSocket r w); [|reflexivity].
        rewrite andb_false_r; reflexivity. }
    split; [exact E|].
    rewrite E; simpl. rewrite submissions_app; simpl. apply app_nil_r.
  - assert (E : Clip.handleSendMessage r messageText w = Clip.act not_connected_notice w).
    { unfold Clip.handleSendMessage.
      destruct H as [H | H]; rewrite H.
      - reflexivity.
      - destruct (Clip.activeSocket r w); [|reflexivity].
        rewrite andb_false_r; reflexivity. }
    split; [exact E|].
    rewrite E; simpl. rewrite submissions_app; simpl. apply app_nil_r.
Qed.

Lemma C9_witness :
  Tts.handleSendMessage (render_on "") (Some "hello") (Tts.mounted 1)
  = Tts.act not_connected_notice (Tts.mounted 1)
  /\ Clip.handleSendMessage (render_on "") (Some "hello") (Clip.mounted 1)
     = Clip.act not_connected_notice (Clip.mounted 1).
Proof.
  split.
  - apply (proj1 (C9_submission_without_session_is_refused (render_on "") (Some "hello"))).
    right; reflexivity.
  - apply (proj2 (C9_submission_without_session_is_refused (render_on "") (Some "hello"))).
    right; reflexivity.
Defined.

(** ** The messages of a history *)

Lemma Tts_handed_over_set (u : Update) (w : Tts.World) :
  handed_over (Tts.set u w) = handed_over w.
Proof.
  unfold handed_over; simpl. rewrite spoken_app; simpl. now rewrite app_nil_r.
Qed.

Lemma Tts_speakChunk_handed_over (r : Render) (t : string) (w : Tts.World) :
  handed_over (Tts.speakChunk r t w)
  = handed_over w ++ (if speechSynthesis r && truthy (trim t) then [t] else []).
Proof.
  unfold Tts.speakChunk, handed_over.
  destruct (speechSynthesis r) eqn:Hs; simpl; [|now rewrite !app_nil_r].
  destruct (truthy (trim t)); simpl; [|now rewrite !app_nil_r].
  destruct (Tts.isSpeakingRef w); simpl.
  - now rewrite app_assoc.
  - unfold Tts.processNextSpeech; simpl.
    destruct (Tts.speechQueueRef w) as [|x q]; simpl; rewrite Hs; simpl;
      rewrite !spoken_app; simpl; rewrite <- !app_assoc; reflexivity.
Qed.

Lemma loadedMessages_text (now idx : nat) (h : list HistoryEntry) :
  map text (loadedMessages now idx h) = map content h.
Proof.
  revert idx; induction h as [|m h IH]; intros idx; simpl; [reflexivity|].
  now rewrite IH.
Qed.

Lemma loadedMessages_id (now idx : nat) (h : list HistoryEntry) :
  map id (loadedMessages now idx h) = map history_id (seq idx (length h)).
Proof.
  revert idx; induction h as [|m h IH]; intros idx; simpl; [reflexivity|].
  now rewrite IH.
Qed.

Lemma loadedMessages_sender (now idx : nat) (h : list HistoryEntry) :
  map sender (loadedMessages now idx h)
  = map (fun m => if String.eqb (role m) "user" then user else ai) h.
Proof.
  revert idx; induction h as [|m h IH]; intros idx; simpl; [reflexivity|].
  now rewrite IH.
Qed.

(** [lastAIMessage] is the last entry of the history whose role is
    'tutor'. *)
Lemma lastAIMessage_is_last (h : list HistoryEntry) (msg : HistoryEntry) :
  lastAIMessage h = Some msg ->
  exists before after,
    h = before ++ msg :: after
    /\ role msg = "tutor"
    /\ Forall (fun m => role m <> "tutor") after.
Proof.
  unfold lastAIMessage.
  induction h as [|m h IH] using rev_ind; simpl; [discriminate|].
  rewrite rev_app_distr; simpl.
  destruct (String.eqb (role m) "tutor") eqn:E.
  - intros H; injection H as <-.
    exists h, []. repeat split; [now apply String.eqb_eq | constructor].
  - intros H. destruct (IH H) as (b & a & -> & Hr & Ha).
    exists b, (a ++ [m]). repeat split.
    + now rewrite <- app_assoc.
    + exact Hr.
    + apply Forall_app; split; [exact Ha|].
      constructor; [|constructor]. now apply String.eqb_neq.
Qed.

(** ** Completion and failure of a playback segment *)

Lemma Tts_done_next (r : Render) (failed : bool) (w : Tts.World)
    (t x : string) (q : list string) :
  speechSynthesis r = true ->
  Tts.synth w = [queued t] ->
  Tts.speechQueueRef w = x :: q ->
  Tts.synth (Tts.utterance_done r failed w) = [queued x]
  /\ Tts.speechQueueRef (Tts.utterance_done r failed w) = q
  /\ Tts.isSpeakingRef (Tts.utterance_done r failed w) = true
  /\ Tts.trace (Tts.utterance_done r failed w)
     = Tts.trace w ++ [set_state (setIsSpeaking true); speak x]
  /\ Tts.heard (Tts.utterance_done r failed w)
     = Tts.heard w ++ [Finished t; Started x].
Proof.
  intros Hs Hy Hq. unfold Tts.utterance_done. rewrite Hy. simpl.
  assert (E : Tts.processNextSpeech r
                (Tts.set_heard (Tts.heard w ++ [Finished t]) (Tts.set_synth [] w))
              = Tts.synth_speak (queued x)
                  (Tts.set_speechQueueRef q
                     (Tts.set (setIsSpeaking true)
                        (Tts.set_isSpeakingRef true
                           (Tts.set_heard (Tts.heard w ++ [Finished t])
                              (Tts.set_synth [] w)))))).
  { unfold Tts.processNextSpeech. simpl. rewrite Hq, Hs. reflexivity. }
  unfold Tts.utterance_onerror, Tts.utterance_onend.
  destruct failed; rewrite E; simpl; rewrite <- !app_assoc; repeat split.
Qed.

Lemma Tts_done_last (r : Render) (failed : bool) (w : Tts.World) (t : string) :
  Tts.synth w = [queued t] ->
  Tts.speechQueueRef w = [] ->
  Tts.synth (Tts.utterance_done r failed w) = []
  /\ Tts.speechQueueRef (Tts.utterance_done r failed w) = []
  /\ Tts.isSpeakingRef (Tts.utterance_done r failed w) = false
  /\ Tts.trace (Tts.utterance_done r failed w)
     = Tts.trace w ++ [set_state (setIsSpeaking false)]
  /\ Tts.heard (Tts.utterance_done r failed w) = Tts.heard w ++ [Finished t].
Proof.
  intros Hy Hq. unfold Tts.utterance_done. rewrite Hy. simpl.
  unfold Tts.utterance_onerror, Tts.utterance_onend, Tts.processNextSpeech.
  destruct failed; simpl; rewrite Hq; simpl; repeat split; exact Hq.
Qed.

(** However the segments end, the queue of the speech-synthesis version
    drains: one report per segment empties it. *)
Lemma Tts_queue_drains (r : Render) (q : list string) :
  speechSynthesis r = true ->
  forall (w : Tts.World) (t : string) (reports : list bool),
    Tts.synth w = [queued t] ->
    Tts.speechQueueRef w = q ->
    length reports = S (length q) ->
    let w' := fold_left (fun w failed => Tts.utterance_done r failed w) reports w in
    Tts.synth w' = []
    /\ Tts.speechQueueRef w' = []
    /\ Tts.isSpeakingRef w' = false
    /\ spoken (Tts.trace w') = spoken (Tts.trace w) ++ q.
Proof.
  intros Hs. induction q as [|x q IH]; intros w t reports Hy Hq Hlen.
  - destruct reports as [|f [|? ?]]; try discriminate Hlen. simpl.
    destruct (Tts_done_last r f w t Hy Hq) as (H1 & H2 & H3 & H4 & _).
    rewrite H4, spoken_app. simpl. now rewrite app_nil_r.
  - destruct reports as [|f reports]; [discriminate Hlen|].
    injection Hlen as Hlen. simpl fold_left.
    destruct (Tts_done_next r f w t x q Hs Hy Hq) as (H1 & H2 & H3 & H4 & _).
    destruct (IH (Tts.utterance_done r f w) x reports H1 H2 Hlen) as (K1 & K2 & K3 & K4).
    cbv zeta. repeat split; try assumption.
    rewrite K4, H4, spoken_app. simpl. now rewrite <- app_assoc.
Qed.

Lemma audio_eqb_refl (a : Audio) : audio_eqb a a = true.
Proof. unfold audio_eqb. now rewrite Nat.eqb_refl, String.eqb_refl. Qed.

Lemma audio_eqb_eq (a b : Audio) : audio_eqb a b = true <-> a = b.
Proof.
  split.
  - unfold audio_eqb. intros H. apply andb_true_iff in H as [H1 H2].
    apply Nat.eqb_eq in H1. apply String.eqb_eq in H2.
    destruct a, b; simpl in *; congruence.
  - intros ->. apply audio_eqb_refl.
Qed.

Lemma Clip_silence_current (a : Audio) (w : Clip.World) :
  Clip.playing w = [a] ->
  Clip.is_playing a w = true /\ Clip.remove_audio a (Clip.playing w) = [].
Proof.
  intros H. unfold Clip.is_playing. rewrite H. simpl.
  now rewrite audio_eqb_refl.
Qed.

Lemma Clip_playNextAudio_start (w : Clip.World) (url : string) (q : list string) :
  Clip.audioModeRef w = true ->
  Clip.currentAudioRef w = None ->
  Clip.audioQueueRef w = url :: q ->
  truthy url = true ->
  Clip.playNextAudio w
  = Clip.play {| audio_id := Clip.nextAudio w; audio_url := url |}
      (Clip.set_currentAudioRef (Some {| audio_id := Clip.nextAudio w; audio_url := url |})
         (Clip.set_nextAudio (S (Clip.nextAudio w)) (Clip.set_audioQueueRef q w))).
Proof.
  intros Hm Hc Hq Hu. unfold Clip.playNextAudio. rewrite Hm, Hc, Hq, Hu. reflexivity.
Qed.

Lemma Clip_playNextAudio_idle (w : Clip.World) :
  Clip.audioModeRef w = true ->
  Clip.currentAudioRef w = None ->
  Clip.audioQueueRef w = [] ->
  Clip.playNextAudio w = Clip.set (setIsSpeaking false) w.
Proof.
  intros Hm Hc Hq. unfold Clip.playNextAudio. rewrite Hm, Hc, Hq. reflexivity.
Qed.

Lemma Clip_playNextAudio_off (w : Clip.World) :
  Clip.audioModeRef w = false ->
  Clip.playNextAudio w = w.
Proof. intros Hm. unfold Clip.playNextAudio. now rewrite Hm. Qed.

Lemma Clip_playNextAudio_busy (w : Clip.World) (a : Audio) :
  Clip.currentAudioRef w = Some a ->
  Clip.playNextAudio w = w.
Proof.
  intros Hc. unfold Clip.playNextAudio. rewrite Hc.
  destruct (negb (Clip.audioModeRef w)); reflexivity.
Qed.

Lemma Clip_handleComplete_next (a : Audio) (w : Clip.World) (url : string)
    (q : list string) :
  Clip.audioModeRef w = true ->
  Clip.currentAudioRef w = Some a ->
  Clip.audioQueueRef w = url :: q ->
  truthy url = true ->
  Clip.handleComplete a w
  = Clip.play {| audio_id := Clip.nextAudio w; audio_url := url |}
      (Clip.set_currentAudioRef (Some {| audio_id := Clip.nextAudio w; audio_url := url |})
         (Clip.set_nextAudio (S (Clip.nextAudio w))
            (Clip.set_audioQueueRef q (Clip.set_currentAudioRef None w)))).
Proof.
  intros Hm Hc Hq Hu. unfold Clip.handleComplete. rewrite Hc, audio_eqb_refl.
  change (Clip.audioQueueRef (Clip.set_currentAudioRef None w))
    with (Clip.audioQueueRef w).
  rewrite Hq.
  apply (Clip_playNextAudio_start (Clip.set_currentAudioRef None w) url q);
    [exact Hm | reflexivity | exact Hq | exact Hu].
Qed.

Lemma Clip_handleComplete_last (a : Audio) (w : Clip.World) :
  Clip.audioModeRef w = true ->
  Clip.currentAudioRef w = Some a ->
  Clip.audioQueueRef w = [] ->
  Clip.handleComplete a w
  = Clip.set (setIsSpeaking false)
      (Clip.set (setIsSpeaking false) (Clip.set_currentAudioRef None w)).
Proof.
  intros Hm Hc Hq. unfold Clip.handleComplete. rewrite Hc, audio_eqb_refl.
  change (Clip.audioQueueRef (Clip.set_currentAudioRef None w))
    with (Clip.audioQueueRef w).
  rewrite Hq.
  apply (Clip_playNextAudio_idle
           (Clip.set (setIsSpeaking false) (Clip.set_currentAudioRef None w)));
    [exact Hm | reflexivity | exact Hq].
Qed.

Lemma Clip_audio_done_current (how : Clip.Completion) (a : Audio) (w : Clip.World) :
  Clip.playing w = [a] ->
  Clip.audio_done how a w
  = Clip.handleComplete a
      (Clip.set_heard (Clip.heard w ++ [Finished a]) (Clip.set_playing [] w)).
Proof.
  intros Hp. destruct (Clip_silence_current a w Hp) as [E1 E2].
  unfold Clip.audio_done. rewrite E1, E2. destruct how; reflexivity.
Qed.

Lemma Clip_done_next (how : Clip.Completion) (a : Audio) (w : Clip.World)
    (url : string) (q : list string) :
  Clip.audioModeRef w = true ->
  Clip.currentAudioRef w = Some a ->
  Clip.playing w = [a] ->
  Clip.audioQueueRef w = url :: q ->
  truthy url = true ->
  let b := {| audio_id := Clip.nextAudio w; audio_url := url |} in
  Clip.currentAudioRef (Clip.audio_done how a w) = Some b
  /\ Clip.playing (Clip.audio_done how a w) = [b]
  /\ Clip.audioQueueRef (Clip.audio_done how a w) = q
  /\ Clip.audioModeRef (Clip.audio_done how a w) = true
  /\ Clip.trace (Clip.audio_done how a w) = Clip.trace w ++ [audio_play b]
  /\ Clip.heard (Clip.audio_done how a w) = Clip.heard w ++ [Finished a; Started b].
Proof.
  intros Hm Hc Hp Hq Hu b.
  rewrite (Clip_audio_done_current how a w Hp).
  rewrite (Clip_handleComplete_next a
             (Clip.set_heard (Clip.heard w ++ [Finished a]) (Clip.set_playing [] w))
             url q Hm Hc Hq Hu).
  unfold Clip.play. clip_red. rewrite <- app_assoc. repeat split. exact Hm.
Qed.

Lemma Clip_done_last (how : Clip.Completion) (a : Audio) (w : Clip.World) :
  Clip.audioModeRef w = true ->
  Clip.currentAudioRef w = Some a ->
  Clip.playing w = [a] ->
  Clip.audioQueueRef w = [] ->
  Clip.currentAudioRef (Clip.audio_done how a w) = None
  /\ Clip.playing (Clip.audio_done how a w) = []
  /\ Clip.audioQueueRef (Clip.audio_done how a w) = []
  /\ Clip.audioModeRef (Clip.audio_done how a w) = true
  /\ Clip.trace (Clip.audio_done how a w)
     = Clip.trace w ++ [set_state (setIsSpeaking false); set_state (setIsSpeaking false)]
  /\ Clip.heard (Clip.audio_done how a w) = Clip.heard w ++ [Finished a].
Proof.
  intros Hm Hc Hp Hq.
  rewrite (Clip_audio_done_current how a w Hp).
  rewrite (Clip_handleComplete_last a
             (Clip.set_heard (Clip.heard w ++ [Finished a]) (Clip.set_playing [] w))
             Hm Hc Hq).
  clip_red. rewrite <- app_assoc. repeat split; assumption.
Qed.

(** However the clips end, the queue of the audio-clip version drains while
    audio output is on: one report per clip empties it. *)
Lemma Clip_queue_drains (q : list string) :
  Forall (fun url => truthy url = true) q ->
  forall (w : Clip.World) (a : Audio) (reports : list Clip.Completion),
    Clip.audioModeRef w = true ->
    Clip.currentAudioRef w = Some a ->
    Clip.playing w = [a] ->
    Clip.audioQueueRef w = q ->
    length reports = S (length q) ->
    let w' := fold_left finish_current reports w in
    Clip.currentAudioRef w' = None
    /\ Clip.playing w' = []
    /\ Clip.audioQueueRef w' = []
    /\ map audio_url (played (Clip.trace w')) = map audio_url (played (Clip.trace w)) ++ q.
Proof.
  induction q as [|url q IH]; intros Hq w a reports Hm Hc Hp Hw Hlen.
  - destruct reports as [|f [|? ?]]; try discriminate Hlen. simpl.
    unfold finish_current. rewrite Hc.
    destruct (Clip_done_last f a w Hm Hc Hp Hw) as (H1 & H2 & H3 & _ & H5 & _).
    rewrite H5, played_app. simpl. now rewrite !app_nil_r.
  - destruct reports as [|f reports]; [discriminate Hlen|].
    injection Hlen as Hlen. simpl fold_left.
    inversion Hq as [|? ? Hu Hq']; subst.
    unfold finish_current at 2. rewrite Hc.
    destruct (Clip_done_next f a w url q Hm Hc Hp Hw Hu) as (H1 & H2 & H3 & H4 & H5 & _).
    destruct (IH Hq' (Clip.audio_done f a w) _ reports H4 H1 H2 H3 Hlen)
      as (K1 & K2 & K3 & K4).
    cbv zeta. repeat split; try assumption.
    rewrite K4, H5, played_app. simpl. rewrite map_app. simpl.
    now rewrite <- app_assoc.
Qed.

(** C8: a playback segment that fails is treated as one that ended.  In
    both versions the report of an error leaves the same world as the
    report of a normal end; after it the next queued segment is in flight,
    or, when the queue is empty, nothing is in flight and the speaking
    state is cleared; and a queue whose segments all fail still drains, one
    report per segment.  (In the audio-clip version: while audio output is
    on.) *)
Theorem C8_failed_segment_does_not_stall :
  (forall (r : Render) (w : Tts.World),
      Tts.utterance_done r true w = Tts.utterance_done r false w)
  /\ (forall (a : Audio) (w : Clip.World),
        Clip.audio_done Clip.by_error a w = Clip.audio_done Clip.by_end a w
        /\ Clip.audio_done Clip.by_rejection a w = Clip.audio_done Clip.by_end a w)
  /\ (forall (r : Render) (w : Tts.World) (t : string),
        speechSynthesis r = true ->
        Tts.synth w = [queued t] ->
        match Tts.speechQueueRef w with
        | x :: q =>
            Tts.synth (Tts.utterance_done r true w) = [queued x]
            /\ Tts.speechQueueRef (Tts.utterance_done r true w) = q
            /\ Tts.isSpeakingRef (Tts.utterance_done r true w) = true
            /\ Tts.trace (Tts.utterance_done r true w)
               = Tts.trace w ++ [set_state (setIsSpeaking true); speak x]
        | [] =>
            Tts.synth (Tts.utterance_done r true w) = []
            /\ Tts.isSpeakingRef (Tts.utterance_done r true w) = false
            /\ Tts.trace (Tts.utterance_done r true w)
               = Tts.trace w ++ [set_state (setIsSpeaking false)]
        end)
  /\ (forall (how : Clip.Completion) (a : Audio) (w : Clip.World),
        Clip.audioModeRef w = true ->
        Clip.currentAudioRef w = Some a ->
        Clip.playing w = [a] ->
        match Clip.audioQueueRef w with
        | url :: q =>
            truthy url = true ->
            let b := {| audio_id := Clip.nextAudio w; audio_url := url |} in
            Clip.currentAudioRef (Clip.audio_done how a w) = Some b
            /\ Clip.playing (Clip.audio_done how a w) = [b]
            /\ Clip.audioQueueRef (Clip.audio_done how a w) = q
            /\ Clip.trace (Clip.audio_done how a w) = Clip.trace w ++ [audio_play b]
        | [] =>
            Clip.currentAudioRef (Clip.audio_done how a w) = None
            /\ Clip.playing (Clip.audio_done how a w) = []
            /\ Clip.trace (Clip.audio_done how a w)
               = Clip.trace w ++ [set_state (setIsSpeaking false);
                                  set_state (setIsSpeaking false)]
        end)
  /\ (forall (r : Render) (w : Tts.World) (t : string) (reports : list bool),
        speechSynthesis r = true ->
        Tts.synth w = [queued t] ->
        length reports = S (length (Tts.speechQueueRef w)) ->
        Tts.synth (fold_left (fun w failed => Tts.utterance_done r failed w) reports w) = []
        /\ Tts.speechQueueRef
             (fold_left (fun w failed => Tts.utterance_done r failed w) reports w) = []
        /\ Tts.isSpeakingRef
             (fold_left (fun w failed => Tts.utterance_done r failed w) reports w) = false
        /\ spoken (Tts.trace
                     (fold_left (fun w failed => Tts.utterance_done r failed w) reports w))
           = spoken (Tts.trace w) ++ Tts.speechQueueRef w)
  /\ (forall (w : Clip.World) (a : Audio) (reports : list Clip.Completion),
        Clip.audioModeRef w = true ->
        Clip.currentAudioRef w = Some a ->
        Clip.playing w = [a] ->
        Forall (fun url => truthy url = true) (Clip.audioQueueRef w) ->
        length reports = S (length (Clip.audioQueueRef w)) ->
        Clip.currentAudioRef (fold_left finish_current reports w) = None
        /\ Clip.playing (fold_left finish_current reports w) = []
        /\ Clip.audioQueueRef (fold_left finish_current reports w) = []
        /\ map audio_url (played (Clip.trace (fold_left finish_current reports w)))
           = map audio_url (played (Clip.trace w)) ++ Clip.audioQueueRef w).
Proof.
  split; [|split; [|split; [|split; [|split]]]].
  - intros r w. reflexivity.
  - intros a w. split; reflexivity.
  - intros r w t Hs Hy. destruct (Tts.speechQueueRef w) as [|x q] eqn:Hq.
    + destruct (Tts_done_last r true w t Hy Hq) as (H1 & _ & H3 & H4 & _). auto.
    + destruct (Tts_done_next r true w t x q Hs Hy Hq) as (H1 & H2 & H3 & H4 & _). auto.
  - intros how a w Hm Hc Hp. destruct (Clip.audioQueueRef w) as [|url q] eqn:Hq.
    + destruct (Clip_done_last how a w Hm Hc Hp Hq) as (H1 & H2 & _ & _ & H5 & _). auto.
    + intros Hu b.
      destruct (Clip_done_next how a w url q Hm Hc Hp Hq Hu) as (H1 & H2 & H3 & _ & H5 & _).
      auto.
  - intros r w t reports Hs Hy Hlen.
    exact (Tts_queue_drains r (Tts.speechQueueRef w) Hs w t reports Hy eq_refl Hlen).
  - intros w a reports Hm Hc Hp Hq Hlen.
    exact (Clip_queue_drains (Clip.audioQueueRef w) Hq w a reports Hm Hc Hp eq_refl Hlen).
Qed.

Lemma C8_witness :
  spoken (Tts.trace
            (fold_left (fun w failed => Tts.utterance_done (render_on "") failed w)
               [true; true; true] world_speaking))
  = ["One."; "Two."; "Three."]
  /\ Tts.isSpeakingRef
       (fold_left (fun w failed => Tts.utterance_done (render_on "") failed w)
          [true; true; true] world_speaking) = false
  /\ map audio_url
       (played (Clip.trace
                  (fold_left finish_current
                     [Clip.by_error; Clip.by_rejection; Clip.by_error] clips_playing)))
     = ["data:a"; "data:b"; "data:c"].
Proof.
  destruct C8_failed_segment_does_not_stall as (_ & _ & _ & _ & HT & HC).
  destruct (HT (render_on "") world_speaking "One." [true; true; true]
              eq_refl eq_refl eq_refl) as (_ & _ & H3 & H4).
  destruct (HC clips_playing {| audio_id := 0; audio_url := "data:a" |}
              [Clip.by_error; Clip.by_rejection; Clip.by_error]
              eq_refl eq_refl eq_refl) as (_ & _ & _ & H).
  - repeat constructor.
  - reflexivity.
  - split; [exact H4 | split; [exact H3 | exact H]].
Defined.

(** ** Submission after a disconnect *)

(** [handleSendMessage] does not read [isConnected]: with a socket object,
    a session id and a text that is not blank it emits, connected or not. *)
Lemma Tts_submission_ignores_isConnected (r : Render) (m : string) (w : Tts.World)
    (sock : Socket) :
  Tts.activeSocket r w = Some sock ->
  truthy (trim m) = true ->
  truthy (Tts.activeSessionId r w) = true ->
  submissions (Tts.trace (Tts.handleSendMessage r (Some m) w))
  = submissions (Tts.trace w) ++ [(Tts.activeSessionId r w, m)].
Proof.
  intros Hs Hm Hi. unfold Tts.handleSendMessage.
  rewrite Hs, (or_else_truthy m _ (truthy_trim m Hm)), Hm, Hi. simpl.
  rewrite !submissions_app. simpl. now rewrite !app_nil_r.
Qed.

(** C6 fails on the code.  After [disconnect] the connection flag is off,
    and no [connected] event follows; a spoken utterance that ends, and a
    typed text sent with the Enter key, are both emitted as
    [user_message]. *)
Theorem C6_submission_after_disconnect_is_emitted :
  isConnected (rerender (render_on "")
                 (Tts.trace (Tts.run (render_on "") (Tts.mounted 1)
                               joined_then_disconnected))) = false
  /\ submissions (Tts.trace (Tts.run (render_on "") (Tts.mounted 1)
                               joined_then_disconnected)) = []
  /\ submissions
       (Tts.trace (Tts.run (render_on "") (Tts.mounted 1)
                     (joined_then_disconnected
                      ++ [Tts.result (final_result "hello"); Tts.speechend; Tts.ended])))
     = [("abc", "hello")]
  /\ submissions
       (Tts.trace (Tts.handleKeyPress_Enter
                     (rerender (render_on "hello")
                        (Tts.trace (Tts.run (render_on "") (Tts.mounted 1)
                                      joined_then_disconnected)))
                     (Tts.run (render_on "") (Tts.mounted 1) joined_then_disconnected)))
     = [("abc", "hello")].
Proof. vm_compute. repeat split. Qed.

(** The send button is the one path that looks at the connection flag:
    while [isConnected] is off it is disabled and submits nothing. *)
Lemma Tts_send_button_refuses_when_disconnected (r : Render) (w : Tts.World) :
  isConnected r = false -> Tts.send_button_onClick r w = w.
Proof.
  intros H. unfold Tts.send_button_onClick, Tts.send_button_disabled.
  rewrite H. simpl. now rewrite orb_true_r.
Qed.

(** ** Order of playback *)

Lemma one_at_a_time_app {A} (eqb : A -> A -> bool) (l l' : list (Playback A)) :
  forall cur,
    one_at_a_time eqb cur (l ++ l')
    = match one_at_a_time eqb cur l with
      | Some c => one_at_a_time eqb c l'
      | None => None
      end.
Proof.
  induction l as [|p l IH]; intros cur; simpl; [reflexivity|].
  destruct p as [x | x]; destruct cur as [y|]; try reflexivity.
  - apply IH.
  - destruct (eqb x y); [apply IH | reflexivity].
Qed.

Lemma segments_begun_app {A} (l l' : list (Playback A)) :
  segments_begun (l ++ l') = segments_begun l ++ segments_begun l'.
Proof.
  induction l as [|p l IH]; simpl; [reflexivity|].
  destruct p; simpl; now rewrite IH.
Qed.

(** Segments that go one at a time end in the order in which they
    begin. *)
Lemma one_at_a_time_order {A} (eqb : A -> A -> bool) :
  (forall x y, eqb x y = true -> x = y) ->
  forall (l : list (Playback A)) (c0 c : option A),
    one_at_a_time eqb c0 l = Some c ->
    olist c0 ++ segments_begun l = segments_ended l ++ olist c.
Proof.
  intros Heq. induction l as [|p l IH]; intros c0 c H; simpl in *.
  - injection H as <-. now rewrite app_nil_r.
  - destruct p as [x | x]; destruct c0 as [y|]; try discriminate H.
    + apply IH in H. simpl in *. exact H.
    + destruct (eqb x y) eqn:E; [|discriminate H].
      apply Heq in E as ->. apply IH in H. simpl in *. now rewrite H.
Qed.

Lemma Tts_sequenced_mounted (sock : Socket) : Tts_sequenced (Tts.mounted sock) [].
Proof. exists None. repeat split. Qed.

Lemma Tts_sequenced_step (r : Render) (w : Tts.World) (chunks : list string)
    (e : Tts.Sequencer) :
  speechSynthesis r = true ->
  Tts_sequenced w chunks ->
  Tts_sequenced (Tts.sequencer_step r w e) (chunks ++ accepted_chunk r e).
Proof.
  intros Hs (cur & H1 & H2 & H3 & H4 & H5 & H6).
  assert (Hdone : forall failed,
             Tts_sequenced (Tts.utterance_done r failed w) (chunks ++ [])).
  { intros failed. rewrite app_nil_r. destruct cur as [t|].
    - destruct (Tts.speechQueueRef w) as [|x q] eqn:Hq.
      + destruct (Tts_done_last r failed w t H2 Hq) as (K1 & K2 & K3 & K4 & K5).
        exists None. rewrite K5, one_at_a_time_app, H1, K1, K2, K3, K4.
        simpl. rewrite String.eqb_refl, spoken_app, segments_begun_app. simpl.
        rewrite !app_nil_r. rewrite app_nil_r in H5. repeat split; auto.
      + destruct (Tts_done_next r failed w t x q Hs H2 Hq) as (K1 & K2 & K3 & K4 & K5).
        exists (Some x). rewrite K5, one_at_a_time_app, H1, K1, K2, K3, K4.
        simpl. rewrite String.eqb_refl, spoken_app, segments_begun_app. simpl.
        rewrite <- app_assoc. simpl. rewrite H6.
        repeat split; try assumption; discriminate.
    - unfold Tts.utterance_done. rewrite H2. simpl.
      exists None. repeat split; auto. }
  destruct e as [t | |]; simpl; try apply Hdone.
  rewrite Hs. simpl andb. unfold Tts.speakChunk. rewrite Hs. simpl negb. simpl orb.
  destruct (truthy (trim t)); simpl negb; cbv iota.
  - tts_red. rewrite H3. destruct cur as [c|]; simpl negb; cbv iota.
    + exists (Some c). tts_red. rewrite app_assoc, H5.
      repeat split; try assumption; discriminate.
    + unfold Tts.processNextSpeech. tts_red. rewrite (H4 eq_refl). simpl app.
      cbv iota. rewrite Hs. unfold Tts.synth_speak. tts_red. simpl Tts.origin.
      cbv iota. tts_red.
      exists (Some t). tts_red. cbn [Tts.utterance_text].
      rewrite one_at_a_time_app, H1, H2.
      rewrite !spoken_app, segments_begun_app. simpl.
      rewrite (H4 eq_refl), app_nil_r in H5. rewrite !app_nil_r, H5, H6.
      repeat split; try discriminate. now rewrite H5.
  - rewrite app_nil_r. exists cur. repeat split; auto.
Qed.

Lemma Tts_sequenced_run (r : Render) (es : list Tts.Sequencer) :
  speechSynthesis r = true ->
  forall (w : Tts.World) (chunks : list string),
    Tts_sequenced w chunks ->
    Tts_sequenced (fold_left (Tts.sequencer_step r) es w)
      (chunks ++ flat_map (accepted_chunk r) es).
Proof.
  intros Hs. induction es as [|e es IH]; intros w chunks H; simpl.
  - now rewrite app_nil_r.
  - rewrite app_assoc. apply IH. now apply Tts_sequenced_step.
Qed.

(** Without a synthesiser the speech sequencer does nothing at all. *)
Lemma Tts_mute_run (r : Render) (es : list Tts.Sequencer) :
  speechSynthesis r = false ->
  forall w : Tts.World,
    Tts.synth w = [] ->
    fold_left (Tts.sequencer_step r) es w = w
    /\ flat_map (accepted_chunk r) es = [].
Proof.
  intros Hs. induction es as [|e es IH]; intros w Hy; simpl; [auto|].
  assert (E : Tts.sequencer_step r w e = w).
  { destruct e; simpl.
    - unfold Tts.speakChunk. now rewrite Hs.
    - unfold Tts.utterance_done. now rewrite Hy.
    - unfold Tts.utterance_done. now rewrite Hy. }
  rewrite E. destruct (IH w Hy) as [K1 K2]. rewrite K1, K2. split; [reflexivity|].
  destruct e; simpl; [now rewrite Hs | reflexivity | reflexivity].
Qed.

Lemma Clip_sequenced_audio_on (sock : Socket) :
  Clip_sequenced (Clip.audioMode_effect true (Clip.mounted sock)) [].
Proof. repeat split. constructor. Qed.

Lemma Clip_sequenced_set (u : Update) (w : Clip.World) (urls : list string) :
  Clip_sequenced w urls -> Clip_sequenced (Clip.set u w) urls.
Proof.
  intros (H1 & H2 & H3 & H4 & H5 & H6 & H7).
  unfold Clip_sequenced. clip_red. rewrite played_app. simpl. rewrite app_nil_r.
  repeat split; assumption.
Qed.

(** A report for a clip that is not sounding changes nothing but the
    speaking flag. *)
Lemma Clip_stale_report (how : Clip.Completion) (a : Audio) (w : Clip.World)
    (urls : list string) :
  Clip_sequenced w urls ->
  Clip.is_playing a w = false ->
  Clip_sequenced (Clip.audio_done how a w) urls.
Proof.
  intros H Hn.
  assert (E : Clip.audio_done how a w = Clip.handleComplete a w).
  { unfold Clip.audio_done. rewrite Hn. destruct how; reflexivity. }
  rewrite E. clear E.
  pose proof H as (H1 & H2 & H3 & H4 & H5 & H6 & H7).
  unfold Clip.is_playing in Hn. rewrite H3 in Hn.
  unfold Clip.handleComplete.
  destruct (Clip.currentAudioRef w) as [c|] eqn:Hc.
  - simpl in Hn. rewrite orb_false_r in Hn.
    assert (E : audio_eqb c a = false).
    { destruct (audio_eqb c a) eqn:E; [|reflexivity].
      apply audio_eqb_eq in E as ->. now rewrite audio_eqb_refl in Hn. }
    rewrite E.
    destruct (Clip.audioQueueRef w) eqn:Hq.
    + rewrite (Clip_playNextAudio_busy _ c) by exact Hc.
      now apply Clip_sequenced_set.
    + rewrite (Clip_playNextAudio_busy _ c) by exact Hc. exact H.
  - rewrite (H4 eq_refl).
    rewrite Clip_playNextAudio_idle; [| exact H1 | exact Hc | exact (H4 eq_refl)].
    now apply Clip_sequenced_set, Clip_sequenced_set.
Qed.

Lemma Clip_sequenced_step (w : Clip.World) (urls : list string) (e : Clip.Sequencer) :
  Clip_sequenced w urls ->
  Clip_sequenced (Clip.sequencer_step w e) (urls ++ accepted_url e).
Proof.
  intros H.
  assert (Hdone : forall how a, Clip_sequenced (Clip.audio_done how a w) (urls ++ [])).
  { intros how a. rewrite app_nil_r.
    destruct (Clip.is_playing a w) eqn:Hp; [|now apply Clip_stale_report].
    destruct H as (H1 & H2 & H3 & H4 & H5 & H6 & H7).
    unfold Clip.is_playing in Hp. rewrite H3 in Hp.
    destruct (Clip.currentAudioRef w) as [c|] eqn:Hc; [|discriminate Hp].
    simpl in Hp. rewrite orb_false_r in Hp. apply audio_eqb_eq in Hp as ->.
    destruct (Clip.audioQueueRef w) as [|url q] eqn:Hq.
    - destruct (Clip_done_last how c w H1 Hc H3 Hq) as (K1 & K2 & K3 & K4 & K5 & K6).
      unfold Clip_sequenced.
      rewrite K1, K2, K3, K4, K5, K6, one_at_a_time_app, H2, played_app,
        segments_begun_app.
      simpl. rewrite audio_eqb_refl, !app_nil_r. rewrite app_nil_r in H6.
      repeat split; try assumption.
    - inversion H5 as [|? ? Hu Hq']; subst.
      destruct (Clip_done_next how c w url q H1 Hc H3 Hq Hu)
        as (K1 & K2 & K3 & K4 & K5 & K6).
      unfold Clip_sequenced.
      rewrite K1, K2, K3, K4, K5, K6, one_at_a_time_app, H2, played_app,
        segments_begun_app.
      simpl. rewrite audio_eqb_refl, map_app, <- app_assoc, H7.
      repeat split; try assumption; discriminate. }
  destruct e as [url | a | a | a]; cbn [Clip.sequencer_step accepted_url];
    try apply Hdone.
  destruct H as (H1 & H2 & H3 & H4 & H5 & H6 & H7).
  unfold Clip.enqueueAudio. destruct (truthy url) eqn:Hu; simpl negb; cbv iota.
  - assert (Em : Clip.audioModeRef
                   (Clip.set_audioQueueRef (Clip.audioQueueRef w ++ [url]) w) = true)
      by exact H1.
    rewrite Em.
    destruct (Clip.currentAudioRef w) as [c|] eqn:Hc.
    + rewrite (Clip_playNextAudio_busy _ c) by exact Hc.
      unfold Clip_sequenced. clip_red. rewrite Hc, app_assoc, H6.
      repeat split; try assumption; try discriminate.
      apply Forall_app. split; [assumption | now constructor].
    + rewrite (Clip_playNextAudio_start _ url []);
        [| exact H1 | exact Hc | clip_red; now rewrite (H4 eq_refl) | exact Hu].
      unfold Clip.play, Clip_sequenced. clip_red.
      rewrite one_at_a_time_app, H2, played_app, segments_begun_app, map_app, H3.
      simpl. rewrite (H4 eq_refl), app_nil_r in H6. rewrite !app_nil_r, H6, H7.
      repeat split; try discriminate; try assumption. constructor.
  - rewrite app_nil_r. repeat split; assumption.
Qed.

Lemma Clip_sequenced_run (es : list Clip.Sequencer) :
  forall (w : Clip.World) (urls : list string),
    Clip_sequenced w urls ->
    Clip_sequenced (fold_left Clip.sequencer_step es w)
      (urls ++ flat_map accepted_url es).
Proof.
  induction es as [|e es IH]; intros w urls H; simpl.
  - now rewrite app_nil_r.
  - rewrite app_assoc. apply IH. now apply Clip_sequenced_step.
Qed.

(** C4: from the mounted component (the audio-clip version with audio
    output on), after any sequence of enqueue calls and of reports of ended
    or failed segments, in any interleaving: the segments begun, followed
    by the queue, are the accepted segments in the order of their
    enqueueing; every segment handed to the device is logged as played;
    the segments went one at a time, each beginning only after the one
    before had reported its end or its error, so at most one is with the
    device; and the segments ended in the order in which they began. *)
Theorem C4_segments_play_in_order_one_at_a_time :
  (forall (r : Render) (sock : Socket) (es : list Tts.Sequencer),
      let w := fold_left (Tts.sequencer_step r) es (Tts.mounted sock) in
      segments_begun (Tts.heard w) ++ Tts.speechQueueRef w
      = flat_map (accepted_chunk r) es
      /\ spoken (Tts.trace w) = segments_begun (Tts.heard w)
      /\ (exists cur,
             one_at_a_time String.eqb None (Tts.heard w) = Some cur
             /\ Tts.synth w = map queued (olist cur))
      /\ length (Tts.synth w) <= 1
      /\ segments_begun (Tts.heard w)
         = segments_ended (Tts.heard w) ++ map Tts.utterance_text (Tts.synth w))
  /\ (forall (sock : Socket) (es : list Clip.Sequencer),
        let w := fold_left Clip.sequencer_step es
                   (Clip.audioMode_effect true (Clip.mounted sock)) in
        map audio_url (segments_begun (Clip.heard w)) ++ Clip.audioQueueRef w
        = flat_map accepted_url es
        /\ played (Clip.trace w) = segments_begun (Clip.heard w)
        /\ one_at_a_time audio_eqb None (Clip.heard w) = Some (Clip.currentAudioRef w)
        /\ Clip.playing w = olist (Clip.currentAudioRef w)
        /\ length (Clip.playing w) <= 1
        /\ segments_begun (Clip.heard w) = segments_ended (Clip.heard w) ++ Clip.playing w).
Proof.
  split.
  - intros r sock es w. destruct (speechSynthesis r) eqn:Hs.
    + pose proof (Tts_sequenced_run r es Hs _ _ (Tts_sequenced_mounted sock))
        as (cur & H1 & H2 & H3 & H4 & H5 & H6).
      fold w in H1, H2, H3, H4, H5, H6. simpl app in H5.
      repeat split; try assumption.
      * exists cur. split; assumption.
      * rewrite H2. destruct cur; simpl; lia.
      * pose proof (one_at_a_time_order String.eqb
                      (fun x y => proj1 (String.eqb_eq x y)) _ _ _ H1) as Ho.
        simpl in Ho. rewrite Ho, H2. destruct cur; reflexivity.
    + destruct (Tts_mute_run r es Hs (Tts.mounted sock) eq_refl) as [E1 E2].
      subst w. rewrite E1, E2. simpl. repeat split; try lia.
      exists None. split; reflexivity.
  - intros sock es w.
    pose proof (Clip_sequenced_run es _ _ (Clip_sequenced_audio_on sock))
      as (H1 & H2 & H3 & H4 & H5 & H6 & H7).
    fold w in H1, H2, H3, H4, H5, H6, H7. simpl app in H6.
    repeat split; try assumption.
    + rewrite H3. destruct (Clip.currentAudioRef w); simpl; lia.
    + pose proof (one_at_a_time_order audio_eqb
                    (fun x y => proj1 (audio_eqb_eq x y)) _ _ _ H2) as Ho.
      simpl in Ho. now rewrite Ho, H3.
Qed.

(** ** The speaking state of a render *)

Lemma rerender_isSpeaking (l : list Action) :
  forall r : Render, isSpeaking (rerender r l) = speaking_flag (isSpeaking r) l.
Proof.
  induction l as [|a l IH]; intros r; simpl; [reflexivity|].
  destruct a; try apply IH. destruct u; rewrite IH; reflexivity.
Qed.

(** ** One submission per utterance *)

Lemma trimEnd_idempotent (s : string) : trimEnd (trimEnd s) = trimEnd s.
Proof.
  induction s as [|c s IH]; simpl; [reflexivity|].
  destruct (trimEnd s) as [|d t] eqn:E.
  - destruct (is_white c) eqn:W; simpl; [reflexivity|]. now rewrite W.
  - simpl in *. rewrite IH. reflexivity.
Qed.

Lemma trimStart_trimEnd (s : string) :
  trimStart (trimEnd (trimStart s)) = trimEnd (trimStart s).
Proof.
  induction s as [|c s IH]; simpl; [reflexivity|].
  destruct (is_white c) eqn:W; [exact IH|].
  simpl. destruct (trimEnd s); rewrite ?W; simpl; now rewrite W.
Qed.

Lemma trim_idempotent (s : string) : trim (trim s) = trim s.
Proof.
  unfold trim. now rewrite trimStart_trimEnd, trimEnd_idempotent.
Qed.

(** What [handleSendMessage] adds to the submissions, and what it leaves
    alone. *)
Lemma Clip_handleSendMessage_effect (r : Render) (m : option string) (w : Clip.World) :
  submissions (Clip.trace (Clip.handleSendMessage r m w))
  = submissions (Clip.trace w)
    ++ match Clip.activeSocket r w with
       | Some _ =>
           let textToSend :=
             match m with Some t => or_else t (inputText r) | None => inputText r end in
           if truthy (trim textToSend) && truthy (Clip.activeSessionId r w)
           then [(Clip.activeSessionId r w, textToSend)] else []
       | None => []
       end
  /\ Clip.socketRef (Clip.handleSendMessage r m w) = Clip.socketRef w
  /\ Clip.sessionIdRef (Clip.handleSendMessage r m w) = Clip.sessionIdRef w
  /\ Clip.lastTranscriptRef (Clip.handleSendMessage r m w) = Clip.lastTranscriptRef w.
Proof.
  unfold Clip.handleSendMessage.
  destruct (Clip.activeSocket r w) as [sock|].
  - destruct (truthy (trim _) && truthy (Clip.activeSessionId r w)).
    + clip_red. rewrite !submissions_app. simpl. rewrite !app_nil_r. repeat split.
    + destruct (negb (truthy (Clip.activeSessionId r w))); clip_red;
        rewrite ?submissions_app; simpl; rewrite ?app_nil_r; repeat split.
  - clip_red. rewrite submissions_app. simpl. rewrite app_nil_r. repeat split.
Qed.

Lemma Tts_handleSendMessage_effect (r : Render) (m : option string) (w : Tts.World) :
  submissions (Tts.trace (Tts.handleSendMessage r m w))
  = submissions (Tts.trace w)
    ++ match Tts.activeSocket r w with
       | Some _ =>
           let textToSend :=
             match m with Some t => or_else t (inputText r) | None => inputText r end in
           if truthy (trim textToSend) && truthy (Tts.activeSessionId r w)
           then [(Tts.activeSessionId r w, textToSend)] else []
       | None => []
       end
  /\ Tts.socketRef (Tts.handleSendMessage r m w) = Tts.socketRef w
  /\ Tts.sessionIdRef (Tts.handleSendMessage r m w) = Tts.sessionIdRef w
  /\ Tts.lastTranscriptRef (Tts.handleSendMessage r m w) = Tts.lastTranscriptRef w.
Proof.
  unfold Tts.handleSendMessage.
  destruct (Tts.activeSocket r w) as [sock|].
  - destruct (truthy (trim _) && truthy (Tts.activeSessionId r w)).
    + tts_red. rewrite !submissions_app. simpl. rewrite !app_nil_r. repeat split.
    + destruct (negb (truthy (Tts.activeSessionId r w))); tts_red;
        rewrite ?submissions_app; simpl; rewrite ?app_nil_r; repeat split.
  - tts_red. rewrite submissions_app. simpl. rewrite app_nil_r. repeat split.
Qed.

Lemma Clip_quiet_refl (w : Clip.World) : Clip_quiet w w.
Proof. repeat split. Qed.

Lemma Clip_quiet_trans (w1 w2 w3 : Clip.World) :
  Clip_quiet w1 w2 -> Clip_quiet w2 w3 -> Clip_quiet w1 w3.
Proof. unfold Clip_quiet. intuition congruence. Qed.

Lemma Tts_quiet_refl (w : Tts.World) : Tts_quiet w w.
Proof. repeat split. Qed.

Lemma Tts_quiet_trans (w1 w2 w3 : Tts.World) :
  Tts_quiet w1 w2 -> Tts_quiet w2 w3 -> Tts_quiet w1 w3.
Proof. unfold Tts_quiet. intuition congruence. Qed.

Lemma Clip_start_quiet (w : Clip.World) :
  Clip_quiet w (fst (Clip.start w))
  /\ Clip.lastTranscriptRef (fst (Clip.start w)) = Clip.lastTranscriptRef w.
Proof.
  unfold Clip.start, Clip_quiet. destruct (Clip.micActive w); cbn [fst]; clip_red;
    rewrite submissions_app; simpl; rewrite app_nil_r; repeat split.
Qed.

Lemma Tts_start_quiet (w : Tts.World) :
  Tts_quiet w (fst (Tts.start w))
  /\ Tts.lastTranscriptRef (fst (Tts.start w)) = Tts.lastTranscriptRef w.
Proof.
  unfold Tts.start, Tts_quiet. destruct (Tts.micActive w); cbn [fst]; tts_red;
    rewrite submissions_app; simpl; rewrite app_nil_r; repeat split.
Qed.

Lemma Clip_capture_step (r : Render) (w : Clip.World) (e : Clip.Event) :
  Clip_capturing e = true -> Clip_quiet w (Clip.step r w e).
Proof.
  destruct e; try discriminate; simpl; intros H.
  - unfold Clip.onresult. apply negb_true_iff in H. rewrite H. simpl andb. cbv iota.
    destruct (truthy (or_else _ _)); unfold Clip_quiet; clip_red;
      rewrite ?submissions_app; simpl; rewrite ?app_nil_r; repeat split.
  - unfold Clip.onspeechend, Clip.setTimeout, Clip_quiet. clip_red.
    rewrite submissions_app. simpl. rewrite app_nil_r. repeat split.
Qed.

Lemma Clip_capture_run (r : Render) (es : list Clip.Event) :
  forall w : Clip.World,
    forallb Clip_capturing es = true -> Clip_quiet w (Clip.run r w es).
Proof.
  induction es as [|e es IH]; intros w H; simpl in *.
  - apply Clip_quiet_refl.
  - apply andb_true_iff in H as [H1 H2].
    eapply Clip_quiet_trans; [apply (Clip_capture_step r w e H1) | apply IH, H2].
Qed.

Lemma Clip_fire_after_submission (r : Render) (cb : Clip.Timer) (w : Clip.World) :
  Clip.lastTranscriptRef w = "" ->
  Clip_quiet w (Clip.fire r cb w) /\ Clip.lastTranscriptRef (Clip.fire r cb w) = "".
Proof.
  intros Hl. destruct cb; simpl.
  - rewrite Hl. simpl. split; [apply Clip_quiet_refl | exact Hl].
  - destruct (recognition r).
    + destruct (Clip_start_quiet w) as [Q L]. split; [exact Q | congruence].
    + split; [apply Clip_quiet_refl | exact Hl].
  - destruct (negb (Clip.isRecognitionRunningRef w));
      [|split; [apply Clip_quiet_refl | exact Hl]].
    destruct (recognition r).
    + pose proof (Clip_start_quiet w) as [Q L].
      destruct (Clip.start w) as [w' returned]. simpl in Q, L.
      destruct returned; split; try exact Q; clip_red; congruence.
    + split; [repeat split | exact Hl].
  - destruct (negb (Clip.isRecognitionRunningRef w));
      [|split; [apply Clip_quiet_refl | exact Hl]].
    destruct (recognition r).
    + pose proof (Clip_start_quiet w) as [Q L].
      destruct (Clip.start w) as [w' returned]. simpl in Q, L.
      destruct returned; [|split; [exact Q | congruence]].
      destruct Q as (Q1 & Q2 & Q3). unfold Clip_quiet. clip_red.
      rewrite submissions_app. simpl. rewrite app_nil_r.
      repeat split; congruence.
    + split; [apply Clip_quiet_refl | exact Hl].
Qed.

Lemma Clip_closing_step (r : Render) (w : Clip.World) (e : Clip.Event) :
  Clip.lastTranscriptRef w = "" ->
  Clip_closing e = true ->
  Clip_quiet w (Clip.step r w e) /\ Clip.lastTranscriptRef (Clip.step r w e) = "".
Proof.
  intros Hl. destruct e; try discriminate; simpl; intros _.
  - unfold Clip.onspeechend, Clip.setTimeout, Clip_quiet. clip_red.
    rewrite submissions_app. simpl. rewrite app_nil_r. repeat split. exact Hl.
  - unfold Clip.onend. clip_red.
    destruct (conversationMode r && Clip.micEnabledRef w && negb (isAIResponding r));
      unfold Clip.setTimeout, Clip_quiet; clip_red;
      rewrite submissions_app; simpl; rewrite app_nil_r; repeat split; exact Hl.
  - destruct (Clip.take_timer handle (Clip.timers w)) as [[cb rest]|];
      [|split; [apply Clip_quiet_refl | exact Hl]].
    apply (Clip_fire_after_submission r cb
             (Clip.set_timers rest (Clip.nextTimer w) w) Hl).
Qed.

Lemma Clip_closing_run (r : Render) (es : list Clip.Event) :
  forall w : Clip.World,
    Clip.lastTranscriptRef w = "" ->
    forallb Clip_closing es = true ->
    Clip_quiet w (Clip.run r w es).
Proof.
  induction es as [|e es IH]; intros w Hl H; simpl in *.
  - apply Clip_quiet_refl.
  - apply andb_true_iff in H as [H1 H2].
    destruct (Clip_closing_step r w e Hl H1) as [Q L].
    eapply Clip_quiet_trans; [exact Q | apply IH; assumption].
Qed.

Lemma Clip_final_step (r : Render) (w : Clip.World) (ev : SpeechRecognitionEvent)
    (sock : Socket) :
  conversationMode r = true ->
  Clip.activeSocket r w = Some sock ->
  truthy (Clip.activeSessionId r w) = true ->
  truthy (trim (finalText ev)) = true ->
  submissions (Clip.trace (Clip.step r w (Clip.result ev)))
  = submissions (Clip.trace w) ++ [(Clip.activeSessionId r w, finalText ev)]
  /\ Clip.socketRef (Clip.step r w (Clip.result ev)) = Clip.socketRef w
  /\ Clip.sessionIdRef (Clip.step r w (Clip.result ev)) = Clip.sessionIdRef w
  /\ Clip.lastTranscriptRef (Clip.step r w (Clip.result ev)) = "".
Proof.
  intros Hcm Hs Hi Ht. pose proof (truthy_trim _ Ht) as Hf.
  simpl. unfold Clip.onresult. rewrite Hf, Hcm, (or_else_truthy _ _ Hf), Hf.
  simpl andb. cbv iota.
  set (w1 := Clip.set (setInterimTranscript (finalText ev))
               (Clip.set_lastTranscriptRef (finalText ev) w)).
  destruct (Clip_handleSendMessage_effect r (Some (finalText ev)) w1)
    as (E1 & E2 & E3 & E4).
  change (Clip.activeSocket r w1) with (Clip.activeSocket r w) in E1.
  change (Clip.activeSessionId r w1) with (Clip.activeSessionId r w) in E1.
  rewrite Hs in E1. cbv zeta in E1.
  rewrite (or_else_truthy _ _ Hf), Ht, Hi in E1. simpl in E1.
  clip_red. rewrite submissions_app, E1, E2, E3. simpl.
  rewrite !submissions_app. simpl. rewrite !app_nil_r. repeat split.
Qed.

(** [onresult] of the speech-synthesis version never submits. *)
Lemma Tts_onresult_quiet (r : Render) (w : Tts.World) (ev : SpeechRecognitionEvent) :
  Tts_quiet w (Tts.onresult r ev w)
  /\ Tts.lastTranscriptRef (Tts.onresult r ev w)
     = if truthy (or_else (finalText ev) (interimText ev))
       then or_else (finalText ev) (interimText ev)
       else Tts.lastTranscriptRef w.
Proof.
  unfold Tts.onresult, Tts_quiet.
  destruct (truthy (or_else _ _)); tts_red;
    rewrite ?submissions_app; simpl; rewrite ?app_nil_r; repeat split.
Qed.

Lemma Tts_capture_run (r : Render) (es : list Tts.Event) :
  forall w : Tts.World,
    forallb Tts_capturing es = true -> Tts_quiet w (Tts.run r w es).
Proof.
  induction es as [|e es IH]; intros w H; simpl in *.
  - apply Tts_quiet_refl.
  - apply andb_true_iff in H as [H1 H2].
    eapply Tts_quiet_trans; [|apply IH, H2].
    destruct e; try discriminate H1. apply Tts_onresult_quiet.
Qed.

Lemma Tts_fire_quiet (r : Render) (cb : Tts.Timer) (w : Tts.World) :
  Tts_quiet w (Tts.fire r cb w)
  /\ Tts.lastTranscriptRef (Tts.fire r cb w) = Tts.lastTranscriptRef w.
Proof.
  destruct cb; simpl.
  - destruct (recognition r); [apply Tts_start_quiet | repeat split].
  - destruct (negb (Tts.isRecognitionRunningRef w)); [|repeat split].
    destruct (recognition r); [|repeat split].
    pose proof (Tts_start_quiet w) as [Q L].
    destruct (Tts.start w) as [w' returned]. simpl in Q, L.
    destruct returned; split; try exact Q; tts_red; congruence.
Qed.

(** A closing event other than the end of the recogniser submits nothing
    and keeps the transcript. *)
Lemma Tts_closing_step_other (r : Render) (w : Tts.World) (e : Tts.Event) :
  Tts_closing e = true ->
  Tts_is_ended e = false ->
  Tts_quiet w (Tts.step r w e)
  /\ Tts.lastTranscriptRef (Tts.step r w e) = Tts.lastTranscriptRef w.
Proof.
  destruct e; try discriminate; simpl; intros _ _.
  - unfold Tts.onspeechend, Tts.stop, Tts_quiet. tts_red.
    rewrite submissions_app. simpl. rewrite app_nil_r. repeat split.
  - destruct (Tts.take_timer handle (Tts.timers w)) as [[cb rest]|]; [|repeat split].
    apply (Tts_fire_quiet r cb (Tts.set_timers rest (Tts.nextTimer w) w)).
Qed.

(** What the end of the recogniser submits. *)
Lemma Tts_onend_effect (r : Render) (w : Tts.World) :
  submissions (Tts.trace (Tts.onend r w))
  = submissions (Tts.trace w)
    ++ (if truthy (trim (Tts.lastTranscriptRef w)) && conversationMode r
        then match Tts.activeSocket r w with
             | Some _ =>
                 if truthy (Tts.activeSessionId r w)
                 then [(Tts.activeSessionId r w, trim (Tts.lastTranscriptRef w))]
                 else []
             | None => []
             end
        else [])
  /\ Tts.socketRef (Tts.onend r w) = Tts.socketRef w
  /\ Tts.sessionIdRef (Tts.onend r w) = Tts.sessionIdRef w
  /\ Tts.lastTranscriptRef (Tts.onend r w)
     = if truthy (trim (Tts.lastTranscriptRef w)) && conversationMode r
       then "" else Tts.lastTranscriptRef w.
Proof.
  unfold Tts.onend.
  set (w0 := Tts.set_isRecognitionRunningRef false w).
  change (Tts.lastTranscriptRef w0) with (Tts.lastTranscriptRef w).
  destruct (truthy (trim (Tts.lastTranscriptRef w)) && conversationMode r) eqn:Hsend.
  - apply andb_true_iff in Hsend as [Ht Hcm].
    destruct (Tts_handleSendMessage_effect r (Some (trim (Tts.lastTranscriptRef w))) w0)
      as (E1 & E2 & E3 & E4).
    change (Tts.activeSocket r w0) with (Tts.activeSocket r w) in E1.
    change (Tts.activeSessionId r w0) with (Tts.activeSessionId r w) in E1.
    cbv zeta in E1. rewrite (or_else_truthy _ _ Ht), trim_idempotent, Ht in E1.
    simpl andb in E1.
    destruct (conversationMode r && negb (isAIResponding r)
              && negb (isConversationLocked r));
      unfold Tts.setTimeout; tts_red;
      rewrite !submissions_app, E1, E2, E3; simpl; rewrite !app_nil_r; repeat split.
  - destruct (conversationMode r && negb (isAIResponding r)
              && negb (isConversationLocked r));
      unfold Tts.setTimeout; tts_red;
      rewrite submissions_app; simpl; rewrite !app_nil_r; repeat split.
Qed.

Lemma Tts_ended_step (r : Render) (w : Tts.World) :
  Tts.step r w Tts.ended = Tts.onend r (Tts.set_micActive false w).
Proof. reflexivity. Qed.

Lemma Tts_closing_run_sent (r : Render) (es : list Tts.Event) :
  forall w : Tts.World,
    Tts.lastTranscriptRef w = "" ->
    forallb Tts_closing es = true ->
    Tts_quiet w (Tts.run r w es).
Proof.
  induction es as [|e es IH]; intros w Hl H; simpl in *.
  - apply Tts_quiet_refl.
  - apply andb_true_iff in H as [H1 H2].
    assert (S : Tts_quiet w (Tts.step r w e)
                /\ Tts.lastTranscriptRef (Tts.step r w e) = "").
    { destruct (Tts_is_ended e) eqn:He.
      - destruct e; try discriminate He. rewrite Tts_ended_step.
        destruct (Tts_onend_effect r (Tts.set_micActive false w)) as (E1 & E2 & E3 & E4).
        change (Tts.lastTranscriptRef (Tts.set_micActive false w))
          with (Tts.lastTranscriptRef w) in E1, E4.
        rewrite Hl in E1, E4. simpl in E1, E4. rewrite app_nil_r in E1.
        repeat split; assumption.
      - destruct (Tts_closing_step_other r w e H1 He) as [Q L].
        split; [exact Q | congruence]. }
    destruct S as [Q L].
    eapply Tts_quiet_trans; [exact Q | apply IH; assumption].
Qed.

Lemma Tts_closing_run_pending (r : Render) (t : string) (es : list Tts.Event) :
  conversationMode r = true ->
  truthy (trim t) = true ->
  forall (w : Tts.World) (sock : Socket),
    Tts.lastTranscriptRef w = t ->
    Tts.activeSocket r w = Some sock ->
    truthy (Tts.activeSessionId r w) = true ->
    forallb Tts_closing es = true ->
    existsb Tts_is_ended es = true ->
    submissions (Tts.trace (Tts.run r w es))
    = submissions (Tts.trace w) ++ [(Tts.activeSessionId r w, trim t)].
Proof.
  intros Hcm Ht.
  induction es as [|e es IH]; intros w sock Hl Hs Hi H Hex; simpl in *;
    [discriminate Hex|].
  apply andb_true_iff in H as [H1 H2].
  destruct (Tts_is_ended e) eqn:He.
  - destruct e; try discriminate He. rewrite Tts_ended_step.
    destruct (Tts_onend_effect r (Tts.set_micActive false w)) as (E1 & E2 & E3 & E4).
    change (Tts.lastTranscriptRef (Tts.set_micActive false w))
      with (Tts.lastTranscriptRef w) in E1, E4.
    change (Tts.activeSocket r (Tts.set_micActive false w))
      with (Tts.activeSocket r w) in E1.
    change (Tts.activeSessionId r (Tts.set_micActive false w))
      with (Tts.activeSessionId r w) in E1.
    rewrite Hl, Ht, Hcm, Hs, Hi in E1. rewrite Hl, Ht, Hcm in E4.
    simpl in E1, E4.
    destruct (Tts_closing_run_sent r es _ E4 H2) as (Q1 & _ & _).
    now rewrite Q1, E1.
  - simpl in Hex.
    destruct (Tts_closing_step_other r w e H1 He) as [(Q1 & Q2 & Q3) L].
    assert (Hs' : Tts.activeSocket r (Tts.step r w e) = Some sock).
    { unfold Tts.activeSocket in *. now rewrite Q2. }
    assert (Hi' : Tts.activeSessionId r (Tts.step r w e) = Tts.activeSessionId r w).
    { unfold Tts.activeSessionId. now rewrite Q3. }
    rewrite (IH (Tts.step r w e) sock); try assumption; try congruence.
Qed.

Lemma Clip_run_app (r : Render) (w : Clip.World) (a b : list Clip.Event) :
  Clip.run r w (a ++ b) = Clip.run r (Clip.run r w a) b.
Proof. apply fold_left_app. Qed.

Lemma Clip_run_cons (r : Render) (w : Clip.World) (e : Clip.Event)
    (es : list Clip.Event) :
  Clip.run r w (e :: es) = Clip.run r (Clip.step r w e) es.
Proof. reflexivity. Qed.

Lemma Tts_run_app (r : Render) (w : Tts.World) (a b : list Tts.Event) :
  Tts.run r w (a ++ b) = Tts.run r (Tts.run r w a) b.
Proof. apply fold_left_app. Qed.

Lemma Tts_run_cons (r : Render) (w : Tts.World) (e : Tts.Event)
    (es : list Tts.Event) :
  Tts.run r w (e :: es) = Tts.run r (Tts.step r w e) es.
Proof. reflexivity. Qed.

(** C1, amended.  Conversation mode is on, a socket and a session id are at
    hand, and the utterance ends in one final result whose text is not
    blank.  In the audio-clip version, when interim results and
    end-of-speech signals come first and the final result comes before any
    end-of-speech timer fires, exactly one [user_message] is emitted, with
    the text of the final result; end-of-speech signals, ends of the
    recogniser and timers that follow emit nothing, the transcript having
    been cleared.  In the speech-synthesis version, when interim results
    come first, [onresult] emits nothing and the first end of the
    recogniser after the final result emits exactly one [user_message],
    with the trimmed text of the final result; later ends and timers emit
    nothing. *)
Theorem C1_one_submission_per_utterance :
  forall (r : Render) (fin : SpeechRecognitionEvent),
    conversationMode r = true ->
    truthy (trim (finalText fin)) = true ->
    (forall (w : Clip.World) (sock : Socket) (pre post : list Clip.Event),
        Clip.activeSocket r w = Some sock ->
        truthy (Clip.activeSessionId r w) = true ->
        forallb Clip_capturing pre = true ->
        forallb Clip_closing post = true ->
        submissions (Clip.trace (Clip.run r w (pre ++ Clip.result fin :: post)))
        = submissions (Clip.trace w) ++ [(Clip.activeSessionId r w, finalText fin)])
    /\ (forall (w : Tts.World) (sock : Socket) (pre post : list Tts.Event),
          Tts.activeSocket r w = Some sock ->
          truthy (Tts.activeSessionId r w) = true ->
          forallb Tts_capturing pre = true ->
          forallb Tts_closing post = true ->
          existsb Tts_is_ended post = true ->
          submissions (Tts.trace (Tts.run r w (pre ++ Tts.result fin :: post)))
          = submissions (Tts.trace w)
            ++ [(Tts.activeSessionId r w, trim (finalText fin))]).
Proof.
  intros r fin Hcm Ht. pose proof (truthy_trim _ Ht) as Hf. split.
  - intros w sock pre post Hs Hi Hpre Hpost.
    rewrite Clip_run_app, Clip_run_cons. set (w1 := Clip.run r w pre).
    destruct (Clip_capture_run r pre w Hpre) as (Q1 & Q2 & Q3). fold w1 in Q1, Q2, Q3.
    assert (Hs1 : Clip.activeSocket r w1 = Some sock).
    { unfold Clip.activeSocket in *. now rewrite Q2. }
    assert (Hi1 : Clip.activeSessionId r w1 = Clip.activeSessionId r w).
    { unfold Clip.activeSessionId. now rewrite Q3. }
    rewrite <- Hi1 in Hi.
    destruct (Clip_final_step r w1 fin sock Hcm Hs1 Hi Ht) as (F1 & F2 & F3 & F4).
    destruct (Clip_closing_run r post _ F4 Hpost) as (C1 & _ & _).
    now rewrite C1, F1, Q1, Hi1.
  - intros w sock pre post Hs Hi Hpre Hpost Hex.
    rewrite Tts_run_app, Tts_run_cons. set (w1 := Tts.run r w pre).
    destruct (Tts_capture_run r pre w Hpre) as (Q1 & Q2 & Q3). fold w1 in Q1, Q2, Q3.
    assert (Hs1 : Tts.activeSocket r w1 = Some sock).
    { unfold Tts.activeSocket in *. now rewrite Q2. }
    assert (Hi1 : Tts.activeSessionId r w1 = Tts.activeSessionId r w).
    { unfold Tts.activeSessionId. now rewrite Q3. }
    destruct (Tts_onresult_quiet r w1 fin) as [(R1 & R2 & R3) R4].
    rewrite (or_else_truthy _ _ Hf), Hf in R4.
    change (Tts.step r w1 (Tts.result fin)) with (Tts.onresult r fin w1).
    set (w2 := Tts.onresult r fin w1) in *.
    assert (Hs2 : Tts.activeSocket r w2 = Some sock).
    { unfold Tts.activeSocket in *. now rewrite R2. }
    assert (Hi2 : Tts.activeSessionId r w2 = Tts.activeSessionId r w).
    { unfold Tts.activeSessionId in *. now rewrite R3. }
    rewrite (Tts_closing_run_pending r (finalText fin) post Hcm Ht w2 sock R4 Hs2);
      try assumption; try congruence.
Qed.

Lemma C1_witness :
  submissions
    (Clip.trace
       (Clip.run (render_on "") clip_joined
          ([Clip.result (interim_result "What is"); Clip.speechend]
           ++ Clip.result (final_result "What is gravity?")
              :: [Clip.timeout 0; Clip.ended])))
  = [("abc", "What is gravity?")]
  /\ submissions
       (Tts.trace
          (Tts.run (render_on "") tts_joined
             ([Tts.result (interim_result "What is")]
              ++ Tts.result (final_result "What is gravity?")
                 :: [Tts.speechend; Tts.ended; Tts.timeout 0; Tts.ended])))
     = [("abc", "What is gravity?")].
Proof.
  destruct (C1_one_submission_per_utterance (render_on "")
              (final_result "What is gravity?") eq_refl eq_refl) as [HC HT].
  split.
  - apply (HC clip_joined 1); vm_compute; reflexivity.
  - apply (HT tts_joined 1); vm_compute; reflexivity.
Defined.

(** C1 as stated fails where the code decides otherwise.  In the
    audio-clip version a final result whose text is blank is not
    submitted: no [user_message] at all.  In the speech-synthesis version
    the text submitted is the trimmed transcript, not the text of the final
    result. *)
Lemma C1_counterexample :
  submissions
    (Clip.trace
       (Clip.run (render_on "") clip_joined
          [Clip.result (interim_result "hm"); Clip.result (final_result " ");
           Clip.speechend; Clip.timeout 0]))
  = []
  /\ submissions
       (Tts.trace
          (Tts.run (render_on "") tts_joined
             [Tts.result (interim_result " what");
              Tts.result (final_result " what is gravity");
              Tts.speechend; Tts.ended]))
     = [("abc", "what is gravity")]
  /\ finalText (final_result " what is gravity") <> "what is gravity".
Proof.
  split; [vm_compute; reflexivity | split; [vm_compute; reflexivity | discriminate]].
Qed.

(** The audio-clip version submits twice when the end-of-speech timer
    fires before the final result: the timer sends the interim text and
    clears the transcript, and [onresult] sends the final text without
    looking at the transcript. *)
Lemma Clip_timer_before_final_submits_twice :
  submissions
    (Clip.trace
       (Clip.run (render_on "") clip_joined
          [Clip.result (interim_result "hello"); Clip.speechend; Clip.timeout 0;
           Clip.result (final_result "hello")]))
  = [("abc", "hello"); ("abc", "hello")].
Proof. vm_compute. reflexivity. Qed.

(** ** What the handlers never do *)

Lemma Tts_adds_refl (P : Action -> bool) (w : Tts.World) : Tts_adds P w w.
Proof. exists []. split; [now rewrite app_nil_r | reflexivity]. Qed.

Lemma Tts_adds_trans (P : Action -> bool) (w1 w2 w3 : Tts.World) :
  Tts_adds P w1 w2 -> Tts_adds P w2 w3 -> Tts_adds P w1 w3.
Proof.
  intros (a1 & E1 & F1) (a2 & E2 & F2). exists (a1 ++ a2). split.
  - now rewrite E2, E1, app_assoc.
  - rewrite forallb_app, F1, F2. reflexivity.
Qed.

Lemma Tts_adds_mono (P Q : Action -> bool) (w w' : Tts.World) :
  (forall a, Q a = true -> P a = true) ->
  Tts_adds Q w w' -> Tts_adds P w w'.
Proof.
  intros H (acts & E & F). exists acts. split; [exact E|].
  rewrite forallb_forall in *. auto.
Qed.

Lemma Tts_step_footprint (r : Render) (w : Tts.World) (e : Tts.Event) :
  Tts_adds (Tts_footprint e) w (Tts.step r w e).
Proof.
  destruct e; cbn [Tts.step];
    unfold Tts.onresult, Tts.onspeechend, Tts.onspeechstart, Tts.onerror, Tts.onend,
      Tts.on_connect, Tts.on_connected, Tts.on_session_joined, Tts.on_ai_start,
      Tts.on_ai_chunk, Tts.on_ai_complete, Tts.on_error, Tts.on_disconnect,
      Tts.utterance_started, Tts.utterance_done, Tts.utterance_onend,
      Tts.utterance_onerror, Tts.fire, Tts.handleSendMessage, Tts.speakChunk,
      Tts.processNextSpeech, Tts.synth_speak, Tts.setTimeout, Tts.stop, Tts.start;
    tts_adds.
Qed.

Lemma Tts_command_footprint_ok (r : Render) (w : Tts.World) (c : TtsCommand) :
  Tts_adds (Tts_command_footprint c) w (Tts_command r w c).
Proof.
  destruct c; cbn [Tts_command];
    unfold Tts.toggleConversationMode, Tts.toggleAudioMode, Tts.handleSpeak,
      Tts.handleVoiceInput, Tts.handleKeyPress_Enter, Tts.send_button_onClick,
      Tts.sessionData_effect, Tts.handleSendMessage, Tts.synth_speak, Tts.cancel,
      Tts.stop, Tts.start;
    tts_adds.
Qed.

Lemma Tts_input_adds (P : Action -> bool) (r0 : Render) (w : Tts.World) (i : TtsInput) :
  (forall a,
     match i with
     | delivered e => Tts_footprint e a
     | issued _ c => Tts_command_footprint c a
     end = true -> P a = true) ->
  Tts_adds P w (Tts_input r0 w i).
Proof.
  intros H. destruct i as [e | r c]; cbn [Tts_input].
  - eapply Tts_adds_mono; [exact H | apply Tts_step_footprint].
  - eapply Tts_adds_mono; [exact H | apply Tts_command_footprint_ok].
Qed.

Lemma Tts_inputs_adds (P : Action -> bool) (Q : TtsInput -> bool) (r0 : Render) :
  (forall w i, Q i = true -> Tts_adds P w (Tts_input r0 w i)) ->
  forall l w, forallb Q l = true -> Tts_adds P w (Tts_inputs r0 w l).
Proof.
  intros H l. induction l as [|i l IH]; intros w Hl.
  - apply Tts_adds_refl.
  - cbn [forallb] in Hl. apply andb_true_iff in Hl as [Hi Hl].
    unfold Tts_inputs. cbn [fold_left].
    eapply Tts_adds_trans; [apply H, Hi | apply IH, Hl].
Qed.

Lemma rerender_app (r : Render) (l l' : list Action) :
  rerender r (l ++ l') = rerender (rerender r l) l'.
Proof.
  revert r. induction l as [|a l IH]; intros r; [reflexivity|].
  destruct a; cbn [app rerender]; apply IH.
Qed.

Lemma rerender_stays_locked (l : list Action) :
  forall r, forallb (fun a => negb (clears_lock a)) l = true ->
  isConversationLocked r = true ->
  isConversationLocked (rerender r l) = true.
Proof.
  induction l as [|a l IH]; intros r Hl Hr; [exact Hr|].
  cbn [forallb] in Hl. apply andb_true_iff in Hl as [Ha Hl].
  destruct a; cbn [rerender]; try (apply IH; assumption).
  apply IH; [assumption|].
  destruct u; cbn [update isConversationLocked]; try assumption.
  destruct b; [reflexivity | discriminate Ha].
Qed.

Lemma submissions_none (l : list Action) :
  forallb (fun a => negb (is_submission a)) l = true -> submissions l = [].
Proof.
  induction l as [|a l IH]; intros H; [reflexivity|].
  cbn [forallb] in H. apply andb_true_iff in H as [Ha H].
  destruct a; cbn [submissions]; try (apply IH; assumption). discriminate Ha.
Qed.

Lemma starts_none (l : list Action) :
  forallb (fun a => negb (is_start a)) l = true -> starts l = 0.
Proof.
  induction l as [|a l IH]; intros H; [reflexivity|].
  cbn [forallb] in H. apply andb_true_iff in H as [Ha H].
  destruct a; cbn [starts]; try (apply IH; assumption). discriminate Ha.
Qed.

(** X1: the lock flag of the speech-synthesis version is never cleared.
    Whatever events are delivered and whatever commands are issued, in
    whatever renders, no handler calls setIsConversationLocked(false): a
    render in which the flag is set is followed only by renders in which it
    is set. *)
Theorem Tts_lock_is_never_cleared (r0 : Render) (w : Tts.World) (l : list TtsInput)
    (r : Render) :
  isConversationLocked r = true ->
  exists acts,
    Tts.trace (Tts_inputs r0 w l) = Tts.trace w ++ acts
    /\ isConversationLocked (rerender r acts) = true.
Proof.
  intros Hr.
  destruct (Tts_inputs_adds (fun a => negb (clears_lock a)) (fun _ => true) r0)
    with (l := l) (w := w) as (acts & E & F).
  - intros w' i _. apply Tts_input_adds. destruct i as [e | r' c].
    + destruct e; by_footprint.
    + destruct c; by_footprint.
  - clear. induction l; [reflexivity | assumption].
  - exists acts. split; [exact E|]. apply rerender_stays_locked; assumption.
Qed.

Lemma Tts_lock_is_never_cleared_witness :
  isConversationLocked render_locked = true
  /\ exists acts,
       Tts.trace (Tts_inputs (render_on "") (Tts.mounted 1) after_fatal_error)
       = Tts.trace (Tts.mounted 1) ++ acts
       /\ isConversationLocked (rerender render_locked acts) = true.
Proof.
  assert (H : isConversationLocked render_locked = true) by (vm_compute; reflexivity).
  split; [exact H|].
  exact (Tts_lock_is_never_cleared (render_on "") (Tts.mounted 1) after_fatal_error
           render_locked H).
Defined.

(** X2: in the speech-synthesis version a user_message leaves only when
    the recogniser ends, on the Enter key or on the send button.  No result
    event, timer, transport event, playback report or other button emits
    one, in any render. *)
Theorem Tts_submissions_only_on_end_or_keyboard (r0 : Render) (w : Tts.World)
    (l : list TtsInput) :
  forallb (fun i => negb (Tts_submits i)) l = true ->
  submissions (Tts.trace (Tts_inputs r0 w l)) = submissions (Tts.trace w).
Proof.
  intros Hl.
  destruct (Tts_inputs_adds (fun a => negb (is_submission a))
              (fun i => negb (Tts_submits i)) r0)
    with (l := l) (w := w) as (acts & E & F); [| exact Hl |].
  - intros w' i Hi. apply Tts_input_adds. destruct i as [e | r' c].
    + destruct e; try discriminate Hi; by_footprint.
    + destruct c; try discriminate Hi; by_footprint.
  - rewrite E, submissions_app, (submissions_none acts F). apply app_nil_r.
Qed.

Lemma Tts_submissions_only_on_end_or_keyboard_witness :
  forallb (fun i => negb (Tts_submits i)) nothing_said = true
  /\ submissions (Tts.trace (Tts_inputs (render_on "typed") (Tts.mounted 1) nothing_said))
     = submissions (Tts.trace (Tts.mounted 1)).
Proof.
  assert (H : forallb (fun i => negb (Tts_submits i)) nothing_said = true)
    by (vm_compute; reflexivity).
  split; [exact H|].
  exact (Tts_submissions_only_on_end_or_keyboard (render_on "typed") (Tts.mounted 1)
           nothing_said H).
Defined.

(** X3: in the speech-synthesis version start() is called on the recogniser
    only by a timer that fires, by the conversation button and by the
    microphone button.  No event of the recogniser, of the transport or of
    the synthesiser calls it directly. *)
Theorem Tts_start_only_from_timers_and_buttons (r0 : Render) (w : Tts.World)
    (l : list TtsInput) :
  forallb (fun i => negb (Tts_starts_recogniser i)) l = true ->
  starts (Tts.trace (Tts_inputs r0 w l)) = starts (Tts.trace w).
Proof.
  intros Hl.
  destruct (Tts_inputs_adds (fun a => negb (is_start a))
              (fun i => negb (Tts_starts_recogniser i)) r0)
    with (l := l) (w := w) as (acts & E & F); [| exact Hl |].
  - intros w' i Hi. apply Tts_input_adds. destruct i as [e | r' c].
    + destruct e; try discriminate Hi; by_footprint.
    + destruct c; try discriminate Hi; by_footprint.
  - rewrite E, starts_app, (starts_none acts F). apply Nat.add_0_r.
Qed.

Lemma Tts_start_only_from_timers_and_buttons_witness :
  forallb (fun i => negb (Tts_starts_recogniser i)) no_timer_no_button = true
  /\ starts (Tts.trace (Tts_inputs (render_on "typed") (Tts.mounted 1) no_timer_no_button))
     = starts (Tts.trace (Tts.mounted 1)).
Proof.
  assert (H : forallb (fun i => negb (Tts_starts_recogniser i)) no_timer_no_button = true)
    by (vm_compute; reflexivity).
  split; [exact H|].
  exact (Tts_start_only_from_timers_and_buttons (render_on "typed") (Tts.mounted 1)
           no_timer_no_button H).
Defined.

Lemma rerender_stays_off (l : list Action) :
  forall r, forallb (fun a => negb (turns_conversation_on a)) l = true ->
  conversationMode r = false ->
  conversationMode (rerender r l) = false.
Proof.
  induction l as [|a l IH]; intros r Hl Hr; [exact Hr|].
  cbn [forallb] in Hl. apply andb_true_iff in Hl as [Ha Hl].
  destruct a; cbn [rerender]; try (apply IH; assumption).
  apply IH; [assumption|].
  destruct u; cbn [update conversationMode]; try assumption.
  destruct b; [discriminate Ha | reflexivity].
Qed.

(** X4: conversation mode of the speech-synthesis version is switched on by
    the conversation button alone, and only when it is pressed in a render
    that has a recogniser, conversation mode off and the lock flag not set.
    Through every other input a render with conversation mode off is
    followed only by renders with conversation mode off. *)
Theorem Tts_conversation_mode_needs_unlocked_button (r0 : Render) (w : Tts.World)
    (l : list TtsInput) (r : Render) :
  forallb (fun i => negb (Tts_may_turn_on i)) l = true ->
  conversationMode r = false ->
  exists acts,
    Tts.trace (Tts_inputs r0 w l) = Tts.trace w ++ acts
    /\ conversationMode (rerender r acts) = false.
Proof.
  intros Hl Hr.
  destruct (Tts_inputs_adds (fun a => negb (turns_conversation_on a))
              (fun i => negb (Tts_may_turn_on i)) r0)
    with (l := l) (w := w) as (acts & E & F); [| exact Hl |].
  - intros w' i Hi. destruct i as [e | r' c].
    + apply Tts_input_adds. destruct e; by_footprint.
    + destruct c; try solve [apply Tts_input_adds; by_footprint].
      cbn [Tts_may_turn_on] in Hi. cbn [Tts_input Tts_command].
      unfold Tts.toggleConversationMode, Tts.stop.
      destruct (recognition r'), (conversationMode r'), (isConversationLocked r');
        cbn [negb andb] in Hi |- *; try discriminate Hi; tts_adds.
  - exists acts. split; [exact E|]. apply rerender_stays_off; assumption.
Qed.

Lemma Tts_conversation_mode_needs_unlocked_button_witness :
  forallb (fun i => negb (Tts_may_turn_on i)) after_fatal_error = true
  /\ conversationMode (rerender render_locked [set_state (setConversationMode false)]) = false
  /\ exists acts,
       Tts.trace (Tts_inputs (render_on "") (Tts.mounted 1) after_fatal_error)
       = Tts.trace (Tts.mounted 1) ++ acts
       /\ conversationMode
            (rerender (rerender render_locked [set_state (setConversationMode false)]) acts)
          = false.
Proof.
  assert (H : forallb (fun i => negb (Tts_may_turn_on i)) after_fatal_error = true)
    by (vm_compute; reflexivity).
  assert (H' : conversationMode
                 (rerender render_locked [set_state (setConversationMode false)]) = false)
    by (vm_compute; reflexivity).
  split; [exact H|]. split; [exact H'|].
  exact (Tts_conversation_mode_needs_unlocked_button (render_on "") (Tts.mounted 1)
           after_fatal_error _ H H').
Defined.

Lemma Clip_adds_refl (P : Action -> bool) (w : Clip.World) : Clip_adds P w w.
Proof. exists []. split; [now rewrite app_nil_r | reflexivity]. Qed.

Lemma Clip_adds_trans (P : Action -> bool) (w1 w2 w3 : Clip.World) :
  Clip_adds P w1 w2 -> Clip_adds P w2 w3 -> Clip_adds P w1 w3.
Proof.
  intros (a1 & E1 & F1) (a2 & E2 & F2). exists (a1 ++ a2). split.
  - now rewrite E2, E1, app_assoc.
  - rewrite forallb_app, F1, F2. reflexivity.
Qed.

Lemma Clip_adds_mono (P Q : Action -> bool) (w w' : Clip.World) :
  (forall a, Q a = true -> P a = true) ->
  Clip_adds Q w w' -> Clip_adds P w w'.
Proof.
  intros H (acts & E & F). exists acts. split; [exact E|].
  rewrite forallb_forall in *. auto.
Qed.

Lemma Clip_step_footprint (r : Render) (w : Clip.World) (e : Clip.Event) :
  Clip_adds (Clip_footprint e) w (Clip.step r w e).
Proof.
  destruct e; cbn [Clip.step];
    unfold Clip.onresult, Clip.onspeechend, Clip.onspeechstart, Clip.onerror,
      Clip.onend, Clip.on_connect, Clip.on_connected, Clip.on_session_joined,
      Clip.on_ai_start, Clip.on_ai_chunk, Clip.on_ai_complete, Clip.on_error,
      Clip.on_disconnect, Clip.audio_done, Clip.audio_onended, Clip.audio_onerror,
      Clip.play_rejected, Clip.play_resolved, Clip.audioMode_effect,
      Clip.handleComplete, Clip.enqueueAudio, Clip.stopCurrentAudio,
      Clip.playNextAudio, Clip.fire, Clip.handleSendMessage, Clip.clearTimeout,
      Clip.setTimeout, Clip.play, Clip.pause, Clip.stop, Clip.start;
    clip_adds.
Qed.

Lemma Clip_command_footprint_ok (r : Render) (w : Clip.World) (c : ClipCommand) :
  Clip_adds (Clip_command_footprint c) w (Clip_command r w c).
Proof.
  destruct c; cbn [Clip_command];
    unfold Clip.toggleConversationMode, Clip_toggleAudioMode, Clip_handleSpeak,
      Clip.handleVoiceInput,
      Clip.handleKeyPress_Enter, Clip.send_button_onClick, Clip.handleSendMessage,
      Clip.stop, Clip.start;
    clip_adds.
Qed.

Lemma Clip_input_adds (P : Action -> bool) (r0 : Render) (w : Clip.World) (i : ClipInput) :
  (forall a,
     match i with
     | clip_delivered e => Clip_footprint e a
     | clip_issued _ c => Clip_command_footprint c a
     end = true -> P a = true) ->
  Clip_adds P w (Clip_input r0 w i).
Proof.
  intros H. destruct i as [e | r c]; cbn [Clip_input].
  - eapply Clip_adds_mono; [exact H | apply Clip_step_footprint].
  - eapply Clip_adds_mono; [exact H | apply Clip_command_footprint_ok].
Qed.

Lemma Clip_inputs_adds (P : Action -> bool) (Q : ClipInput -> bool) (r0 : Render) :
  (forall w i, Q i = true -> Clip_adds P w (Clip_input r0 w i)) ->
  forall l w, forallb Q l = true -> Clip_adds P w (Clip_inputs r0 w l).
Proof.
  intros H l. induction l as [|i l IH]; intros w Hl.
  - apply Clip_adds_refl.
  - cbn [forallb] in Hl. apply andb_true_iff in Hl as [Hi Hl].
    unfold Clip_inputs. cbn [fold_left].
    eapply Clip_adds_trans; [apply H, Hi | apply IH, Hl].
Qed.

Lemma played_none (l : list Action) :
  forallb (fun a => negb (is_play a)) l = true -> played l = [].
Proof.
  induction l as [|a l IH]; intros H; [reflexivity|].
  cbn [forallb] in H. apply andb_true_iff in H as [Ha H].
  destruct a; cbn [played]; try (apply IH; assumption). discriminate Ha.
Qed.

Lemma Clip_interim_result_is_quiet (r : Render) (w : Clip.World)
    (ev : SpeechRecognitionEvent) :
  truthy (finalText ev) = false ->
  Clip_adds (fun a => negb (is_submission a)) w (Clip.onresult r ev w).
Proof.
  intros H. unfold Clip.onresult. rewrite H. cbn [andb]. clip_adds.
Qed.

(** X5: in the audio-clip version a user_message leaves only on a result
    event that carries final text, on a timer that fires, on the Enter key
    or on the send button.  Interim results, the ends of speech and of the
    recogniser, the transport events, the reports of the clips and the two
    voice buttons emit none, in any render. *)
Theorem Clip_submissions_only_on_final_timer_or_keyboard (r0 : Render) (w : Clip.World)
    (l : list ClipInput) :
  forallb (fun i => negb (Clip_submits i)) l = true ->
  submissions (Clip.trace (Clip_inputs r0 w l)) = submissions (Clip.trace w).
Proof.
  intros Hl.
  destruct (Clip_inputs_adds (fun a => negb (is_submission a))
              (fun i => negb (Clip_submits i)) r0)
    with (l := l) (w := w) as (acts & E & F); [| exact Hl |].
  - intros w' i Hi. destruct i as [e | r' c].
    + destruct e; try discriminate Hi;
        try solve [apply Clip_input_adds; by_footprint].
      cbn [Clip_submits] in Hi. apply negb_true_iff in Hi.
      cbn [Clip_input Clip.step]. apply Clip_interim_result_is_quiet, Hi.
    + apply Clip_input_adds. destruct c; try discriminate Hi; by_footprint.
  - rewrite E, submissions_app, (submissions_none acts F). apply app_nil_r.
Qed.

Lemma Clip_submissions_only_on_final_timer_or_keyboard_witness :
  forallb (fun i => negb (Clip_submits i)) clip_nothing_said = true
  /\ submissions
       (Clip.trace (Clip_inputs (render_on "typed") (Clip.mounted 1) clip_nothing_said))
     = submissions (Clip.trace (Clip.mounted 1)).
Proof.
  assert (H : forallb (fun i => negb (Clip_submits i)) clip_nothing_said = true)
    by (vm_compute; reflexivity).
  split; [exact H|].
  exact (Clip_submissions_only_on_final_timer_or_keyboard (render_on "typed")
           (Clip.mounted 1) clip_nothing_said H).
Defined.

(** X6: in the audio-clip version play() is called on a clip only when a
    reply completes, when a clip reports its end, its error or the
    rejection of its play(), when the audio mode changes, and when a
    message is replayed by hand. *)
Theorem Clip_play_only_from_replies_and_reports (r0 : Render) (w : Clip.World)
    (l : list ClipInput) :
  forallb (fun i => negb (Clip_plays i)) l = true ->
  played (Clip.trace (Clip_inputs r0 w l)) = played (Clip.trace w).
Proof.
  intros Hl.
  destruct (Clip_inputs_adds (fun a => negb (is_play a))
              (fun i => negb (Clip_plays i)) r0)
    with (l := l) (w := w) as (acts & E & F); [| exact Hl |].
  - intros w' i Hi. apply Clip_input_adds. destruct i as [e | r' c].
    + destruct e; try discriminate Hi; by_footprint.
    + destruct c; try discriminate Hi; by_footprint.
  - rewrite E, played_app, (played_none acts F). apply app_nil_r.
Qed.

Lemma Clip_play_only_from_replies_and_reports_witness :
  forallb (fun i => negb (Clip_plays i)) clip_no_reply = true
  /\ played (Clip.trace (Clip_inputs (render_on "typed") (Clip.mounted 1) clip_no_reply))
     = played (Clip.trace (Clip.mounted 1)).
Proof.
  assert (H : forallb (fun i => negb (Clip_plays i)) clip_no_reply = true)
    by (vm_compute; reflexivity).
  split; [exact H|].
  exact (Clip_play_only_from_replies_and_reports (render_on "typed")
           (Clip.mounted 1) clip_no_reply H).
Defined.

(** ** The microphone switched off by the user *)

Lemma Clip_take_silence (h : nat) (l : list (nat * (nat * Clip.Timer)))
    (cb : Clip.Timer) (rest : list (nat * (nat * Clip.Timer))) :
  forallb is_silence_timer l = true ->
  Clip.take_timer h l = Some (cb, rest) ->
  cb = Clip.silence_send /\ forallb is_silence_timer rest = true.
Proof.
  revert rest. induction l as [|[h' [ms cb']] l IH]; intros rest Hl Ht.
  - discriminate Ht.
  - cbn [forallb] in Hl. apply andb_true_iff in Hl as [Hc Hl].
    cbn [Clip.take_timer] in Ht. destruct (Nat.eqb h' h).
    + injection Ht as <- <-. split; [|exact Hl].
      destruct cb'; try discriminate Hc. reflexivity.
    + destruct (Clip.take_timer h l) as [[cb'' rest']|]; [|discriminate Ht].
      injection Ht as <- <-. destruct (IH rest' Hl eq_refl) as [-> Hr].
      split; [reflexivity|]. cbn [forallb]. rewrite Hc, Hr. reflexivity.
Qed.

Lemma Clip_handleSendMessage_frame (r : Render) (m : option string) (w : Clip.World) :
  Clip.micEnabledRef (Clip.handleSendMessage r m w) = Clip.micEnabledRef w
  /\ Clip.timers (Clip.handleSendMessage r m w) = Clip.timers w
  /\ starts (Clip.trace (Clip.handleSendMessage r m w)) = starts (Clip.trace w).
Proof.
  unfold Clip.handleSendMessage.
  destruct (Clip.activeSocket r w);
    repeat match goal with |- context [if ?c then _ else _] => destruct c end;
    clip_red; rewrite ?starts_app; cbn [starts]; rewrite ?Nat.add_0_r; auto.
Qed.

Lemma Clip_playNextAudio_frame (w : Clip.World) :
  Clip.micEnabledRef (Clip.playNextAudio w) = Clip.micEnabledRef w
  /\ Clip.timers (Clip.playNextAudio w) = Clip.timers w
  /\ starts (Clip.trace (Clip.playNextAudio w)) = starts (Clip.trace w).
Proof.
  unfold Clip.playNextAudio, Clip.play.
  repeat match goal with
         | |- context [if ?c then _ else _] => destruct c
         | |- context [match ?x with _ => _ end] => destruct x
         end;
    clip_red; rewrite ?starts_app; cbn [starts]; rewrite ?Nat.add_0_r; auto.
Qed.

Lemma Clip_audio_done_frame (how : Clip.Completion) (a : Audio) (w : Clip.World) :
  Clip.micEnabledRef w = false ->
  forallb is_silence_timer (Clip.timers w) = true ->
  (Clip.micEnabledRef (Clip.audio_done how a w) = false
   /\ forallb is_silence_timer (Clip.timers (Clip.audio_done how a w)) = true)
  /\ starts (Clip.trace (Clip.audio_done how a w)) = starts (Clip.trace w).
Proof.
  intros Hm Ht.
  assert (H : Clip.micEnabledRef (Clip.handleComplete a
                (if Clip.is_playing a w
                 then Clip.set_heard (Clip.heard w ++ [Finished a])
                        (Clip.set_playing (Clip.remove_audio a (Clip.playing w)) w)
                 else w)) = Clip.micEnabledRef w
              /\ Clip.timers (Clip.handleComplete a
                (if Clip.is_playing a w
                 then Clip.set_heard (Clip.heard w ++ [Finished a])
                        (Clip.set_playing (Clip.remove_audio a (Clip.playing w)) w)
                 else w)) = Clip.timers w
              /\ starts (Clip.trace (Clip.handleComplete a
                (if Clip.is_playing a w
                 then Clip.set_heard (Clip.heard w ++ [Finished a])
                        (Clip.set_playing (Clip.remove_audio a (Clip.playing w)) w)
                 else w))) = starts (Clip.trace w)).
  { unfold Clip.handleComplete.
    match goal with |- context [Clip.playNextAudio ?x] =>
      destruct (Clip_playNextAudio_frame x) as (A' & B' & C') end.
    rewrite A', B', C'.
    repeat match goal with
           | |- context [if ?c then _ else _] => destruct c
           | |- context [match ?x with _ => _ end] => destruct x
           end;
      clip_red; rewrite ?starts_app; cbn [starts]; rewrite ?Nat.add_0_r; auto. }
  destruct H as (A & B & C).
  unfold Clip.audio_done, Clip.audio_onended, Clip.audio_onerror, Clip.play_rejected.
  destruct how; rewrite A, B, C; auto.
Qed.

Lemma Clip_microphone_off_step (r : Render) (w : Clip.World) (e : Clip.Event) :
  Clip_microphone_off w ->
  Clip_is_error e = false ->
  Clip_microphone_off (Clip.step r w e)
  /\ starts (Clip.trace (Clip.step r w e)) = starts (Clip.trace w).
Proof.
  intros [Hm Ht] He. unfold Clip_microphone_off.
  destruct e as [ev| | |kind| | |sid|sid history| |chunk|full b64 mime|message|
                 |a|a|a|a|b|h|ms];
    try discriminate He; cbn [Clip.step].
  - (* result *)
    unfold Clip.onresult.
    set (w1 := if truthy _ then _ else w).
    assert (H1 : Clip.micEnabledRef w1 = Clip.micEnabledRef w
                 /\ Clip.timers w1 = Clip.timers w
                 /\ starts (Clip.trace w1) = starts (Clip.trace w)).
    { subst w1. destruct (truthy (or_else _ _)); clip_red;
        rewrite ?starts_app; cbn [starts]; rewrite ?Nat.add_0_r; auto. }
    destruct H1 as (A & B & C).
    destruct (truthy (finalText ev) && conversationMode r).
    + destruct (Clip_handleSendMessage_frame r (Some (finalText ev)) w1) as (A' & B' & C').
      clip_red. rewrite starts_app, A', B', C', A, B, C. cbn [starts].
      rewrite Nat.add_0_r. auto.
    + rewrite A, B, C. auto.
  - (* speechend *)
    unfold Clip.onspeechend, Clip.setTimeout. clip_red.
    rewrite forallb_app, Ht, starts_app. cbn. rewrite Nat.add_0_r. auto.
  - (* speechstart *)
    unfold Clip.onspeechstart, Clip.clearTimeout.
    destruct (Clip.silenceTimer w) as [h|]; clip_red; [|auto].
    destruct (Clip.take_timer h (Clip.timers w)) as [[cb rest]|] eqn:Hk; clip_red;
      rewrite starts_app; cbn [starts]; rewrite Nat.add_0_r; [|auto].
    destruct (Clip_take_silence _ _ _ _ Ht Hk) as [_ Hr]. auto.
  - (* ended *)
    unfold Clip.onend. clip_red. rewrite Hm, andb_false_r. cbn [andb]. clip_red.
    rewrite starts_app. cbn [starts]. rewrite Nat.add_0_r. auto.
  - (* connect *)
    unfold Clip.on_connect. clip_red. rewrite starts_app. cbn [starts].
    rewrite Nat.add_0_r. auto.
  - (* connected *)
    unfold Clip.on_connected. destruct (Clip.socketRef w); clip_red;
      rewrite ?starts_app; cbn [starts]; rewrite ?Nat.add_0_r; auto.
  - (* session_joined *)
    unfold Clip.on_session_joined. destruct history as [[|h hs]|]; clip_red;
      rewrite ?starts_app; cbn [starts]; rewrite ?Nat.add_0_r; auto.
  - (* ai_start *)
    unfold Clip.on_ai_start. clip_red. rewrite ?starts_app. cbn [starts].
    rewrite ?Nat.add_0_r. auto.
  - (* ai_chunk *)
    unfold Clip.on_ai_chunk. clip_red. rewrite ?starts_app. cbn [starts].
    rewrite ?Nat.add_0_r. auto.
  - (* ai_complete *)
    unfold Clip.on_ai_complete.
    set (w0 := Clip.set (setCurrentAIMessage "") _).
    assert (H0 : Clip.micEnabledRef w0 = false
                 /\ Clip.timers w0 = Clip.timers w
                 /\ starts (Clip.trace w0) = starts (Clip.trace w)).
    { subst w0. clip_red. rewrite ?starts_app. cbn [starts].
      rewrite ?Nat.add_0_r. auto. }
    destruct H0 as (A & B & C).
    set (w1 := match Clip.buildAudioUrl _ _ with Some _ => _ | None => w0 end).
    assert (H1 : Clip.micEnabledRef w1 = false
                 /\ Clip.timers w1 = Clip.timers w
                 /\ starts (Clip.trace w1) = starts (Clip.trace w)).
    { subst w1. destruct (Clip.buildAudioUrl _ _) as [u|]; [|auto].
      destruct (truthy u && audioMode r); [|auto].
      unfold Clip.enqueueAudio. destruct (negb (truthy u)); [auto|].
      clip_red. destruct (Clip.audioModeRef w0); [|clip_red; auto].
      match goal with |- context [Clip.playNextAudio ?x] =>
        destruct (Clip_playNextAudio_frame x) as (A' & B' & C') end.
      rewrite A', B', C'. clip_red. auto. }
    destruct H1 as (A1 & B1 & C1).
    rewrite A1, andb_false_r, A1, B1, C1. auto.
  - (* socket_error *)
    unfold Clip.on_error. clip_red. rewrite ?starts_app. cbn [starts].
    rewrite ?Nat.add_0_r. auto.
  - (* disconnect *)
    unfold Clip.on_disconnect. clip_red. rewrite ?starts_app. cbn [starts].
    rewrite ?Nat.add_0_r. auto.
  - (* clip_ended *) apply Clip_audio_done_frame; assumption.
  - (* clip_error *) apply Clip_audio_done_frame; assumption.
  - (* clip_rejected *) apply Clip_audio_done_frame; assumption.
  - (* clip_resolved *)
    unfold Clip.play_resolved. clip_red. rewrite ?starts_app. cbn [starts].
    rewrite ?Nat.add_0_r. auto.
  - (* audio_mode *)
    unfold Clip.audioMode_effect. destruct b; cbn [negb].
    + match goal with |- context [Clip.playNextAudio ?x] =>
        destruct (Clip_playNextAudio_frame x) as (A' & B' & C') end.
      rewrite A', B', C'. clip_red. auto.
    + unfold Clip.stopCurrentAudio, Clip.pause. clip_red.
      destruct (Clip.currentAudioRef w); clip_red; rewrite ?starts_app; cbn [starts];
        rewrite ?Nat.add_0_r; auto.
  - (* timeout *)
    destruct (Clip.take_timer h (Clip.timers w)) as [[cb rest]|] eqn:Hk; [|auto].
    destruct (Clip_take_silence _ _ _ _ Ht Hk) as [-> Hr].
    cbn [Clip.fire]. clip_red.
    destruct (truthy (trim (Clip.lastTranscriptRef w)) && conversationMode r);
      clip_red; [|auto].
    match goal with |- context [Clip.handleSendMessage r ?m ?x] =>
      destruct (Clip_handleSendMessage_frame r m x) as (A' & B' & C') end.
    rewrite starts_app, A', B', C'. clip_red. cbn [starts].
    rewrite Nat.add_0_r. auto.
  - (* tick *) clip_red. auto.
Qed.

(** X7: once the user has switched the microphone off (micEnabledRef is
    false) and no restart timer is pending, the audio-clip version does not
    call start() on the recogniser again by itself: through every sequence
    of events without a recogniser error, read in any render, micEnabledRef
    stays false, only timers of onspeechend are pending and start() is not
    called.  In particular neither the end of the recogniser nor the end
    of a reply schedules a restart. *)
Theorem Clip_microphone_stays_off (r : Render) (w : Clip.World) (es : list Clip.Event) :
  Clip_microphone_off w ->
  forallb (fun e => negb (Clip_is_error e)) es = true ->
  Clip_microphone_off (Clip.run r w es)
  /\ starts (Clip.trace (Clip.run r w es)) = starts (Clip.trace w).
Proof.
  revert w. induction es as [|e es IH]; intros w Hw Hes; [auto|].
  cbn [forallb] in Hes. apply andb_true_iff in Hes as [He Hes].
  apply negb_true_iff in He.
  destruct (Clip_microphone_off_step r w e Hw He) as [Hw' Hs].
  unfold Clip.run. cbn [fold_left].
  destruct (IH _ Hw' Hes) as [Hw'' Hs']. split; [exact Hw''|].
  unfold Clip.run in Hs'. rewrite Hs'. exact Hs.
Qed.

Lemma Clip_microphone_stays_off_witness :
  Clip_microphone_off clip_stopped
  /\ forallb (fun e => negb (Clip_is_error e)) clip_goes_on = true
  /\ Clip_microphone_off (Clip.run (render_on "") clip_stopped clip_goes_on)
  /\ starts (Clip.trace (Clip.run (render_on "") clip_stopped clip_goes_on))
     = starts (Clip.trace clip_stopped).
Proof.
  assert (H : Clip_microphone_off clip_stopped) by (split; vm_compute; reflexivity).
  assert (H' : forallb (fun e => negb (Clip_is_error e)) clip_goes_on = true)
    by (vm_compute; reflexivity).
  split; [exact H|]. split; [exact H'|].
  exact (Clip_microphone_stays_off (render_on "") clip_stopped clip_goes_on H H').
Defined.

(** ** The reply as it streams in *)

Lemma currentAIMessage_app (l l' : list Action) :
  forall s, currentAIMessage s (l ++ l') = currentAIMessage (currentAIMessage s l) l'.
Proof.
  induction l as [|a l IH]; intros s; [reflexivity|].
  destruct a as [| | | | | | | | | | |[]]; cbn [app currentAIMessage]; apply IH.
Qed.

Lemma currentAIMessage_frame (l : list Action) :
  forallb (fun a => negb (writes_reply a)) l = true ->
  forall s, currentAIMessage s l = s.
Proof.
  induction l as [|a l IH]; intros H s; [reflexivity|].
  cbn [forallb] in H. apply andb_true_iff in H as [Ha H].
  destruct a as [| | | | | | | | | | |[]]; cbn [currentAIMessage];
    try (apply IH; assumption); discriminate Ha.
Qed.

Lemma Tts_speakChunk_adds (r : Render) (text : string) (w : Tts.World) :
  Tts_adds speech_output w (Tts.speakChunk r text w).
Proof.
  unfold Tts.speakChunk, Tts.processNextSpeech, Tts.synth_speak. tts_adds.
Qed.

Lemma Tts_chunk_appends (r : Render) (chunk : string) (w : Tts.World) :
  exists acts,
    Tts.trace (Tts.on_ai_chunk r chunk w) = Tts.trace w ++ acts
    /\ forall s, currentAIMessage s acts = (s ++ chunk)%string.
Proof.
  unfold Tts.on_ai_chunk.
  destruct (audioMode r).
  - destruct (Tts_speakChunk_adds r chunk (Tts.set (appendCurrentAIMessage chunk) w))
      as (acts & E & F).
    exists (set_state (appendCurrentAIMessage chunk) :: acts). split.
    + rewrite E. tts_red. rewrite <- app_assoc. reflexivity.
    + intros s. cbn [currentAIMessage]. apply currentAIMessage_frame.
      rewrite forallb_forall in *. intros a Ha. specialize (F a Ha).
      destruct a as [| | | | | | | | | | |[]]; try discriminate F; reflexivity.
  - exists [set_state (appendCurrentAIMessage chunk)]. split; [reflexivity|].
    intros s. reflexivity.
Qed.

Lemma append_empty_r (s : string) : (s ++ "")%string = s.
Proof. induction s as [|c s IH]; cbn; [reflexivity | now rewrite IH]. Qed.

Lemma append_assoc (a b c : string) : ((a ++ b) ++ c)%string = (a ++ (b ++ c))%string.
Proof. induction a as [|x a IH]; cbn; [reflexivity | now rewrite IH]. Qed.

Lemma concat_empty_cons (c : string) (l : list string) :
  String.concat "" (c :: l) = (c ++ String.concat "" l)%string.
Proof. destruct l; cbn [String.concat]; [now rewrite append_empty_r | reflexivity]. Qed.

Lemma Tts_step_keeps_reply (r : Render) (w : Tts.World) (e : Tts.Event) :
  Tts_within_reply e = true ->
  Tts_chunks [e] = [] ->
  Tts_adds (fun a => negb (writes_reply a)) w (Tts.step r w e).
Proof.
  intros He Hc. eapply Tts_adds_mono; [|apply Tts_step_footprint].
  destruct e; try discriminate He; try discriminate Hc; by_footprint.
Qed.

Lemma Tts_streaming_step (r : Render) (w : Tts.World) (e : Tts.Event) :
  Tts_within_reply e = true ->
  exists acts,
    Tts.trace (Tts.step r w e) = Tts.trace w ++ acts
    /\ forall s, currentAIMessage s acts
                 = (s ++ String.concat "" (Tts_chunks [e]))%string.
Proof.
  intros He. destruct (Tts_chunks [e]) as [|c l] eqn:Hc.
  - destruct (Tts_step_keeps_reply r w e He Hc) as (acts & E & F).
    exists acts. split; [exact E|]. intros s.
    rewrite (currentAIMessage_frame acts F). cbn. now rewrite append_empty_r.
  - destruct e; try discriminate Hc. cbn in Hc. injection Hc as <- <-.
    cbn [Tts.step String.concat]. apply Tts_chunk_appends.
Qed.

Lemma Tts_streaming_run (r : Render) (es : list Tts.Event) :
  forallb Tts_within_reply es = true ->
  forall w, exists acts,
    Tts.trace (Tts.run r w es) = Tts.trace w ++ acts
    /\ forall s, currentAIMessage s acts
                 = (s ++ String.concat "" (Tts_chunks es))%string.
Proof.
  induction es as [|e es IH]; intros Hes w.
  - exists []. split; [now rewrite app_nil_r|].
    intros s. cbn. now rewrite append_empty_r.
  - cbn [forallb] in Hes. apply andb_true_iff in Hes as [He Hes].
    unfold Tts.run. cbn [fold_left].
    destruct (IH Hes (Tts.step r w e)) as (acts' & E' & F').
    unfold Tts.run in E'.
    destruct (Tts_streaming_step r w e He) as (acts & E & F).
    exists (acts ++ acts'). split.
    + rewrite E', E, app_assoc. reflexivity.
    + intros s. rewrite currentAIMessage_app, F', F, append_assoc. f_equal.
      change (e :: es) with ([e] ++ es). unfold Tts_chunks.
      rewrite flat_map_app. fold (Tts_chunks [e]). fold (Tts_chunks es).
      destruct (Tts_chunks [e]) as [|c [|c' l]] eqn:Hc.
      * reflexivity.
      * cbn [app]. rewrite !concat_empty_cons. cbn [String.concat].
        now rewrite append_empty_r.
      * destruct e; discriminate Hc.
Qed.

(** X8: the text shown while a reply streams in.  After an ai_start event
    and any further events that neither open nor close a reply, the hook
    currentAIMessage holds the chunks received since, concatenated in the
    order of arrival, whatever it held before and whatever the recogniser,
    the synthesiser, the timers and the transport did meanwhile. *)
Theorem Tts_reply_is_the_chunks_in_order (r : Render) (w : Tts.World)
    (es : list Tts.Event) :
  forallb Tts_within_reply es = true ->
  exists acts,
    Tts.trace (Tts.run r w (Tts.ai_start :: es)) = Tts.trace w ++ acts
    /\ forall before,
         currentAIMessage before acts = String.concat "" (Tts_chunks es).
Proof.
  intros Hes. unfold Tts.run. cbn [fold_left Tts.step].
  destruct (Tts_streaming_run r es Hes (Tts.on_ai_start r w)) as (acts & E & F).
  exists (set_state (setIsAIResponding true) :: set_state (setCurrentAIMessage "") :: acts).
  split.
  - unfold Tts.run in E. rewrite E. unfold Tts.on_ai_start. tts_red.
    rewrite <- !app_assoc. reflexivity.
  - intros before. cbn [currentAIMessage]. rewrite F. reflexivity.
Qed.

Lemma Tts_reply_is_the_chunks_in_order_witness :
  forallb Tts_within_reply gravity_chunks = true
  /\ exists acts,
       Tts.trace (Tts.run (render_on "") (Tts.mounted 1) (Tts.ai_start :: gravity_chunks))
       = Tts.trace (Tts.mounted 1) ++ acts
       /\ forall before,
            currentAIMessage before acts = String.concat "" (Tts_chunks gravity_chunks).
Proof.
  assert (H : forallb Tts_within_reply gravity_chunks = true) by (vm_compute; reflexivity).
  split; [exact H|].
  exact (Tts_reply_is_the_chunks_in_order (render_on "") (Tts.mounted 1) gravity_chunks H).
Defined.

(** ** What is emitted *)

Lemma Tts_handleSendMessage_well_formed (r : Render) (m : option string) (w : Tts.World) :
  Tts_adds well_formed w (Tts.handleSendMessage r m w).
Proof.
  unfold Tts.handleSendMessage.
  destruct (Tts.activeSocket r w) as [sock|]; [|tts_adds].
  destruct (truthy (trim _) && truthy (Tts.activeSessionId r w)) eqn:Hc; [|tts_adds].
  apply andb_true_iff in Hc as [Ht Hs].
  eexists. split.
  - tts_red. rewrite <- !app_assoc. reflexivity.
  - cbn [app forallb well_formed andb].
    change (Tts.activeSessionId r _) with (Tts.activeSessionId r w).
    rewrite Hs, Ht. reflexivity.
Qed.

Lemma well_formed_unless_submission (P : Action -> bool) :
  (forall a, P a = true -> is_submission a = false) ->
  forall a, P a = true -> well_formed a = true.
Proof. intros H a Ha. specialize (H a Ha). destruct a; try reflexivity. discriminate H. Qed.

Lemma Tts_act_adds (P : Action -> bool) (a : Action) (w : Tts.World) :
  P a = true -> Tts_adds P w (Tts.act a w).
Proof. intros H. exists [a]. split; [reflexivity|]. cbn. rewrite H. reflexivity. Qed.

Lemma Tts_onend_well_formed (r : Render) (w : Tts.World) :
  Tts_adds well_formed w (Tts.onend r w).
Proof.
  unfold Tts.onend.
  set (w0 := Tts.set_isRecognitionRunningRef false w).
  assert (H0 : Tts_adds well_formed w w0) by (subst w0; tts_adds).
  set (w1 := if truthy _ && conversationMode r then _ else w0).
  assert (H1 : Tts_adds well_formed w0 w1).
  { subst w1. destruct (truthy _ && conversationMode r); [|apply Tts_adds_refl].
    eapply Tts_adds_trans; [apply Tts_handleSendMessage_well_formed|]. tts_adds. }
  eapply Tts_adds_trans; [exact H0|]. eapply Tts_adds_trans; [exact H1|].
  unfold Tts.setTimeout. tts_adds.
Qed.

Lemma Tts_input_well_formed (r0 : Render) (w : Tts.World) (i : TtsInput) :
  Tts_adds well_formed w (Tts_input r0 w i).
Proof.
  destruct i as [e | r c].
  - destruct e;
      try solve [apply Tts_input_adds; apply well_formed_unless_submission; by_footprint].
    cbn [Tts_input Tts.step].
    eapply Tts_adds_trans; [|apply Tts_onend_well_formed]. tts_adds.
  - destruct c;
      try solve [apply Tts_input_adds; apply well_formed_unless_submission; by_footprint];
      cbn [Tts_input Tts_command].
    + apply Tts_handleSendMessage_well_formed.
    + unfold Tts.send_button_onClick. destruct (Tts.send_button_disabled r);
        [apply Tts_adds_refl | apply Tts_handleSendMessage_well_formed].
Qed.

(** X9: no handler of the speech-synthesis version ever emits a
    user_message without a session id or with a blank text: through every
    sequence of events and commands, in whatever renders, each user_message
    of the log carries a session id that is not empty and a text that is
    not blank. *)
Theorem Tts_every_submission_has_session_and_text (r0 : Render) (w : Tts.World)
    (l : list TtsInput) :
  exists acts,
    Tts.trace (Tts_inputs r0 w l) = Tts.trace w ++ acts
    /\ forall sock sid message,
         In (emit_user_message sock sid message) acts ->
         sid <> "" /\ trim message <> "".
Proof.
  destruct (Tts_inputs_adds well_formed (fun _ => true) r0) with (l := l) (w := w)
    as (acts & E & F).
  - intros w' i _. apply Tts_input_well_formed.
  - clear. induction l; [reflexivity | assumption].
  - exists acts. split; [exact E|]. intros sock sid message Hin.
    rewrite forallb_forall in F. specialize (F _ Hin). cbn [well_formed] in F.
    apply andb_true_iff in F as [Hs Ht].
    split; intros Heq; rewrite Heq in *; discriminate.
Qed.

Lemma Clip_handleSendMessage_well_formed (r : Render) (m : option string) (w : Clip.World) :
  Clip_adds well_formed w (Clip.handleSendMessage r m w).
Proof.
  unfold Clip.handleSendMessage.
  destruct (Clip.activeSocket r w) as [sock|]; [|clip_adds].
  destruct (truthy (trim _) && truthy (Clip.activeSessionId r w)) eqn:Hc; [|clip_adds].
  apply andb_true_iff in Hc as [Ht Hs].
  eexists. split.
  - clip_red. rewrite <- !app_assoc. reflexivity.
  - cbn [app forallb well_formed andb].
    change (Clip.activeSessionId r _) with (Clip.activeSessionId r w).
    rewrite Hs, Ht. reflexivity.
Qed.

Lemma Clip_onresult_well_formed (r : Render) (ev : SpeechRecognitionEvent)
    (w : Clip.World) :
  Clip_adds well_formed w (Clip.onresult r ev w).
Proof.
  unfold Clip.onresult.
  set (w1 := if truthy _ then _ else w).
  assert (H1 : Clip_adds well_formed w w1) by (subst w1; clip_adds).
  eapply Clip_adds_trans; [exact H1|].
  destruct (truthy (finalText ev) && conversationMode r); [|apply Clip_adds_refl].
  eapply Clip_adds_trans; [apply Clip_handleSendMessage_well_formed|]. clip_adds.
Qed.

Lemma Clip_fire_well_formed (r : Render) (cb : Clip.Timer) (w : Clip.World) :
  Clip_adds well_formed w (Clip.fire r cb w).
Proof.
  destruct cb; cbn [Clip.fire]; unfold Clip.start; try clip_adds.
  destruct (truthy _ && conversationMode r); [|apply Clip_adds_refl].
  eapply Clip_adds_trans; [apply Clip_handleSendMessage_well_formed|]. clip_adds.
Qed.

Lemma Clip_input_well_formed (r0 : Render) (w : Clip.World) (i : ClipInput) :
  Clip_adds well_formed w (Clip_input r0 w i).
Proof.
  destruct i as [e | r c].
  - destruct e;
      try solve [apply Clip_input_adds; apply well_formed_unless_submission; by_footprint];
      cbn [Clip_input Clip.step].
    + apply Clip_onresult_well_formed.
    + destruct (Clip.take_timer handle (Clip.timers w)) as [[cb rest]|];
        [|apply Clip_adds_refl].
      eapply Clip_adds_trans; [|apply Clip_fire_well_formed]. clip_adds.
  - destruct c;
      try solve [apply Clip_input_adds; apply well_formed_unless_submission; by_footprint];
      cbn [Clip_input Clip_command].
    + apply Clip_handleSendMessage_well_formed.
    + unfold Clip.send_button_onClick. destruct (Clip.send_button_disabled r);
        [apply Clip_adds_refl | apply Clip_handleSendMessage_well_formed].
Qed.

(** X10: no handler of the audio-clip version ever emits a user_message
    without a session id or with a blank text, through every sequence of
    events and commands, in whatever renders. *)
Theorem Clip_every_submission_has_session_and_text (r0 : Render) (w : Clip.World)
    (l : list ClipInput) :
  exists acts,
    Clip.trace (Clip_inputs r0 w l) = Clip.trace w ++ acts
    /\ forall sock sid message,
         In (emit_user_message sock sid message) acts ->
         sid <> "" /\ trim message <> "".
Proof.
  destruct (Clip_inputs_adds well_formed (fun _ => true) r0) with (l := l) (w := w)
    as (acts & E & F).
  - intros w' i _. apply Clip_input_well_formed.
  - clear. induction l; [reflexivity | assumption].
  - exists acts. split; [exact E|]. intros sock sid message Hin.
    rewrite forallb_forall in F. specialize (F _ Hin). cbn [well_formed] in F.
    apply andb_true_iff in F as [Hs Ht].
    split; intros Heq; rewrite Heq in *; discriminate.
Qed.

(** ** The timer of the end of speech *)

Lemma Clip_take_timer_none (h : nat) (l : list (nat * (nat * Clip.Timer))) :
  forallb (fun t => Nat.ltb (fst t) h) l = true ->
  Clip.take_timer h l = None.
Proof.
  induction l as [|[h' [ms cb]] l IH]; intros H; [reflexivity|].
  cbn [forallb fst] in H. apply andb_true_iff in H as [Hh H].
  cbn [Clip.take_timer]. apply Nat.ltb_lt in Hh.
  destruct (Nat.eqb_spec h' h) as [->|_]; [lia|].
  rewrite (IH H). reflexivity.
Qed.

Lemma Clip_take_timer_last (h ms : nat) (cb : Clip.Timer)
    (l : list (nat * (nat * Clip.Timer))) :
  forallb (fun t => Nat.ltb (fst t) h) l = true ->
  Clip.take_timer h (l ++ [(h, (ms, cb))]) = Some (cb, l).
Proof.
  induction l as [|[h' [ms' cb']] l IH]; intros H.
  - cbn. rewrite Nat.eqb_refl. reflexivity.
  - cbn [forallb fst] in H. apply andb_true_iff in H as [Hh H].
    cbn [app Clip.take_timer]. apply Nat.ltb_lt in Hh.
    destruct (Nat.eqb_spec h' h) as [->|_]; [lia|].
    rewrite (IH H). reflexivity.
Qed.

(** X11: in the audio-clip version the start of speech cancels the send
    that the end of speech had scheduled.  After onspeechend and then
    onspeechstart the 500 ms timer is no longer pending, the timers pending
    before are untouched, the transcript buffer is empty, nothing was
    submitted, and the handle of the cancelled timer fires nothing, in any
    render. *)
Theorem Clip_speechstart_cancels_pending_send (r r' : Render) (w : Clip.World) :
  Clip_handles_fresh w ->
  Clip.timers (Clip.run r w [Clip.speechend; Clip.speechstart]) = Clip.timers w
  /\ Clip.lastTranscriptRef (Clip.run r w [Clip.speechend; Clip.speechstart]) = ""
  /\ submissions (Clip.trace (Clip.run r w [Clip.speechend; Clip.speechstart]))
     = submissions (Clip.trace w)
  /\ Clip.step r' (Clip.run r w [Clip.speechend; Clip.speechstart])
       (Clip.timeout (Clip.nextTimer w))
     = Clip.run r w [Clip.speechend; Clip.speechstart].
Proof.
  intros Hf. unfold Clip_handles_fresh in Hf.
  unfold Clip.run. cbn [fold_left Clip.step].
  unfold Clip.onspeechstart, Clip.onspeechend, Clip.setTimeout, Clip.clearTimeout.
  clip_red. rewrite (Clip_take_timer_last _ 500 Clip.silence_send _ Hf). clip_red.
  rewrite !submissions_app. cbn [submissions]. rewrite !app_nil_r.
  repeat split; try reflexivity.
  cbn [Clip.step]. clip_red. rewrite (Clip_take_timer_none _ _ Hf). reflexivity.
Qed.

Lemma Clip_speechstart_cancels_pending_send_witness :
  Clip_handles_fresh clip_joined
  /\ Clip.timers (Clip.run (render_on "") clip_joined [Clip.speechend; Clip.speechstart])
     = Clip.timers clip_joined
  /\ Clip.lastTranscriptRef
       (Clip.run (render_on "") clip_joined [Clip.speechend; Clip.speechstart]) = ""
  /\ submissions
       (Clip.trace (Clip.run (render_on "") clip_joined [Clip.speechend; Clip.speechstart]))
     = submissions (Clip.trace clip_joined)
  /\ Clip.step (render_on "")
       (Clip.run (render_on "") clip_joined [Clip.speechend; Clip.speechstart])
       (Clip.timeout (Clip.nextTimer clip_joined))
     = Clip.run (render_on "") clip_joined [Clip.speechend; Clip.speechstart].
Proof.
  assert (H : Clip_handles_fresh clip_joined) by (vm_compute; reflexivity).
  split; [exact H|].
  exact (Clip_speechstart_cancels_pending_send (render_on "") (render_on "") clip_joined H).
Defined.

(** ** The loop of [onresult] *)

Lemma collect_spec (rs : list SpeechResult) :
  forall i f,
  collect rs i f
  = ((i ++ String.concat "" (map transcript (filter (fun r => negb (isFinal r)) rs)))%string,
     (f ++ String.concat "" (map transcript (filter isFinal rs)))%string).
Proof.
  induction rs as [|x rs IH]; intros i f.
  - cbn. now rewrite !append_empty_r.
  - cbn [collect filter]. destruct (isFinal x); cbn [negb map]; rewrite IH;
      rewrite ?concat_empty_cons, ?append_assoc; reflexivity.
Qed.

(** X12: the loop of onresult, in both versions.  The final text of a
    result event is the transcripts of its final results from resultIndex
    on, joined in order, and the interim text is that of its interim
    results; the results before resultIndex are not read, and a final
    result never contributes to the interim text nor an interim one to the
    final text. *)
Theorem onresult_splits_final_and_interim (e : SpeechRecognitionEvent) :
  finalText e = final_transcripts e
  /\ interimText e = interim_transcripts e.
Proof.
  unfold finalText, interimText, transcripts, final_transcripts, interim_transcripts.
  rewrite collect_spec. cbn [fst snd append]. split; reflexivity.
Qed.

(** ** The session data of a document *)

Lemma rerender_single (r : Render) (u : Update) :
  rerender r [set_state u] = update r u.
Proof. reflexivity. Qed.

Lemma existsb_last_eqb (d : SessionDataType) (ms : list Message) (m : Message) :
  text m = initialMessage d ->
  existsb (fun msg => String.eqb (text msg) (initialMessage d)) (ms ++ [m]) = true.
Proof.
  intros H. rewrite existsb_app. cbn [existsb]. rewrite H, String.eqb_refl.
  now rewrite orb_true_r.
Qed.

(** X13: the effect on the session data settles.  When the session data of
    a document arrives while the chat is hidden, the effect opens the chat
    and adds the initial message; run again in the render that follows, it
    does nothing; and if the chat is hidden again and the effect runs once
    more, it opens the chat and adds no second copy of the initial
    message. *)
Theorem Tts_initial_message_is_added_once (r : Render) (w : Tts.World)
    (d : SessionDataType) (acts : list Action) :
  sessionData r = Some d ->
  showChat r = false ->
  Tts.trace (Tts.sessionData_effect r w) = Tts.trace w ++ acts ->
  Tts.sessionData_effect (rerender r acts) (Tts.sessionData_effect r w)
  = Tts.sessionData_effect r w
  /\ Tts.sessionData_effect (update (rerender r acts) (setShowChat false))
       (Tts.sessionData_effect r w)
     = Tts.set (setShowChat true) (Tts.sessionData_effect r w).
Proof.
  intros Hd Hs. unfold Tts.sessionData_effect at 1. rewrite Hd, Hs. cbn [negb].
  destruct (truthy (initialMessage d)
            && negb (existsb (fun msg => String.eqb (text msg) (initialMessage d))
                       (messages r))) eqn:Hc; tts_red; intros E.
  - rewrite <- app_assoc in E. apply app_inv_head in E. subst acts.
    cbn [app rerender].
    unfold Tts.sessionData_effect. cbn [update sessionData showChat messages].
    rewrite Hd, Hs. cbn [negb]. rewrite Hc. split; [reflexivity|].
    rewrite existsb_last_eqb by reflexivity. rewrite andb_false_r. reflexivity.
  - apply app_inv_head in E. subst acts. cbn [rerender].
    unfold Tts.sessionData_effect. cbn [update sessionData showChat messages].
    rewrite Hd, Hs. cbn [negb]. rewrite Hc. split; reflexivity.
Qed.

Lemma Tts_initial_message_is_added_once_witness :
  sessionData render_document_arrived
  = Some {| sd_sessionId := "doc-1"; filename := "notes.pdf"; initialMessage := "Welcome" |}
  /\ showChat render_document_arrived = false
  /\ Tts.trace (Tts.sessionData_effect render_document_arrived (Tts.mounted 1))
     = Tts.trace (Tts.mounted 1)
       ++ [set_state (setShowChat true);
           set_state (appendMessage {| id := clock_id 0; text := "Welcome"; sender := ai;
                                       timestamp := 0; audioUrl := None |})]
  /\ Tts.sessionData_effect
       (rerender render_document_arrived
          [set_state (setShowChat true);
           set_state (appendMessage {| id := clock_id 0; text := "Welcome"; sender := ai;
                                       timestamp := 0; audioUrl := None |})])
       (Tts.sessionData_effect render_document_arrived (Tts.mounted 1))
     = Tts.sessionData_effect render_document_arrived (Tts.mounted 1)
  /\ Tts.sessionData_effect
       (update (rerender render_document_arrived
          [set_state (setShowChat true);
           set_state (appendMessage {| id := clock_id 0; text := "Welcome"; sender := ai;
                                       timestamp := 0; audioUrl := None |})])
          (setShowChat false))
       (Tts.sessionData_effect render_document_arrived (Tts.mounted 1))
     = Tts.set (setShowChat true)
         (Tts.sessionData_effect render_document_arrived (Tts.mounted 1)).
Proof.
  assert (H1 : sessionData render_document_arrived
               = Some {| sd_sessionId := "doc-1"; filename := "notes.pdf";
                         initialMessage := "Welcome" |}) by (vm_compute; reflexivity).
  assert (H2 : showChat render_document_arrived = false) by (vm_compute; reflexivity).
  assert (H3 : Tts.trace (Tts.sessionData_effect render_document_arrived (Tts.mounted 1))
               = Tts.trace (Tts.mounted 1)
                 ++ [set_state (setShowChat true);
                     set_state (appendMessage {| id := clock_id 0; text := "Welcome";
                                                 sender := ai; timestamp := 0;
                                                 audioUrl := None |})])
    by (vm_compute; reflexivity).
  split; [exact H1|]. split; [exact H2|]. split; [exact H3|].
  exact (Tts_initial_message_is_added_once render_document_arrived (Tts.mounted 1) _ _
           H1 H2 H3).
Defined.

(** ** The upload of a document *)

Lemma Uploader_read_pages_silent (pages : list (Js.Outcome (Js.Outcome (list string)))) :
  forall fullText, fst (Uploader.read_pages pages fullText) = [].
Proof.
  induction pages as [|[[items|e]|e] rest IH]; intros fullText; cbn; try reflexivity.
  specialize (IH (fullText ++ String.concat " " items ++ Uploader.newline)%string).
  destruct (Uploader.read_pages rest _) as [l y]. cbn in IH. subst l. reflexivity.
Qed.

Lemma Uploader_extractPdfText_silent (reading : Uploader.Reading) :
  fst (Uploader.extractPdfText reading) = [].
Proof.
  unfold Uploader.extractPdfText.
  destruct (Uploader.arrayBuffer reading) as [[]|e]; cbn; [|reflexivity].
  destruct (Uploader.document reading) as [pdf|e]; cbn; [|reflexivity].
  pose proof (Uploader_read_pages_silent pdf "") as H.
  destruct (Uploader.read_pages pdf "") as [l y]. cbn in H. subst l. reflexivity.
Qed.

(** X14: the callback of a successful upload.  handleFileDrop calls
    onUploadSuccess exactly when it is idle, the file is a PDF, the text of
    the document was extracted and the server accepted both the upload and
    the start of the conversation; the callback then receives the session
    id and the message of the second reply and the name of the dropped
    file. *)
Theorem Uploader_calls_back_iff_every_step_succeeds (isUploading : bool)
    (file : option Uploader.File) (env : Uploader.Env)
    (sid : option string) (fname : string) (msg : option string) :
  In (Uploader.onUploadSuccess sid fname msg)
     (fst (Uploader.handleFileDrop isUploading file env))
  <-> exists f pdfText result1 result2,
        isUploading = false
        /\ file = Some f
        /\ Uploader.type f = "application/pdf"
        /\ snd (Uploader.extractPdfText (Uploader.reading env)) = inl pdfText
        /\ accepted (Uploader.upload_response env) = Some result1
        /\ accepted (Uploader.start_response env) = Some result2
        /\ sid = Uploader.sessionId result2
        /\ fname = Uploader.name f
        /\ msg = Uploader.reply_message result2.
Proof.
  destruct isUploading.
  { cbn. split; [intros [] | intros (f & t & j1 & j2 & H & _); discriminate H]. }
  destruct file as [f|].
  2:{ cbn. split; [intros [H|[]]; discriminate H
                  | intros (f & t & j1 & j2 & _ & H & _); discriminate H]. }
  destruct (String.eqb_spec (Uploader.type f) "application/pdf") as [Hty|Hty].
  2:{ unfold Uploader.handleFileDrop.
      destruct (String.eqb_spec (Uploader.type f) "application/pdf") as [|_];
        [contradiction|].
      cbn. split; [intros [H|[]]; discriminate H|].
      intros (f' & t & j1 & j2 & _ & H & H' & _). injection H as <-. contradiction. }
  uploader_cases env Uploader_extractPdfText_silent; rewrite ?Hty; cbn.
  all: split;
    [ intros Hin;
      repeat match goal with
             | H : _ \/ _ |- _ => destruct H as [H|H]
             | H : False |- _ => destruct H
             end;
      try discriminate;
      match goal with H : Uploader.onUploadSuccess _ _ _ = _ |- _ =>
        injection H as <- <- <- end;
      do 4 eexists; repeat split; try reflexivity; assumption
    | intros (f' & t & j1 & j2 & _ & Hf & _ & Ht & H1 & H2 & -> & -> & ->);
      try discriminate;
      injection Hf as <-; injection H2 as <-; auto 12 ].
Qed.

(** X15: the busy flag is always released.  For a PDF dropped while idle,
    whatever the extraction and the server do, handleFileDrop first sets
    isUploading, sets it again only once, to false, as its last action, and
    never rejects. *)
Theorem Uploader_busy_flag_is_released (f : Uploader.File) (env : Uploader.Env) :
  Uploader.type f = "application/pdf" ->
  exists mid,
    fst (Uploader.handleFileDrop false (Some f) env)
    = Uploader.setIsUploading true :: mid ++ [Uploader.setIsUploading false]
    /\ forallb (fun a => negb (is_setIsUploading a)) mid = true
    /\ snd (Uploader.handleFileDrop false (Some f) env) = inl tt.
Proof.
  intros Hty. uploader_cases env Uploader_extractPdfText_silent; rewrite ?Hty; cbn.
  all: eexists; split;
    [ match goal with
      | |- _ :: ?l = _ :: ?m ++ _ =>
          let l' := eval cbv [removelast] in (removelast l) in
          instantiate (1 := l')
      end; reflexivity
    | split; reflexivity ].
Qed.

Lemma Uploader_busy_flag_is_released_witness :
  Uploader.type notes_pdf = "application/pdf"
  /\ exists mid,
       fst (Uploader.handleFileDrop false (Some notes_pdf) server_crashes)
       = Uploader.setIsUploading true :: mid ++ [Uploader.setIsUploading false]
       /\ forallb (fun a => negb (is_setIsUploading a)) mid = true
       /\ snd (Uploader.handleFileDrop false (Some notes_pdf) server_crashes) = inl tt.
Proof.
  split; [reflexivity|].
  exact (Uploader_busy_flag_is_released notes_pdf server_crashes eq_refl).
Defined.

(** X16: every upload ends in the callback or in a reported error, never
    in both and never in neither.  For a PDF dropped while idle, the hook
    ends with uploadError null exactly when onUploadSuccess was called; and
    when it ends with an error, uploadStatus is "Operation failed: "
    followed by the message of that error. *)
Theorem Uploader_ends_in_callback_or_error (f : Uploader.File) (env : Uploader.Env)
    (h : Uploader.Hook) :
  Uploader.type f = "application/pdf" ->
  (Uploader.uploadError
     (Uploader.rerender h (fst (Uploader.handleFileDrop false (Some f) env))) = None
   <-> existsb is_callback (fst (Uploader.handleFileDrop false (Some f) env)) = true)
  /\ forall e,
       Uploader.uploadError
         (Uploader.rerender h (fst (Uploader.handleFileDrop false (Some f) env))) = Some e ->
       Uploader.uploadStatus
         (Uploader.rerender h (fst (Uploader.handleFileDrop false (Some f) env)))
       = ("Operation failed: " ++ Js.message e)%string.
Proof.
  intros Hty. uploader_cases env Uploader_extractPdfText_silent; rewrite ?Hty; cbn.
  all: split; [split; intros H; try discriminate H; reflexivity|].
  all: intros err Herr; try discriminate Herr; injection Herr as <-; reflexivity.
Qed.

Lemma Uploader_ends_in_callback_or_error_witness :
  Uploader.type notes_pdf = "application/pdf"
  /\ (Uploader.uploadError
        (Uploader.rerender Uploader.initial
           (fst (Uploader.handleFileDrop false (Some notes_pdf) server_crashes))) = None
      <-> existsb is_callback
            (fst (Uploader.handleFileDrop false (Some notes_pdf) server_crashes)) = true)
  /\ forall e,
       Uploader.uploadError
         (Uploader.rerender Uploader.initial
            (fst (Uploader.handleFileDrop false (Some notes_pdf) server_crashes))) = Some e ->
       Uploader.uploadStatus
         (Uploader.rerender Uploader.initial
            (fst (Uploader.handleFileDrop false (Some notes_pdf) server_crashes)))
       = ("Operation failed: " ++ Js.message e)%string.
Proof.
  split; [reflexivity|].
  exact (Uploader_ends_in_callback_or_error notes_pdf server_crashes Uploader.initial
           eq_refl).
Defined.

(** X17: the requests of an upload.  The document is sent to
    /api/upload-pdf exactly when a PDF is dropped while idle and its text
    was extracted, and the request carries that file and that text; the
    conversation is started exactly when, besides, the server accepted the
    upload, and with the session id of that first reply.  Nothing is
    requested while an upload is in progress or for a file that is not a
    PDF. *)
Theorem Uploader_requests (isUploading : bool) (file : option Uploader.File)
    (env : Uploader.Env) :
  (forall f pdfText,
     In (Uploader.fetch_upload_pdf f pdfText)
        (fst (Uploader.handleFileDrop isUploading file env))
     <-> isUploading = false
         /\ file = Some f
         /\ Uploader.type f = "application/pdf"
         /\ snd (Uploader.extractPdfText (Uploader.reading env)) = inl pdfText)
  /\ (forall sid,
        In (Uploader.fetch_start_conversation sid)
           (fst (Uploader.handleFileDrop isUploading file env))
        <-> exists f pdfText result1,
              isUploading = false
              /\ file = Some f
              /\ Uploader.type f = "application/pdf"
              /\ snd (Uploader.extractPdfText (Uploader.reading env)) = inl pdfText
              /\ accepted (Uploader.upload_response env) = Some result1
              /\ sid = Uploader.sessionId result1).
Proof.
  destruct isUploading.
  { cbn. split; [intros f t | intros sid]; split;
      [intros [] | intros (H & _); discriminate H
      | intros [] | intros (f & t & j1 & H & _); discriminate H]. }
  destruct file as [f|].
  2:{ cbn. split; [intros f t | intros sid]; split;
        [intros [H|[]]; discriminate H | intros (_ & H & _); discriminate H
        | intros [H|[]]; discriminate H
        | intros (f & t & j1 & _ & H & _); discriminate H]. }
  destruct (String.eqb_spec (Uploader.type f) "application/pdf") as [Hty|Hty].
  2:{ unfold Uploader.handleFileDrop.
      destruct (String.eqb_spec (Uploader.type f) "application/pdf") as [|_];
        [contradiction|].
      cbn. split; [intros f' t | intros sid]; split;
        [intros [H|[]]; discriminate H
        | intros (_ & H & H' & _); injection H as <-; contradiction
        | intros [H|[]]; discriminate H
        | intros (f' & t & j1 & _ & H & H' & _); injection H as <-; contradiction]. }
  uploader_cases env Uploader_extractPdfText_silent; rewrite ?Hty; cbn.
  all: split; [intros f' t | intros sid]; split.
  all: try (intros Hin;
      repeat match goal with
             | H : _ \/ _ |- _ => destruct H as [H|H]
             | H : False |- _ => destruct H
             end;
      try discriminate;
      match goal with
      | H : Uploader.fetch_upload_pdf _ _ = _ |- _ => injection H as <- <-
      | H : Uploader.fetch_start_conversation _ = _ |- _ => injection H as <-
      end;
      repeat eexists; try reflexivity; assumption).
  all: try (intros (_ & Hf & _ & Ht); try discriminate;
            injection Hf as <-; injection Ht as <-; auto 12).
  all: intros (f' & t & j1 & _ & Hf & _ & Ht & H1 & ->); try discriminate;
    injection Hf as <-; injection H1 as <-; auto 12.
Qed.

Lemma Uploader_read_pages_loaded (pages : list (list string))
    (rest : list (Js.Outcome (Js.Outcome (list string)))) :
  forall fullText,
  Uploader.read_pages (map loaded pages ++ rest) fullText
  = Uploader.read_pages rest (fullText ++ pages_text pages)%string.
Proof.
  induction pages as [|items pages IH]; intros fullText.
  - cbn. now rewrite append_empty_r.
  - cbn [map app Uploader.read_pages loaded Js.await Js.bind Js.ret].
    specialize (IH (fullText ++ String.concat " " items ++ Uploader.newline)%string).
    destruct (Uploader.read_pages (map loaded pages ++ rest) _) as [l y].
    pose proof (Uploader_read_pages_silent rest
                  ((fullText ++ String.concat " " items ++ Uploader.newline)
                   ++ pages_text pages)%string) as Hs.
    rewrite <- IH in Hs. cbn [fst] in Hs. subst l. cbn [app].
    rewrite IH. unfold pages_text. cbn [map]. rewrite concat_empty_cons.
    fold (pages_text pages). rewrite !append_assoc. reflexivity.
Qed.

(** X18: the text extracted from a document.  When every page loads,
    extractPdfText gives the pages in order, each as its items joined by
    one space and ended by a line feed; when a page fails to load, or its
    text content does, the extraction rejects with the error of the first
    such page, whatever the pages after it are.  The extraction itself
    changes no state and sends nothing. *)
Theorem Uploader_extracts_the_pages_in_order (pages : list (list string))
    (e : Js.Error)
    (rest : list (Js.Outcome (Js.Outcome (list string)))) :
  Uploader.extractPdfText
    {| Uploader.arrayBuffer := Js.resolved tt;
       Uploader.document := Js.resolved (map loaded pages) |}
  = ([], inl (pages_text pages))
  /\ Uploader.extractPdfText
       {| Uploader.arrayBuffer := Js.resolved tt;
          Uploader.document :=
            Js.resolved (map loaded pages ++ Js.rejected e :: rest) |}
     = ([], inr e)
  /\ Uploader.extractPdfText
       {| Uploader.arrayBuffer := Js.resolved tt;
          Uploader.document :=
            Js.resolved
              (map loaded pages ++ Js.resolved (Js.rejected e) :: rest) |}
     = ([], inr e).
Proof.
  unfold Uploader.extractPdfText.
  cbn [Uploader.arrayBuffer Uploader.document Js.await Js.bind Js.ret].
  repeat split.
  - rewrite <- (app_nil_r (map loaded pages)), Uploader_read_pages_loaded. reflexivity.
  - rewrite Uploader_read_pages_loaded. reflexivity.
  - rewrite Uploader_read_pages_loaded. reflexivity.
Qed.

(** ** The sidebar element of the study material *)

(** X19: the viewer of the document never stays on its loading text and
    never rejects.  Whatever the request and the parser of the error body
    do, handleViewClick sets the loading text, opens the modal, sends one
    request and then sets the content exactly once more, as its last
    action.  That last content is the text of the document when the reply
    is ok and reports success, and otherwise a text that begins with
    "Error: ", "Server Error: " or "Network Error: ". *)
Theorem ActivePdfDisplay_view_ends_with_content
    (parse : string -> Js.Outcome (option string)) (sessionData : SessionDataType)
    (response : Js.Outcome ActivePdfDisplay.Response) :
  exists final,
    ActivePdfDisplay.handleViewClick parse sessionData response
    = ([loading; ActivePdfDisplay.setShowModal true;
        ActivePdfDisplay.fetch_pdf_content (sd_sessionId sessionData);
        ActivePdfDisplay.setContent final], inl tt)
    /\ match content_of response with
       | Some result => final = ActivePdfDisplay.pdfText result
       | None => reports_failure final = true
       end.
Proof.
  unfold ActivePdfDisplay.handleViewClick.
  destruct response as [[okb tx js]|e]; cbn -[Js.startsWith];
    [|eexists; split; reflexivity].
  destruct okb; cbn -[Js.startsWith].
  - destruct js as [[sb pdfText err]|e]; cbn; [destruct sb|]; cbn;
      eexists; split; reflexivity.
  - destruct tx as [errorText|e]; cbn -[Js.startsWith]; [|eexists; split; reflexivity].
    destruct (Js.startsWith errorText "<!"); cbn; [eexists; split; reflexivity|].
    destruct (parse errorText) as [errorJson_error|e]; cbn;
      eexists; split; reflexivity.
Qed.

Lemma length_substring_0 (n : nat) (s : string) :
  String.length (substring 0 n s) = Nat.min n (String.length s).
Proof.
  revert s. induction n as [|n IH]; intros s.
  - destruct s; reflexivity.
  - destruct s as [|c s]; [reflexivity|]. cbn. now rewrite IH.
Qed.

Lemma length_append (a b : string) :
  String.length (a ++ b)%string = String.length a + String.length b.
Proof. induction a as [|c a IH]; cbn; [reflexivity | now rewrite IH]. Qed.

Lemma startsWith_append (a b : string) : Js.startsWith (a ++ b)%string a = true.
Proof.
  induction a as [|c a IH]; cbn; [reflexivity|].
  now rewrite Ascii.eqb_refl, IH.
Qed.

(** X20: the file name shown in the sidebar.  It is never longer than 25
    characters; a name of at most 25 characters is shown as it is; a
    longer one is shown as its first 22 characters followed by three dots,
    25 characters in all. *)
Theorem ActivePdfDisplay_filename_fits (sessionData : SessionDataType) :
  String.length (ActivePdfDisplay.shown_filename sessionData) <= 25
  /\ (String.length (filename sessionData) <= 25 ->
      ActivePdfDisplay.shown_filename sessionData = filename sessionData)
  /\ (25 < String.length (filename sessionData) ->
      ActivePdfDisplay.shown_filename sessionData
      = (substring 0 22 (filename sessionData) ++ "...")%string
      /\ String.length (ActivePdfDisplay.shown_filename sessionData) = 25
      /\ Js.startsWith (filename sessionData) (substring 0 22 (filename sessionData))
         = true).
Proof.
  unfold ActivePdfDisplay.shown_filename.
  destruct (Nat.ltb_spec 25 (String.length (filename sessionData))) as [H|H].
  - rewrite length_append, length_substring_0. cbn [String.length].
    repeat split; try lia.
    clear H. generalize 22. generalize (filename sessionData).
    induction s as [|c s IH]; intros n; destruct n; cbn; try reflexivity.
    now rewrite Ascii.eqb_refl, IH.
  - repeat split; lia.
Qed.

(** ** The chat endpoint *)

(** X21: what the chat endpoint hands to the model.  The handler streams a
    reply exactly when the method is POST, the body of the request can be
    read and its messages can be spread; the model then receives one
    system message followed by the messages of the request, unchanged and
    in order, and the reply carries the header that allows every origin.
    The system prompt always begins with the tutor's guidelines. *)
Theorem ChatApi_model_receives_system_then_messages (req : ChatApi.Request)
    (headers : list (string * string)) (full : list ChatApi.ChatMessage) :
  (ChatApi.handler req = ChatApi.data_stream headers full
   <-> ChatApi.method req = "POST"
       /\ headers = [allow_origin]
       /\ exists body messages,
            ChatApi.json req = Js.resolved body
            /\ ChatApi.messages body = Js.resolved messages
            /\ full = system_message body :: messages)
  /\ forall pdfContext isInitial,
       Js.startsWith (ChatApi.systemPrompt pdfContext isInitial) ChatApi.base_prompt = true.
Proof.
  split.
  - unfold ChatApi.handler.
    destruct (String.eqb_spec (ChatApi.method req) "OPTIONS") as [Ho|Ho].
    { split; [discriminate|]. intros (Hm & _). rewrite Hm in Ho. discriminate Ho. }
    destruct (String.eqb_spec (ChatApi.method req) "POST") as [Hp|Hp]; cbn [negb].
    2:{ split; [discriminate|]. intros (Hm & _). contradiction. }
    destruct (ChatApi.json req) as [body|e].
    2:{ split; [discriminate|]. intros (_ & _ & b & m & H & _). discriminate H. }
    destruct (ChatApi.messages body) as [messages|e] eqn:Hm.
    2:{ split; [discriminate|].
        intros (_ & _ & b & m & H & H' & _). injection H as <-.
        rewrite Hm in H'. discriminate H'. }
    split.
    + intros H. injection H as <- <-. repeat split; auto.
      exists body, messages. auto.
    + intros (_ & -> & b & m & H & H' & ->). injection H as <-.
      rewrite Hm in H'. injection H' as <-. reflexivity.
  - intros pdfContext isInitial. unfold ChatApi.systemPrompt.
    destruct pdfContext as [c|]; [destruct (truthy c)|]; destruct isInitial;
      rewrite ?append_assoc; try apply startsWith_append;
      rewrite <- (append_empty_r ChatApi.base_prompt) at 1; apply startsWith_append.
Qed.

(** X22: the answers of the chat endpoint to every request.  OPTIONS is
    answered 200 without a body; any method other than OPTIONS and POST is
    answered 405 "Method not allowed" without any header; a POST is
    answered by the stream of the model or, when the body cannot be read,
    by 500 with the message of the error, "Internal server error" standing
    in for an empty one.  Every answer except the 405 allows every
    origin. *)
Theorem ChatApi_answers (req : ChatApi.Request) :
  (ChatApi.method req = "OPTIONS" ->
   exists headers, ChatApi.handler req = ChatApi.plain 200 headers None)
  /\ (ChatApi.method req <> "OPTIONS" -> ChatApi.method req <> "POST" ->
      ChatApi.handler req = ChatApi.plain 405 [] (Some "Method not allowed"))
  /\ (ChatApi.method req = "POST" ->
      (exists full, ChatApi.handler req = ChatApi.data_stream [allow_origin] full)
      \/ (exists headers e,
            (ChatApi.json req = Js.rejected e
             \/ exists body, ChatApi.json req = Js.resolved body
                             /\ ChatApi.messages body = Js.rejected e)
            /\ ChatApi.handler req
               = ChatApi.json_error 500 headers
                   (or_else (Js.message e) "Internal server error")))
  /\ (ChatApi.handler req = ChatApi.plain 405 [] (Some "Method not allowed")
      \/ In allow_origin (ChatApi.headers_of (ChatApi.handler req))).
Proof.
  unfold ChatApi.handler.
  destruct (String.eqb_spec (ChatApi.method req) "OPTIONS") as [Ho|Ho].
  { repeat split.
    - intros _. eexists. reflexivity.
    - intros H. contradiction.
    - intros H. rewrite H in Ho. discriminate Ho.
    - right. cbn. auto. }
  destruct (String.eqb_spec (ChatApi.method req) "POST") as [Hp|Hp]; cbn [negb].
  2:{ repeat split.
      - intros H. contradiction.
      - intros H. contradiction.
      - left. reflexivity. }
  repeat split.
  - intros H. contradiction.
  - intros _ H. contradiction.
  - intros _. destruct (ChatApi.json req) as [body|e].
    + destruct (ChatApi.messages body) as [messages|e] eqn:Hm.
      * left. eexists. reflexivity.
      * right. exists [("Content-Type", "application/json"); allow_origin], e.
        split; [|reflexivity]. right. exists body. auto.
    + right. exists [("Content-Type", "application/json"); allow_origin], e.
      split; [|reflexivity]. left. reflexivity.
  - right. destruct (ChatApi.json req) as [body|e];
      [destruct (ChatApi.messages body)|]; cbn; auto.
Qed.

(** ** A session of the speech-synthesis version *)

Lemma skipn_length_app {A} (l l' : list A) : skipn (length l) (l ++ l') = l'.
Proof. induction l as [|x l IH]; [reflexivity | exact IH]. Qed.

Lemma Tts_adds_logged (P : Action -> bool) (w w' : Tts.World) :
  Tts_adds P w w' -> forallb P (Tts_logged w w') = true.
Proof.
  intros (acts & E & F). unfold Tts_logged. rewrite E, skipn_length_app. exact F.
Qed.

Lemma rerender_locked_and_off (l : list Action) :
  forall r,
  forallb (fun a => negb (clears_lock a) && negb (turns_conversation_on a)) l = true ->
  isConversationLocked r = true -> conversationMode r = false ->
  isConversationLocked (rerender r l) = true /\ conversationMode (rerender r l) = false.
Proof.
  intros r H Hl Hc. split.
  - apply rerender_stays_locked; [|exact Hl].
    rewrite forallb_forall in *. intros a Ha. specialize (H a Ha).
    apply andb_true_iff in H. tauto.
  - apply rerender_stays_off; [|exact Hc].
    rewrite forallb_forall in *. intros a Ha. specialize (H a Ha).
    apply andb_true_iff in H. tauto.
Qed.

Lemma Tts_locked_press (r : Render) (w : Tts.World) (c : TtsCommand) :
  isConversationLocked r = true -> conversationMode r = false ->
  Tts_adds (fun a => negb (clears_lock a) && negb (turns_conversation_on a)) w
    (Tts_command r w c).
Proof.
  intros Hl Hc.
  destruct c; try solve [eapply Tts_adds_mono; [|apply Tts_command_footprint_ok];
                         by_footprint].
  cbn [Tts_command]. unfold Tts.toggleConversationMode. rewrite Hl, Hc. cbn [negb].
  destruct (recognition r); cbn [negb]; tts_adds.
Qed.

Lemma Tts_live_step_locked (stale : bool) (r0 r : Render) (w : Tts.World) (i : TtsLive) :
  isConversationLocked r = true -> conversationMode r = false ->
  isConversationLocked (fst (Tts_live_step stale r0 (r, w) i)) = true
  /\ conversationMode (fst (Tts_live_step stale r0 (r, w) i)) = false.
Proof.
  intros Hl Hc. destruct i as [e|c|d]; cbn [Tts_live_step fst].
  - apply rerender_locked_and_off; [|exact Hl|exact Hc].
    apply Tts_adds_logged. eapply Tts_adds_mono; [|apply Tts_step_footprint].
    destruct e; by_footprint.
  - apply rerender_locked_and_off; [|exact Hl|exact Hc].
    apply Tts_adds_logged. apply Tts_locked_press; assumption.
  - apply rerender_locked_and_off; [|exact Hl|exact Hc].
    apply Tts_adds_logged.
    eapply Tts_adds_mono;
      [|apply (Tts_command_footprint_ok (with_sessionData d r) w session_data_changed)].
    by_footprint.
Qed.

Lemma Tts_live_locked (stale : bool) (r0 : Render) (l : list TtsLive) :
  forall s,
  isConversationLocked (fst s) = true -> conversationMode (fst s) = false ->
  isConversationLocked (fst (Tts_live stale r0 s l)) = true
  /\ conversationMode (fst (Tts_live stale r0 s l)) = false.
Proof.
  induction l as [|i l IH]; intros [r w] Hl Hc; [auto|].
  unfold Tts_live. cbn [fold_left]. apply IH;
    apply (Tts_live_step_locked stale r0 r w i Hl Hc).
Qed.

(** X23: a manual stop of conversation mode is final.  When the
    conversation button is pressed while conversation mode is on, the
    render that follows has conversation mode off and the lock flag set;
    and through everything that can happen in the session afterwards
    (events, buttons, session data handed over by the parent), whether the
    handlers of the mount effect read the render they captured or the
    current one, conversation mode stays off and the lock flag stays set:
    the conversation button cannot switch it on again. *)
Theorem Tts_manual_stop_is_final (stale : bool) (r0 r : Render) (w : Tts.World)
    (l : list TtsLive) :
  recognition r = true ->
  conversationMode r = true ->
  conversationMode (fst (Tts_live stale r0 (r, w) (pressed press_conversation :: l))) = false
  /\ isConversationLocked
       (fst (Tts_live stale r0 (r, w) (pressed press_conversation :: l))) = true.
Proof.
  intros Hr Hc. unfold Tts_live. cbn [fold_left].
  assert (H : isConversationLocked
                (fst (Tts_live_step stale r0 (r, w) (pressed press_conversation))) = true
              /\ conversationMode
                   (fst (Tts_live_step stale r0 (r, w) (pressed press_conversation))) = false).
  { cbn [Tts_live_step fst Tts_command]. unfold Tts.toggleConversationMode, Tts.stop.
    rewrite Hr, Hc. cbn [negb]. unfold Tts_logged. tts_red.
    rewrite <- !app_assoc, skipn_length_app. cbn. auto. }
  destruct H as [Hl' Hc'].
  destruct (Tts_live_locked stale r0 l _ Hl' Hc') as [A B]. split; assumption.
Qed.

Lemma Tts_manual_stop_is_final_witness :
  recognition (render_on "") = true
  /\ conversationMode (render_on "") = true
  /\ conversationMode
       (fst (Tts_live true (update (render_on "") (setConversationMode false))
               (render_on "", Tts.mounted 1) (pressed press_conversation :: after_the_stop)))
     = false
  /\ isConversationLocked
       (fst (Tts_live true (update (render_on "") (setConversationMode false))
               (render_on "", Tts.mounted 1) (pressed press_conversation :: after_the_stop)))
     = true.
Proof.
  split; [reflexivity|]. split; [reflexivity|].
  exact (Tts_manual_stop_is_final true (update (render_on "") (setConversationMode false))
           (render_on "") (Tts.mounted 1) after_the_stop eq_refl eq_refl).
Defined.

(** ** Audio output off in the render that the handlers read *)

Lemma Clip_step_without_audio_mode (r : Render) (w : Clip.World) (e : Clip.Event) :
  audioMode r = false ->
  Clip.audioQueueRef w = [] ->
  Clip.audioQueueRef (Clip.step r w e) = []
  /\ played (Clip.trace (Clip.step r w e)) = played (Clip.trace w).
Proof.
  intros Ha Hq.
  assert (Hplay : forall w0, Clip.audioQueueRef w0 = [] ->
            Clip.audioQueueRef (Clip.playNextAudio w0) = []
            /\ played (Clip.trace (Clip.playNextAudio w0)) = played (Clip.trace w0)).
  { intros w0 H0. unfold Clip.playNextAudio. rewrite H0.
    destruct (negb (Clip.audioModeRef w0)); [auto|].
    destruct (is_some (Clip.currentAudioRef w0)); [auto|].
    clip_red. rewrite played_app. cbn. rewrite app_nil_r. auto. }
  assert (Hdone : forall how a, 
            Clip.audioQueueRef (Clip.audio_done how a w) = []
            /\ played (Clip.trace (Clip.audio_done how a w)) = played (Clip.trace w)).
  { intros how a.
    assert (H : Clip.audioQueueRef (Clip.handleComplete a
                  (if Clip.is_playing a w
                   then Clip.set_heard (Clip.heard w ++ [Finished a])
                          (Clip.set_playing (Clip.remove_audio a (Clip.playing w)) w)
                   else w)) = []
                /\ played (Clip.trace (Clip.handleComplete a
                  (if Clip.is_playing a w
                   then Clip.set_heard (Clip.heard w ++ [Finished a])
                          (Clip.set_playing (Clip.remove_audio a (Clip.playing w)) w)
                   else w))) = played (Clip.trace w)).
    { unfold Clip.handleComplete.
      match goal with |- context [Clip.playNextAudio ?x] =>
        destruct (Hplay x) as [A B] end.
      - destruct (Clip.is_playing a w); clip_red;
          destruct (Clip.currentAudioRef w) as [cur|]; try destruct (audio_eqb cur a);
          clip_red; rewrite Hq; clip_red; exact Hq.
      - rewrite A, B. split; [reflexivity|].
        destruct (Clip.is_playing a w); clip_red;
          destruct (Clip.currentAudioRef w) as [cur|]; try destruct (audio_eqb cur a);
          clip_red; rewrite Hq; clip_red; rewrite played_app; cbn; apply app_nil_r. }
    unfold Clip.audio_done, Clip.audio_onended, Clip.audio_onerror, Clip.play_rejected.
    destruct how; exact H. }
  destruct e as [ev| | |kind| | |sid|sid history| |chunk|full b64 mime|message|
                 |a|a|a|a|b|h|ms]; cbn [Clip.step]; try apply Hdone.
  - (* result *)
    unfold Clip.onresult, Clip.handleSendMessage.
    repeat match goal with
           | |- context [if ?c then _ else _] => destruct c
           | |- context [match ?x with _ => _ end] => destruct x
           end; clip_red; rewrite ?played_app; cbn [played]; rewrite ?app_nil_r; auto.
  - unfold Clip.onspeechend, Clip.setTimeout. clip_red. rewrite played_app. cbn.
    rewrite app_nil_r. auto.
  - unfold Clip.onspeechstart, Clip.clearTimeout.
    destruct (Clip.silenceTimer w) as [h|]; clip_red; [|auto].
    destruct (Clip.take_timer h (Clip.timers w)) as [[cb rest]|]; clip_red;
      rewrite played_app; cbn; rewrite app_nil_r; auto.
  - unfold Clip.onerror, Clip.setTimeout.
    repeat match goal with |- context [if ?c then _ else _] => destruct c end;
      clip_red; rewrite ?played_app; cbn [played]; rewrite ?app_nil_r; auto.
  - unfold Clip.onend, Clip.setTimeout.
    repeat match goal with |- context [if ?c then _ else _] => destruct c end;
      clip_red; rewrite ?played_app; cbn [played]; rewrite ?app_nil_r; auto.
  - unfold Clip.on_connect. clip_red. rewrite played_app. cbn. rewrite app_nil_r. auto.
  - unfold Clip.on_connected. destruct (Clip.socketRef w); clip_red;
      rewrite ?played_app; cbn [played]; rewrite ?app_nil_r; auto.
  - unfold Clip.on_session_joined. destruct history as [[|x hs]|]; clip_red;
      rewrite ?played_app; cbn [played]; rewrite ?app_nil_r; auto.
  - unfold Clip.on_ai_start. clip_red. rewrite ?played_app. cbn [played].
    rewrite ?app_nil_r. auto.
  - unfold Clip.on_ai_chunk. clip_red. rewrite ?played_app. cbn [played].
    rewrite ?app_nil_r. auto.
  - (* ai_complete *)
    unfold Clip.on_ai_complete. rewrite Ha.
    destruct (Clip.buildAudioUrl b64 mime) as [u|]; rewrite ?andb_false_r;
      unfold Clip.setTimeout;
      repeat match goal with |- context [if ?c then _ else _] => destruct c end;
      clip_red; rewrite ?played_app; cbn [played]; rewrite ?app_nil_r; auto.
  - unfold Clip.on_error. clip_red. rewrite ?played_app. cbn [played].
    rewrite ?app_nil_r. auto.
  - unfold Clip.on_disconnect. clip_red. rewrite ?played_app. cbn [played].
    rewrite ?app_nil_r. auto.
  - unfold Clip.play_resolved. clip_red. rewrite ?played_app. cbn [played].
    rewrite ?app_nil_r. auto.
  - (* audio_mode *)
    unfold Clip.audioMode_effect. destruct b; cbn [negb].
    + match goal with |- context [Clip.playNextAudio ?x] =>
        destruct (Hplay x) as [A B] end; [clip_red; exact Hq|].
      rewrite A, B. clip_red. auto.
    + unfold Clip.stopCurrentAudio, Clip.pause. clip_red.
      destruct (Clip.currentAudioRef w); clip_red; rewrite ?played_app; cbn [played];
        rewrite ?app_nil_r; auto.
  - (* timeout *)
    destruct (Clip.take_timer h (Clip.timers w)) as [[cb rest]|]; [|auto].
    destruct cb; cbn [Clip.fire]; unfold Clip.handleSendMessage, Clip.start;
      repeat match goal with
             | |- context [if ?c then _ else _] => destruct c
             | |- context [match ?x with _ => _ end] => destruct x
             end; clip_red; cbn [fst]; clip_red; rewrite ?played_app; cbn [played];
      rewrite ?app_nil_r; auto.
  - clip_red. auto.
Qed.

(** X24: the clips of the audio-clip version are gated by the audio mode
    of the render that the handlers read.  While that render has audio
    mode off and nothing waits in the queue, no event enqueues a clip and
    no event plays one, whatever audio data the replies carry and whatever
    the effect on the audio mode has stored in audioModeRef. *)
Theorem Clip_no_clip_without_audio_mode_in_render (r : Render) (es : list Clip.Event) :
  forall w,
  audioMode r = false ->
  Clip.audioQueueRef w = [] ->
  Clip.audioQueueRef (Clip.run r w es) = []
  /\ played (Clip.trace (Clip.run r w es)) = played (Clip.trace w).
Proof.
  induction es as [|e es IH]; intros w Ha Hq; [auto|].
  unfold Clip.run. cbn [fold_left].
  destruct (Clip_step_without_audio_mode r w e Ha Hq) as [Hq' Hp].
  destruct (IH _ Ha Hq') as [Hq'' Hp']. unfold Clip.run in Hq'', Hp'.
  rewrite Hq'', Hp', Hp. auto.
Qed.

Lemma Clip_no_clip_without_audio_mode_in_render_witness :
  audioMode render_audio_off = false
  /\ Clip.audioQueueRef (Clip.mounted 1) = []
  /\ Clip.audioQueueRef (Clip.run render_audio_off (Clip.mounted 1) clip_reply_with_audio) = []
  /\ played (Clip.trace (Clip.run render_audio_off (Clip.mounted 1) clip_reply_with_audio))
     = played (Clip.trace (Clip.mounted 1)).
Proof.
  assert (H1 : audioMode render_audio_off = false) by reflexivity.
  assert (H2 : Clip.audioQueueRef (Clip.mounted 1) = []) by (vm_compute; reflexivity).
  split; [exact H1|]. split; [exact H2|].
  exact (Clip_no_clip_without_audio_mode_in_render render_audio_off clip_reply_with_audio
           (Clip.mounted 1) H1 H2).
Defined.

Lemma Tts_step_without_audio_mode (r : Render) (w : Tts.World) (e : Tts.Event) :
  audioMode r = false ->
  Tts.speechQueueRef w = [] ->
  Tts.speechQueueRef (Tts.step r w e) = []
  /\ spoken (Tts.trace (Tts.step r w e)) = spoken (Tts.trace w).
Proof.
  intros Ha Hq.
  destruct e; cbn [Tts.step];
    unfold Tts.onresult, Tts.onspeechend, Tts.onspeechstart, Tts.onerror, Tts.onend,
      Tts.on_connect, Tts.on_connected, Tts.on_session_joined, Tts.on_ai_start,
      Tts.on_ai_chunk, Tts.on_ai_complete, Tts.on_error, Tts.on_disconnect,
      Tts.utterance_started, Tts.utterance_done, Tts.utterance_onend,
      Tts.utterance_onerror, Tts.fire, Tts.handleSendMessage,
      Tts.processNextSpeech, Tts.setTimeout, Tts.stop, Tts.start;
    rewrite ?Ha;
    repeat (tts_red; rewrite ?Hq;
            match goal with
            | |- context [if ?c then _ else _] => destruct c
            | |- context [match ?x with _ => _ end] => destruct x
            end);
    tts_red; cbn [fst]; tts_red; rewrite ?Hq, ?spoken_app; cbn [spoken];
    rewrite ?app_nil_r; auto.
Qed.

(** X25: the speech of the speech-synthesis version is gated by the audio
    mode of the render that the handlers read.  While that render has
    audio mode off and nothing waits in the speech queue, no event hands a
    text to the synthesiser and none enqueues one: neither the chunks of a
    reply nor the history of a joined session are spoken. *)
Theorem Tts_no_speech_without_audio_mode_in_render (r : Render) (es : list Tts.Event) :
  forall w,
  audioMode r = false ->
  Tts.speechQueueRef w = [] ->
  Tts.speechQueueRef (Tts.run r w es) = []
  /\ spoken (Tts.trace (Tts.run r w es)) = spoken (Tts.trace w).
Proof.
  induction es as [|e es IH]; intros w Ha Hq; [auto|].
  unfold Tts.run. cbn [fold_left].
  destruct (Tts_step_without_audio_mode r w e Ha Hq) as [Hq' Hp].
  destruct (IH _ Ha Hq') as [Hq'' Hp']. unfold Tts.run in Hq'', Hp'.
  rewrite Hq'', Hp', Hp. auto.
Qed.

Lemma Tts_no_speech_without_audio_mode_in_render_witness :
  audioMode render_audio_off = false
  /\ Tts.speechQueueRef (Tts.mounted 1) = []
  /\ Tts.speechQueueRef (Tts.run render_audio_off (Tts.mounted 1) tts_reply) = []
  /\ spoken (Tts.trace (Tts.run render_audio_off (Tts.mounted 1) tts_reply))
     = spoken (Tts.trace (Tts.mounted 1)).
Proof.
  assert (H1 : audioMode render_audio_off = false) by reflexivity.
  assert (H2 : Tts.speechQueueRef (Tts.mounted 1) = []) by reflexivity.
  split; [exact H1|]. split; [exact H2|].
  exact (Tts_no_speech_without_audio_mode_in_render render_audio_off tts_reply
           (Tts.mounted 1) H1 H2).
Defined.

(** ** The reset of the session *)

Lemma Tts_live_step_lock (stale : bool) (r0 r : Render) (w : Tts.World) (i : TtsLive) :
  isConversationLocked r = true ->
  isConversationLocked (fst (Tts_live_step stale r0 (r, w) i)) = true.
Proof.
  intros Hl. destruct i as [e|c|d]; cbn [Tts_live_step fst];
    (apply rerender_stays_locked; [|exact Hl]); apply Tts_adds_logged.
  - eapply Tts_adds_mono; [|apply Tts_step_footprint]. destruct e; by_footprint.
  - eapply Tts_adds_mono; [|apply Tts_command_footprint_ok]. destruct c; by_footprint.
  - eapply Tts_adds_mono;
      [|apply (Tts_command_footprint_ok (with_sessionData d r) w session_data_changed)].
    by_footprint.
Qed.

Lemma Tts_live_lock (stale : bool) (r0 : Render) (l : list TtsLive) :
  forall s,
  isConversationLocked (fst s) = true ->
  isConversationLocked (fst (Tts_live stale r0 s l)) = true.
Proof.
  induction l as [|i l IH]; intros [r w] Hl; [exact Hl|].
  unfold Tts_live. cbn [fold_left]. apply IH.
  apply (Tts_live_step_lock stale r0 r w i Hl).
Qed.

(** X26: the reset of the session, from the button to the lock.  While a
    document is loaded and messages are on screen, a click on "Remove &
    Reset Session" that is not confirmed changes nothing; a confirmed
    click leaves the component without session data, without messages and
    with the chat hidden, and sets the lock flag, which then stays set
    through everything that can happen in the session, a new document
    included. *)
Theorem Tts_confirmed_reset_clears_and_locks (stale : bool) (r0 r : Render)
    (w : Tts.World) (d : SessionDataType) (m : Message) (ms : list Message) :
  sessionData r = Some d ->
  messages r = m :: ms ->
  Tts_reset_click stale r0 false (r, w) = (r, w)
  /\ sessionData (fst (Tts_reset_click stale r0 true (r, w))) = None
  /\ messages (fst (Tts_reset_click stale r0 true (r, w))) = []
  /\ showChat (fst (Tts_reset_click stale r0 true (r, w))) = false
  /\ forall l,
       isConversationLocked
         (fst (Tts_live stale r0 (Tts_reset_click stale r0 true (r, w)) l)) = true.
Proof.
  intros Hd Hm. unfold Tts_reset_click. cbn [fst]. rewrite Hd.
  cbn [ActivePdfDisplay.handleResetClick negb clears_session existsb orb].
  split; [reflexivity|].
  assert (E : fst (Tts_live_step stale r0 (r, w) (handed None))
              = rerender (with_sessionData None r)
                  [set_state (setMessages []); set_state (setShowChat false);
                   set_state (setIsConversationLocked true)]).
  { cbn [Tts_live_step fst]. unfold Tts.sessionData_effect.
    cbn [with_sessionData sessionData messages]. rewrite Hm.
    unfold Tts_logged. tts_red. rewrite <- !app_assoc, skipn_length_app. reflexivity. }
  repeat split; try (rewrite E; reflexivity).
  intros l. apply Tts_live_lock. rewrite E. reflexivity.
Qed.

Lemma Tts_confirmed_reset_clears_and_locks_witness :
  sessionData render_in_conversation
  = Some {| sd_sessionId := "doc-1"; filename := "notes.pdf"; initialMessage := "Welcome" |}
  /\ messages render_in_conversation
     = {| id := clock_id 0; text := "Welcome"; sender := ai; timestamp := 0;
          audioUrl := None |} :: []
  /\ Tts_reset_click true (render_on "") false (render_in_conversation, Tts.mounted 1)
     = (render_in_conversation, Tts.mounted 1)
  /\ sessionData (fst (Tts_reset_click true (render_on "") true
                         (render_in_conversation, Tts.mounted 1))) = None
  /\ messages (fst (Tts_reset_click true (render_on "") true
                      (render_in_conversation, Tts.mounted 1))) = []
  /\ showChat (fst (Tts_reset_click true (render_on "") true
                      (render_in_conversation, Tts.mounted 1))) = false
  /\ forall l,
       isConversationLocked
         (fst (Tts_live true (render_on "")
                 (Tts_reset_click true (render_on "") true
                    (render_in_conversation, Tts.mounted 1)) l)) = true.
Proof.
  split; [reflexivity|]. split; [reflexivity|].
  exact (Tts_confirmed_reset_clears_and_locks true (render_on "") render_in_conversation
           (Tts.mounted 1) _ _ _ eq_refl eq_refl).
Defined.

(** ** From the upload to the conversation *)

(** X27: from the drop of a file to the first message.  When a PDF is
    dropped on a component that shows no chat and no message, and the
    server accepts the upload and the start of the conversation with a
    message that is not empty, the component ends with
    the session data of the document (the session id and the message of
    the second reply, the name of the file), the chat open and the
    message of the server as its one message.  When the text cannot be
    extracted or the server refuses either request, the component is left
    as it was. *)
Theorem Tts_upload_opens_the_conversation (stale : bool) (r0 r : Render) (w : Tts.World)
    (f : Uploader.File) (env : Uploader.Env) :
  Uploader.type f = "application/pdf" ->
  showChat r = false ->
  messages r = [] ->
  (forall pdfText result1 result2 msg,
     snd (Uploader.extractPdfText (Uploader.reading env)) = inl pdfText ->
     accepted (Uploader.upload_response env) = Some result1 ->
     accepted (Uploader.start_response env) = Some result2 ->
     Uploader.reply_message result2 = Some msg ->
     msg <> "" ->
     sessionData (fst (Tts_drop stale r0 f env (r, w)))
     = Some {| sd_sessionId := present (Uploader.sessionId result2);
               filename := Uploader.name f; initialMessage := msg |}
     /\ showChat (fst (Tts_drop stale r0 f env (r, w))) = true
     /\ messages (fst (Tts_drop stale r0 f env (r, w)))
        = [ {| id := clock_id (Tts.clock w); text := msg; sender := ai;
               timestamp := Tts.clock w; audioUrl := None |} ])
  /\ ((forall pdfText, snd (Uploader.extractPdfText (Uploader.reading env)) <> inl pdfText)
      \/ accepted (Uploader.upload_response env) = None
      \/ accepted (Uploader.start_response env) = None ->
      Tts_drop stale r0 f env (r, w) = (r, w)).
Proof.
  intros Hty Hs Hm. unfold Tts_drop.
  uploader_cases env Uploader_extractPdfText_silent; rewrite ?Hty; cbn.
  all: split;
    [ intros t j1 j2 msg Ht H1 H2 Hmsg Hne; try discriminate
    | intros [H|[H|H]]; try discriminate H; try reflexivity;
      try (exfalso; eapply H; reflexivity) ].
  all: injection H2 as <-; cbn in Hmsg; subst; cbn [session_data_of present];
    cbn [Tts_live_step fst]; unfold Tts.sessionData_effect;
    cbn [with_sessionData sessionData showChat messages initialMessage negb existsb];
    rewrite Hs, Hm; cbn [negb existsb andb];
    assert (Ht' : truthy msg = true) by (destruct msg; [contradiction | reflexivity]);
    rewrite Ht'; cbn [andb]; unfold Tts_logged; tts_red;
    rewrite <- !app_assoc, skipn_length_app; cbn; rewrite Hm; auto.
Qed.

Lemma Tts_upload_opens_the_conversation_witness :
  Uploader.type notes_pdf = "application/pdf"
  /\ showChat render_empty = false
  /\ messages render_empty = []
  /\ (forall pdfText result1 result2 msg,
        snd (Uploader.extractPdfText (Uploader.reading server_accepts)) = inl pdfText ->
        accepted (Uploader.upload_response server_accepts) = Some result1 ->
        accepted (Uploader.start_response server_accepts) = Some result2 ->
        Uploader.reply_message result2 = Some msg ->
        msg <> "" ->
        sessionData (fst (Tts_drop true (render_on "") notes_pdf server_accepts
                            (render_empty, Tts.mounted 1)))
        = Some {| sd_sessionId := present (Uploader.sessionId result2);
                  filename := Uploader.name notes_pdf; initialMessage := msg |}
        /\ showChat (fst (Tts_drop true (render_on "") notes_pdf server_accepts
                            (render_empty, Tts.mounted 1))) = true
        /\ messages (fst (Tts_drop true (render_on "") notes_pdf server_accepts
                            (render_empty, Tts.mounted 1)))
           = [ {| id := clock_id (Tts.clock (Tts.mounted 1)); text := msg; sender := ai;
                  timestamp := Tts.clock (Tts.mounted 1); audioUrl := None |} ])
  /\ ((forall pdfText,
         snd (Uploader.extractPdfText (Uploader.reading server_accepts)) <> inl pdfText)
      \/ accepted (Uploader.upload_response server_accepts) = None
      \/ accepted (Uploader.start_response server_accepts) = None ->
      Tts_drop true (render_on "") notes_pdf server_accepts (render_empty, Tts.mounted 1)
      = (render_empty, Tts.mounted 1)).
Proof.
  split; [reflexivity|]. split; [reflexivity|]. split; [reflexivity|].
  exact (Tts_upload_opens_the_conversation true (render_on "") render_empty (Tts.mounted 1)
           notes_pdf server_accepts eq_refl eq_refl eq_refl).
Defined.

(** ** The replay of a clip by hand *)

Lemma existsb_remove_other (a c : Audio) (l : list Audio) :
  audio_eqb c a = false ->
  existsb (audio_eqb a) (Clip.remove_audio c l) = existsb (audio_eqb a) l.
Proof.
  intros Hca. induction l as [|b l IH]; [reflexivity|].
  cbn [Clip.remove_audio existsb]. destruct (audio_eqb c b) eqn:Hcb.
  - apply audio_eqb_eq in Hcb. subst b.
    assert (Hac : audio_eqb a c = false).
    { destruct (audio_eqb a c) eqn:E; [|reflexivity].
      apply audio_eqb_eq in E. subst c. now rewrite audio_eqb_refl in Hca. }
    rewrite Hac. exact IH.
  - cbn [existsb]. now rewrite IH.
Qed.

(** X28: a clip replayed by hand is outside the sequencer.  handleSpeak of
    the audio-clip version plays the clip of a message on an audio element
    of its own, whatever the audio mode is and whatever is sounding, and
    leaves the queue and the clip in flight as they are; when audio output
    is then turned off, the clip in flight is paused and the queue is
    emptied, but the replayed clip goes on sounding. *)
Theorem Clip_replay_is_outside_the_sequencer (r : Render) (w : Clip.World)
    (message : Message) (url : string) :
  audioUrl message = Some url ->
  url <> "" ->
  Clip_current_is_older w ->
  Clip.playing (Clip_handleSpeak message w)
  = Clip.playing w ++ [ {| audio_id := Clip.nextAudio w; audio_url := url |} ]
  /\ Clip.audioQueueRef (Clip_handleSpeak message w) = Clip.audioQueueRef w
  /\ Clip.currentAudioRef (Clip_handleSpeak message w) = Clip.currentAudioRef w
  /\ Clip.currentAudioRef
       (Clip.step r (Clip_handleSpeak message w) (Clip.audio_mode false)) = None
  /\ Clip.audioQueueRef
       (Clip.step r (Clip_handleSpeak message w) (Clip.audio_mode false)) = []
  /\ Clip.is_playing {| audio_id := Clip.nextAudio w; audio_url := url |}
       (Clip.step r (Clip_handleSpeak message w) (Clip.audio_mode false)) = true.
Proof.
  intros Hu Hne Hold. unfold Clip_handleSpeak. rewrite Hu.
  assert (Ht : truthy url = true) by (destruct url; [contradiction | reflexivity]).
  rewrite Ht. clip_red. repeat split.
  - cbn [Clip.step]. unfold Clip.audioMode_effect, Clip.stopCurrentAudio, Clip.pause.
    cbn [negb]. cbv zeta. clip_red.
    destruct (Clip.currentAudioRef w) eqn:Hc; clip_red; rewrite ?Hc; reflexivity.
  - cbn [Clip.step]. unfold Clip.audioMode_effect, Clip.stopCurrentAudio, Clip.pause.
    cbn [negb]. cbv zeta. clip_red.
    destruct (Clip.currentAudioRef w) eqn:Hc; clip_red; rewrite ?Hc; reflexivity.
  - cbn [Clip.step]. unfold Clip.audioMode_effect, Clip.stopCurrentAudio, Clip.pause,
      Clip.is_playing.
    cbn [negb]. cbv zeta. clip_red.
    destruct (Clip.currentAudioRef w) as [c|] eqn:Hc; clip_red.
    + rewrite existsb_remove_other.
      * rewrite existsb_app. cbn [existsb]. rewrite audio_eqb_refl.
        now rewrite orb_true_r.
      * specialize (Hold c Hc). unfold audio_eqb. cbn [audio_id].
        destruct (Nat.eqb_spec (audio_id c) (Clip.nextAudio w)) as [E|_]; [lia|].
        reflexivity.
    + rewrite existsb_app. cbn [existsb]. rewrite audio_eqb_refl.
      now rewrite orb_true_r.
Qed.

Lemma Clip_replay_is_outside_the_sequencer_witness :
  audioUrl message_with_clip = Some "data:audio/mpeg;base64,QUJD"
  /\ "data:audio/mpeg;base64,QUJD" <> ""
  /\ Clip_current_is_older clips_playing
  /\ Clip.playing (Clip_handleSpeak message_with_clip clips_playing)
     = Clip.playing clips_playing
       ++ [ {| audio_id := Clip.nextAudio clips_playing;
               audio_url := "data:audio/mpeg;base64,QUJD" |} ]
  /\ Clip.audioQueueRef (Clip_handleSpeak message_with_clip clips_playing)
     = Clip.audioQueueRef clips_playing
  /\ Clip.currentAudioRef (Clip_handleSpeak message_with_clip clips_playing)
     = Clip.currentAudioRef clips_playing
  /\ Clip.currentAudioRef
       (Clip.step (render_on "") (Clip_handleSpeak message_with_clip clips_playing)
          (Clip.audio_mode false)) = None
  /\ Clip.audioQueueRef
       (Clip.step (render_on "") (Clip_handleSpeak message_with_clip clips_playing)
          (Clip.audio_mode false)) = []
  /\ Clip.is_playing {| audio_id := Clip.nextAudio clips_playing;
                        audio_url := "data:audio/mpeg;base64,QUJD" |}
       (Clip.step (render_on "") (Clip_handleSpeak message_with_clip clips_playing)
          (Clip.audio_mode false)) = true.
Proof.
  assert (H1 : audioUrl message_with_clip = Some "data:audio/mpeg;base64,QUJD")
    by reflexivity.
  assert (H2 : "data:audio/mpeg;base64,QUJD" <> "") by discriminate.
  assert (H3 : Clip_current_is_older clips_playing).
  { intros c Hc. vm_compute in Hc. injection Hc as <-. vm_compute. lia. }
  split; [exact H1|]. split; [exact H2|]. split; [exact H3|].
  exact (Clip_replay_is_outside_the_sequencer (render_on "") clips_playing
           message_with_clip _ H1 H2 H3).
Defined.

(** ** The wrapper of the application *)

(** X29: what the wrapper shows when a drop has run to its end.  After a
    PDF dropped while idle the loading overlay is hidden, whatever
    happened; the banner shows nothing exactly when onUploadSuccess was
    called, and otherwise it shows the message of the error, which is also
    the end of the status "Operation failed: ...".  After a file that is
    not a PDF the banner shows "Only PDF files are supported.". *)
Theorem AppWrapper_shows_the_outcome (h : Uploader.Hook) (f : Uploader.File)
    (env : Uploader.Env) :
  Uploader.type f = "application/pdf" ->
  AppWrapper.showLoader
    (Uploader.rerender h (fst (Uploader.handleFileDrop false (Some f) env))) = false
  /\ (AppWrapper.StatusBanner
        (Uploader.rerender h (fst (Uploader.handleFileDrop false (Some f) env)))
      = AppWrapper.no_banner
      <-> existsb is_callback (fst (Uploader.handleFileDrop false (Some f) env)) = true)
  /\ (forall msg,
        AppWrapper.StatusBanner
          (Uploader.rerender h (fst (Uploader.handleFileDrop false (Some f) env)))
        = AppWrapper.error_banner msg ->
        Uploader.uploadStatus
          (Uploader.rerender h (fst (Uploader.handleFileDrop false (Some f) env)))
        = ("Operation failed: " ++ msg)%string)
  /\ (forall g,
        Uploader.type g <> "application/pdf" ->
        AppWrapper.StatusBanner
          (Uploader.rerender h (fst (Uploader.handleFileDrop false (Some g) env)))
        = AppWrapper.error_banner "Only PDF files are supported.").
Proof.
  intros Hty. split; [|split; [|split]].
  4:{ intros g Hg. unfold Uploader.handleFileDrop.
      destruct (String.eqb_spec (Uploader.type g) "application/pdf") as [|_];
        [contradiction|]. reflexivity. }
  all: revert h; uploader_cases env Uploader_extractPdfText_silent; rewrite ?Hty; cbn;
    intros h; try reflexivity.
  all: try (split; intros Hb; try discriminate Hb; reflexivity).
  all: intros msg' Hb; try discriminate Hb; injection Hb as <-; reflexivity.
Qed.

Lemma AppWrapper_shows_the_outcome_witness :
  Uploader.type notes_pdf = "application/pdf"
  /\ AppWrapper.showLoader
       (Uploader.rerender Uploader.initial
          (fst (Uploader.handleFileDrop false (Some notes_pdf) server_crashes))) = false
  /\ (AppWrapper.StatusBanner
        (Uploader.rerender Uploader.initial
           (fst (Uploader.handleFileDrop false (Some notes_pdf) server_crashes)))
      = AppWrapper.no_banner
      <-> existsb is_callback
            (fst (Uploader.handleFileDrop false (Some notes_pdf) server_crashes)) = true)
  /\ (forall msg,
        AppWrapper.StatusBanner
          (Uploader.rerender Uploader.initial
             (fst (Uploader.handleFileDrop false (Some notes_pdf) server_crashes)))
        = AppWrapper.error_banner msg ->
        Uploader.uploadStatus
          (Uploader.rerender Uploader.initial
             (fst (Uploader.handleFileDrop false (Some notes_pdf) server_crashes)))
        = ("Operation failed: " ++ msg)%string)
  /\ (forall g,
        Uploader.type g <> "application/pdf" ->
        AppWrapper.StatusBanner
          (Uploader.rerender Uploader.initial
             (fst (Uploader.handleFileDrop false (Some g) server_crashes)))
        = AppWrapper.error_banner "Only PDF files are supported.").
Proof.
  split; [reflexivity|].
  exact (AppWrapper_shows_the_outcome Uploader.initial notes_pdf server_crashes eq_refl).
Defined.

(** ** The component as it is mounted *)

Lemma skipn_length_nil {A} (l : list A) : skipn (length l) l = [].
Proof. induction l as [|x l IH]; [reflexivity | exact IH]. Qed.

Lemma Tts_mounted_run_app (s : Render * Tts.World) (l l' : list TtsLive) :
  Tts_mounted_run s (l ++ l') = Tts_mounted_run (Tts_mounted_run s l) l'.
Proof. apply fold_left_app. Qed.

(** The timer callbacks of the speech-synthesis version call [start()] on
    the recogniser state of the first render, which is null. *)
Lemma Tts_first_render_fire (cb : Tts.Timer) (w : Tts.World) :
  Tts.fire Tts_first_render cb w = w.
Proof.
  destruct cb; cbn [Tts.fire Tts_first_render recognition]; [reflexivity|].
  destruct (negb (Tts.isRecognitionRunningRef w)); reflexivity.
Qed.

Lemma Tts_first_render_event_never_starts (w : Tts.World) (e : Tts.Event) :
  Tts_adds (fun a => negb (is_start a)) w (Tts.step Tts_first_render w e).
Proof.
  destruct e;
    try solve [eapply Tts_adds_mono; [|apply Tts_step_footprint]; by_footprint].
  cbn [Tts.step].
  destruct (Tts.take_timer handle (Tts.timers w)) as [[cb rest]|];
    [|apply Tts_adds_refl].
  rewrite Tts_first_render_fire. exists []. split; [|reflexivity].
  tts_red. symmetry. apply app_nil_r.
Qed.

Lemma Tts_first_render_step_starts (w : Tts.World) (e : Tts.Event) :
  starts (Tts.trace (Tts.step Tts_first_render w e)) = starts (Tts.trace w).
Proof.
  destruct (Tts_first_render_event_never_starts w e) as (acts & E & F).
  rewrite E, starts_app, (starts_none acts F). apply Nat.add_0_r.
Qed.

Lemma Clip_first_render_fire (cb : Clip.Timer) (w : Clip.World) :
  starts (Clip.trace (Clip.fire Clip_first_render cb w)) = starts (Clip.trace w)
  /\ Clip.micActive (Clip.fire Clip_first_render cb w) = Clip.micActive w.
Proof.
  destruct cb; cbn [Clip.fire Clip_first_render recognition conversationMode].
  - unfold Clip.handleSendMessage.
    repeat match goal with
           | |- context [if ?c then _ else _] => destruct c
           | |- context [match ?x with _ => _ end] => destruct x
           end; clip_red; rewrite ?starts_app; cbn [starts];
      rewrite ?Nat.add_0_r; auto.
  - auto.
  - destruct (negb (Clip.isRecognitionRunningRef w)); clip_red; auto.
  - destruct (negb (Clip.isRecognitionRunningRef w)); auto.
Qed.

Lemma Clip_first_render_step_starts (w : Clip.World) (e : Clip.Event) :
  starts (Clip.trace (Clip.step Clip_first_render w e)) = starts (Clip.trace w).
Proof.
  assert (H : forall P, (forall a, Clip_footprint e a = true -> P a = true) ->
                        Clip_adds P w (Clip.step Clip_first_render w e)).
  { intros P HP. eapply Clip_adds_mono; [exact HP | apply Clip_step_footprint]. }
  destruct e;
    try solve [destruct (H (fun a => negb (is_start a))) as (acts & E & F);
               [by_footprint
               | rewrite E, starts_app, (starts_none acts F); apply Nat.add_0_r]].
  cbn [Clip.step].
  destruct (Clip.take_timer handle (Clip.timers w)) as [[cb rest]|]; [|reflexivity].
  rewrite (proj1 (Clip_first_render_fire cb _)). reflexivity.
Qed.

(** ** The recogniser restarted during playback *)

(** C2.  No restart timer starts the recogniser, whether or not a segment
    is in flight or queued.  The timers are set by the handlers of the
    mount effect and their callbacks call [start()] on the recogniser state
    of the first render, which is null: in the speech-synthesis version a
    timer that fires leaves everything as it is, in the audio-clip version
    it calls no [start()] and leaves the recogniser as it is; and in both
    versions no sequence of events, timers included, delivered in whatever
    state of the playback, adds a call of [start()]. *)
Theorem C2_no_restart_timer_starts_the_recogniser :
  (forall (cb : Tts.Timer) (w : Tts.World), Tts.fire Tts_first_render cb w = w)
  /\ (forall (es : list Tts.Event) (w : Tts.World),
        starts (Tts.trace (Tts.run Tts_first_render w es)) = starts (Tts.trace w))
  /\ (forall (cb : Clip.Timer) (w : Clip.World),
        starts (Clip.trace (Clip.fire Clip_first_render cb w)) = starts (Clip.trace w)
        /\ Clip.micActive (Clip.fire Clip_first_render cb w) = Clip.micActive w)
  /\ (forall (es : list Clip.Event) (w : Clip.World),
        starts (Clip.trace (Clip.run Clip_first_render w es)) = starts (Clip.trace w)).
Proof.
  split; [exact Tts_first_render_fire|].
  split; [|split; [exact Clip_first_render_fire|]].
  - induction es as [|e es IH]; intros w; [reflexivity|].
    unfold Tts.run. cbn [fold_left].
    fold (Tts.run Tts_first_render (Tts.step Tts_first_render w e) es).
    rewrite IH. apply Tts_first_render_step_starts.
  - induction es as [|e es IH]; intros w; [reflexivity|].
    unfold Clip.run. cbn [fold_left].
    fold (Clip.run Clip_first_render (Clip.step Clip_first_render w e) es).
    rewrite IH. apply Clip_first_render_step_starts.
Qed.

(** A timer of [onend] fires while a replayed message is sounding: nothing
    is started. *)
Lemma Tts_timer_fires_during_replay :
  let before :=
    Tts_session true true
      [handed (Some notes); happens Tts.ended; pressed (press_replay "Welcome");
       happens Tts.utterance_start] in
  let after := Tts_mounted_step before (happens (Tts.timeout 0)) in
  Tts.timers (snd before) = [(0, (1500, Tts.restart_if_stopped))]
  /\ Tts.synth (snd before) = [replayed "Welcome"]
  /\ isSpeaking (fst before) = true
  /\ Tts.timers (snd after) = []
  /\ starts (Tts.trace (snd after)) = 0
  /\ Tts.micActive (snd after) = false
  /\ Tts.synth (snd after) = [replayed "Welcome"].
Proof. vm_compute. repeat split. Qed.

(** A user command is another matter: the microphone button, whose handler
    reads the current render, calls [start()] while a replayed message is
    sounding and [isSpeaking] holds. *)
Lemma Tts_mic_button_starts_during_replay :
  let before :=
    Tts_session true true
      [handed (Some notes); pressed (press_replay "Welcome"); happens Tts.utterance_start] in
  let after := Tts_mounted_step before (pressed press_microphone) in
  Tts.synth (snd before) = [replayed "Welcome"]
  /\ isSpeaking (fst before) = true
  /\ starts (Tts.trace (snd before)) = 0
  /\ starts (Tts.trace (snd after)) = 1
  /\ Tts.synth (snd after) = [replayed "Welcome"].
Proof. vm_compute. repeat split. Qed.

(** ** Errors of the recogniser *)

Lemma Tts_first_render_event_never_listens (w : Tts.World) (e : Tts.Event) :
  Tts_adds (fun a => negb (is_start a) && negb (turns_listening_on a)) w
    (Tts.step Tts_first_render w e).
Proof.
  destruct e;
    try solve [eapply Tts_adds_mono; [|apply Tts_step_footprint]; by_footprint].
  cbn [Tts.step].
  destruct (Tts.take_timer handle (Tts.timers w)) as [[cb rest]|];
    [|apply Tts_adds_refl].
  rewrite Tts_first_render_fire. exists []. split; [|reflexivity].
  tts_red. symmetry. apply app_nil_r.
Qed.

Lemma Tts_mounted_step_locked (s : Render * Tts.World) (i : TtsLive) :
  isConversationLocked (fst s) = true -> conversationMode (fst s) = false ->
  isConversationLocked (fst (Tts_mounted_step s i)) = true
  /\ conversationMode (fst (Tts_mounted_step s i)) = false.
Proof.
  destruct s as [r w]. intros Hl Hc. unfold Tts_mounted_step.
  destruct (Tts_live_step_locked true Tts_first_render r w i Hl Hc) as [Hl' Hc'].
  destruct (Tts_live_step true Tts_first_render (r, w) i) as [r' w'].
  apply Tts_live_step_locked; assumption.
Qed.

Lemma Tts_mounted_run_locked (l : list TtsLive) :
  forall s,
  isConversationLocked (fst s) = true -> conversationMode (fst s) = false ->
  isConversationLocked (fst (Tts_mounted_run s l)) = true
  /\ conversationMode (fst (Tts_mounted_run s l)) = false.
Proof.
  induction l as [|i l IH]; intros s Hl Hc; [auto|].
  unfold Tts_mounted_run. cbn [fold_left].
  apply IH; apply (Tts_mounted_step_locked s i Hl Hc).
Qed.

(** C5 as stated fails in the audio-clip version: with conversation mode
    on, an error outside the whitelist turns conversation mode and
    listening off and sets no lock flag; that version has none. *)
Lemma C5_counterexample :
  whitelisted "network" = false
  /\ conversationMode (fst (Clip_session true [])) = true
  /\ Clip_logged (Clip.mounted 1)
       (snd (Clip_session true [clip_happens (Clip.error "network")]))
     = [set_state (setConversationMode false); set_state (setIsListening false)]
  /\ existsb sets_lock
       (Clip.trace (snd (Clip_session true [clip_happens (Clip.error "network")])))
     = false.
Proof. vm_compute. repeat split. Qed.

(** C5, amended.  The handlers of the recogniser read the first render, in
    which conversation mode is on and the lock flag is not set.  In both
    versions a no-speech error schedules the restart callback after
    1000 ms.  An error outside {no-speech, aborted} turns conversation mode
    and listening off; in the speech-synthesis version it also sets the
    lock flag, and from then on, through every event, button and document
    of the session, the lock flag stays set and conversation mode stays
    off; the audio-clip version has no lock flag.  No event handler of the
    speech-synthesis version calls [start()] or switches listening on. *)
Theorem C5_detector_error_policy :
  (forall w : Tts.World,
      Tts.step Tts_first_render w (Tts.error "no-speech")
      = Tts.setTimeout Tts.restart_unguarded 1000 w)
  /\ (forall w : Clip.World,
        Clip.step Clip_first_render w (Clip.error "no-speech")
        = Clip.setTimeout Clip.restart_unguarded 1000 w)
  /\ (forall kind : string,
        whitelisted kind = false ->
        (forall w : Tts.World,
            Tts.trace (Tts.step Tts_first_render w (Tts.error kind))
            = Tts.trace w ++ [set_state (setConversationMode false);
                              set_state (setIsListening false);
                              set_state (setIsConversationLocked true)])
        /\ (forall w : Clip.World,
              Clip.trace (Clip.step Clip_first_render w (Clip.error kind))
              = Clip.trace w ++ [set_state (setConversationMode false);
                                 set_state (setIsListening false)])
        /\ (forall (s : Render * Tts.World) (l : list TtsLive),
              isConversationLocked
                (fst (Tts_mounted_run (Tts_mounted_step s (happens (Tts.error kind))) l))
              = true
              /\ conversationMode
                   (fst (Tts_mounted_run (Tts_mounted_step s (happens (Tts.error kind))) l))
                 = false))
  /\ (forall (w : Tts.World) (e : Tts.Event),
        Tts_adds (fun a => negb (is_start a) && negb (turns_listening_on a)) w
          (Tts.step Tts_first_render w e)).
Proof.
  split; [reflexivity|]. split; [reflexivity|].
  split; [|exact Tts_first_render_event_never_listens].
  intros kind Hk. unfold whitelisted in Hk. apply orb_false_elim in Hk as [H1 H2].
  assert (HT : forall w : Tts.World,
             Tts.trace (Tts.step Tts_first_render w (Tts.error kind))
             = Tts.trace w ++ [set_state (setConversationMode false);
                               set_state (setIsListening false);
                               set_state (setIsConversationLocked true)]).
  { intros w. cbn [Tts.step]. unfold Tts.onerror. rewrite H1, H2. cbn [orb]. tts_red.
    rewrite <- !app_assoc. reflexivity. }
  split; [exact HT|]. split.
  - intros w. cbn [Clip.step]. unfold Clip.onerror. rewrite H1, H2. clip_red.
    rewrite <- !app_assoc. reflexivity.
  - intros [r w] l.
    assert (H : isConversationLocked
                  (fst (Tts_live_step true Tts_first_render (r, w)
                          (happens (Tts.error kind)))) = true
                /\ conversationMode
                     (fst (Tts_live_step true Tts_first_render (r, w)
                             (happens (Tts.error kind)))) = false).
    { cbn [Tts_live_step fst]. unfold Tts_logged. rewrite HT, skipn_length_app.
      cbn. auto. }
    destruct H as [Hl Hc]. unfold Tts_mounted_step.
    destruct (Tts_live_step true Tts_first_render (r, w) (happens (Tts.error kind)))
      as [r' w'].
    cbn [fst] in Hl, Hc.
    destruct (Tts_live_step_locked true Tts_first_render r' w'
                (pressed session_data_changed) Hl Hc) as [Hl' Hc'].
    apply Tts_mounted_run_locked; assumption.
Qed.

Lemma C5_witness :
  whitelisted "network" = false
  /\ isConversationLocked
       (fst (Tts_mounted_run
               (Tts_mounted_step (Tts_session true true [])
                  (happens (Tts.error "network"))) after_the_error)) = true
  /\ conversationMode
       (fst (Tts_mounted_run
               (Tts_mounted_step (Tts_session true true [])
                  (happens (Tts.error "network"))) after_the_error)) = false.
Proof.
  assert (H : whitelisted "network" = false) by reflexivity.
  split; [exact H|].
  exact (proj2 (proj2 (proj1 (proj2 (proj2 C5_detector_error_policy)) "network" H))
           (Tts_session true true []) after_the_error).
Defined.


(** ** History on session join *)

(** What a session join with a history does.  The handler of either
    version sets the messages to the history in its order (texts, senders
    and ids `history-0`, `history-1`, ...); the handler of the
    speech-synthesis version reads the session data of the first render,
    which are none, and also shows the chat.  In the speech-synthesis
    version the effect on the session data runs in the render that follows:
    when the component holds no document it removes the messages again,
    hides the chat and sets the lock flag, and when it holds one the
    history stays.  In the audio-clip version the history stays.  The join
    hands nothing to the synthesiser, to the speech queue or to the clip
    queue; and whatever render the handler of the speech-synthesis version
    reads, the one text it can hand to the speech sequencer is the content
    of the last entry whose role is 'tutor'. *)
Lemma History_on_session_join :
  forall (sid : string) (h : HistoryEntry) (hs : list HistoryEntry),
    (forall w : Tts.World,
        Tts.trace (Tts.step Tts_first_render w (Tts.session_joined sid (Some (h :: hs))))
        = Tts.trace w
          ++ [set_state (setIsConnected true);
              set_state (setMessages (loadedMessages (Tts.clock w) 0 (h :: hs)));
              set_state (setShowChat true)]
        /\ Tts.synth (Tts.step Tts_first_render w (Tts.session_joined sid (Some (h :: hs))))
           = Tts.synth w
        /\ Tts.speechQueueRef
             (Tts.step Tts_first_render w (Tts.session_joined sid (Some (h :: hs))))
           = Tts.speechQueueRef w)
    /\ (forall w : Clip.World,
          Clip.trace (Clip.step Clip_first_render w (Clip.session_joined sid (Some (h :: hs))))
          = Clip.trace w
            ++ [set_state (setIsConnected true);
                set_state (setMessages (loadedMessages (Clip.clock w) 0 (h :: hs)))]
          /\ Clip.playing
               (Clip.step Clip_first_render w (Clip.session_joined sid (Some (h :: hs))))
             = Clip.playing w
          /\ Clip.audioQueueRef
               (Clip.step Clip_first_render w (Clip.session_joined sid (Some (h :: hs))))
             = Clip.audioQueueRef w)
    /\ (forall now,
          map text (loadedMessages now 0 (h :: hs)) = map content (h :: hs)
          /\ map id (loadedMessages now 0 (h :: hs))
             = map history_id (seq 0 (length (h :: hs)))
          /\ map sender (loadedMessages now 0 (h :: hs))
             = map (fun m => if String.eqb (role m) "user" then user else ai) (h :: hs))
    /\ (forall (has_recognition has_synthesis : bool) (l : list TtsLive),
          match sessionData (fst (Tts_session has_recognition has_synthesis l)) with
          | None =>
              messages (fst (Tts_session has_recognition has_synthesis
                               (l ++ [happens (Tts.session_joined sid (Some (h :: hs)))])))
              = []
              /\ showChat (fst (Tts_session has_recognition has_synthesis
                                  (l ++ [happens (Tts.session_joined sid
                                                    (Some (h :: hs)))])))
                 = false
              /\ isConversationLocked
                   (fst (Tts_session has_recognition has_synthesis
                           (l ++ [happens (Tts.session_joined sid (Some (h :: hs)))])))
                 = true
          | Some _ =>
              messages (fst (Tts_session has_recognition has_synthesis
                               (l ++ [happens (Tts.session_joined sid (Some (h :: hs)))])))
              = loadedMessages (Tts.clock (snd (Tts_session has_recognition
                                                  has_synthesis l))) 0 (h :: hs)
              /\ showChat (fst (Tts_session has_recognition has_synthesis
                                  (l ++ [happens (Tts.session_joined sid
                                                    (Some (h :: hs)))])))
                 = true
          end)
    /\ (forall (has_recognition : bool) (l : list ClipLive),
          messages (fst (Clip_session has_recognition
                           (l ++ [clip_happens (Clip.session_joined sid
                                                  (Some (h :: hs)))])))
          = loadedMessages (Clip.clock (snd (Clip_session has_recognition l))) 0
              (h :: hs))
    /\ (forall (r : Render) (w : Tts.World),
          exists said,
            handed_over (Tts.on_session_joined r sid (Some (h :: hs)) w)
            = handed_over w ++ said
            /\ forall t, In t said ->
                 exists msg before after,
                   h :: hs = before ++ msg :: after
                   /\ content msg = t
                   /\ role msg = "tutor"
                   /\ Forall (fun m => role m <> "tutor") after).
Proof.
  intros sid h hs.
  assert (HT : forall w : Tts.World,
             Tts.trace (Tts.step Tts_first_render w
                          (Tts.session_joined sid (Some (h :: hs))))
             = Tts.trace w
               ++ [set_state (setIsConnected true);
                   set_state (setMessages (loadedMessages (Tts.clock w) 0 (h :: hs)));
                   set_state (setShowChat true)]).
  { intros w. cbn [Tts.step]. unfold Tts.on_session_joined, Tts.speakChunk.
    cbn [Tts_first_render sessionData audioMode speechSynthesis negb orb].
    destruct (lastAIMessage (h :: hs)); tts_red; rewrite <- !app_assoc; reflexivity. }
  assert (HC : forall w : Clip.World,
             Clip.trace (Clip.step Clip_first_render w
                           (Clip.session_joined sid (Some (h :: hs))))
             = Clip.trace w
               ++ [set_state (setIsConnected true);
                   set_state (setMessages (loadedMessages (Clip.clock w) 0 (h :: hs)))]).
  { intros w. cbn [Clip.step]. unfold Clip.on_session_joined. clip_red.
    rewrite <- !app_assoc. reflexivity. }
  split; [|split; [|split; [|split; [|split]]]].
  - intros w. split; [apply HT|].
    cbn [Tts.step]. unfold Tts.on_session_joined, Tts.speakChunk.
    cbn [Tts_first_render sessionData audioMode speechSynthesis negb orb].
    destruct (lastAIMessage (h :: hs)); tts_red; split; reflexivity.
  - intros w. split; [apply HC|].
    cbn [Clip.step]. unfold Clip.on_session_joined. clip_red. split; reflexivity.
  - intros now. split; [|split].
    + apply loadedMessages_text.
    + apply loadedMessages_id.
    + apply loadedMessages_sender.
  - intros has_recognition has_synthesis l. unfold Tts_session.
    rewrite Tts_mounted_run_app.
    destruct (Tts_mounted_run
                (Tts_render_mounted has_recognition has_synthesis 1, Tts.mounted 1) l)
      as [r w].
    unfold Tts_mounted_run. cbn [fold_left]. unfold Tts_mounted_step.
    cbn [Tts_live_step Tts_command fst snd].
    set (w1 := Tts.step Tts_first_render w (Tts.session_joined sid (Some (h :: hs)))).
    assert (Hlog : Tts_logged w w1
                   = [set_state (setIsConnected true);
                      set_state (setMessages (loadedMessages (Tts.clock w) 0 (h :: hs)));
                      set_state (setShowChat true)]).
    { unfold Tts_logged, w1. rewrite HT. apply skipn_length_app. }
    rewrite Hlog. cbn [rerender update].
    unfold Tts.sessionData_effect. cbn [sessionData showChat messages negb loadedMessages].
    destruct (sessionData r) as [d|].
    + unfold Tts_logged. rewrite skipn_length_nil. cbn. auto.
    + unfold Tts_logged. tts_red. rewrite <- !app_assoc, skipn_length_app. cbn. auto.
  - intros has_recognition l. unfold Clip_session, Clip_mounted_run.
    rewrite fold_left_app.
    destruct (fold_left Clip_mounted_step l
                (Clip_render_mounted has_recognition 1, Clip.mounted 1)) as [r w].
    cbn [fold_left Clip_mounted_step snd].
    set (w1 := Clip.step Clip_first_render w (Clip.session_joined sid (Some (h :: hs)))).
    assert (Hlog : Clip_logged w w1
                   = [set_state (setIsConnected true);
                      set_state (setMessages (loadedMessages (Clip.clock w) 0 (h :: hs)))]).
    { unfold Clip_logged, w1. rewrite HC. apply skipn_length_app. }
    rewrite Hlog. cbn [rerender update audioMode]. rewrite Bool.eqb_reflx. reflexivity.
  - intros r w.
    assert (Hset : forall u w0, handed_over (Tts.set u w0) = handed_over w0)
      by (intros; apply Tts_handed_over_set).
    assert (Hw1 : handed_over (Tts.set_sessionIdRef sid (Tts.set (setIsConnected true) w))
                  = handed_over w).
    { unfold handed_over. tts_red. rewrite spoken_app. cbn. now rewrite app_nil_r. }
    unfold Tts.on_session_joined.
    destruct (sessionData r).
    { exists []. rewrite app_nil_r. split; [exact Hw1 | intros t []]. }
    destruct (lastAIMessage (h :: hs)) as [msg|] eqn:Hlast.
    + destruct (audioMode r).
      * exists (if speechSynthesis r && truthy (trim (content msg))
                then [content msg] else []).
        split.
        -- rewrite !Hset, Tts_speakChunk_handed_over, Hw1. reflexivity.
        -- intros t Ht.
           destruct (speechSynthesis r && truthy (trim (content msg))); [|destruct Ht].
           destruct Ht as [<-|[]].
           destruct (lastAIMessage_is_last _ _ Hlast) as (before & after & E & Hr & Ha).
           exists msg, before, after. auto.
      * exists []. rewrite app_nil_r, !Hset. split; [exact Hw1 | intros t []].
    + exists []. rewrite app_nil_r, !Hset. split; [exact Hw1 | intros t []].
Qed.

(** C7 fails on the code of the speech-synthesis version.  No document
    has been uploaded; the session is joined and the remote returns a
    history of two entries.  The handler sets the messages to the history,
    in its order, and shows the chat; in the render that follows, the
    effect on the session data finds no session data and a message list
    that is not empty, removes the messages, hides the chat and sets the
    lock flag.  The history is gone and the conversation is locked.  The
    audio-clip version keeps the history on the same input. *)
Theorem C7_loaded_history_is_removed_at_once :
  sessionData (fst (Tts_session true true [happens Tts.connect;
                                           happens (Tts.connected "abc")])) = None
  /\ Tts_logged
       (snd (Tts_session true true [happens Tts.connect; happens (Tts.connected "abc")]))
       (snd (Tts_session true true
               [happens Tts.connect; happens (Tts.connected "abc");
                happens (Tts.session_joined "abc" (Some two_entries))]))
     = [set_state (setIsConnected true);
        set_state (setMessages (loadedMessages 0 0 two_entries));
        set_state (setShowChat true);
        set_state (setMessages []);
        set_state (setShowChat false);
        set_state (setIsConversationLocked true)]
  /\ map text (loadedMessages 0 0 two_entries) = ["Hi"; "Hello"]
  /\ messages (fst (Tts_session true true
                      [happens Tts.connect; happens (Tts.connected "abc");
                       happens (Tts.session_joined "abc" (Some two_entries))])) = []
  /\ showChat (fst (Tts_session true true
                      [happens Tts.connect; happens (Tts.connected "abc");
                       happens (Tts.session_joined "abc" (Some two_entries))])) = false
  /\ isConversationLocked
       (fst (Tts_session true true
               [happens Tts.connect; happens (Tts.connected "abc");
                happens (Tts.session_joined "abc" (Some two_entries))])) = true
  /\ messages (fst (Clip_session true
                      [clip_happens Clip.connect; clip_happens (Clip.connected "abc");
                       clip_happens (Clip.session_joined "abc" (Some two_entries))]))
     = loadedMessages 0 0 two_entries.
Proof. vm_compute. repeat split. Qed.

(** ** Audio output turned off during playback *)

Lemma In_remove_audio_other (c a : Audio) (l : list Audio) :
  audio_eqb c a = false -> In a l -> In a (Clip.remove_audio c l).
Proof.
  intros Hc. induction l as [|b l IH]; [intros []|].
  intros [->|Hin]; cbn [Clip.remove_audio].
  - rewrite Hc. left. reflexivity.
  - destruct (audio_eqb c b); [apply IH, Hin | right; apply IH, Hin].
Qed.

(** While audio output is off the sequencer of the audio-clip version
    starts no clip, whatever is enqueued or reported and whatever sounds. *)
Lemma Clip_sequencer_off (es : list Clip.Sequencer) :
  forall w : Clip.World,
    Clip.audioModeRef w = false ->
    Clip.audioModeRef (fold_left Clip.sequencer_step es w) = false
    /\ played (Clip.trace (fold_left Clip.sequencer_step es w)) = played (Clip.trace w).
Proof.
  induction es as [|e es IH]; intros w Hm; cbn [fold_left]; [auto|].
  assert (H : Clip.audioModeRef (Clip.sequencer_step w e) = false
              /\ played (Clip.trace (Clip.sequencer_step w e)) = played (Clip.trace w)).
  { assert (D : forall how a,
               Clip.audioModeRef (Clip.audio_done how a w) = false
               /\ played (Clip.trace (Clip.audio_done how a w)) = played (Clip.trace w)).
    { intros how a.
      assert (E : forall w0, Clip.audioModeRef w0 = false ->
                Clip.audioModeRef (Clip.handleComplete a w0) = false
                /\ played (Clip.trace (Clip.handleComplete a w0)) = played (Clip.trace w0)).
      { intros w0 H0. unfold Clip.handleComplete.
        rewrite Clip_playNextAudio_off.
        - destruct (Clip.currentAudioRef w0) as [cur|]; [destruct (audio_eqb cur a)|];
            clip_red; destruct (Clip.audioQueueRef w0); clip_red;
            rewrite ?played_app; cbn [played]; rewrite ?app_nil_r; auto.
        - destruct (Clip.currentAudioRef w0) as [cur|]; [destruct (audio_eqb cur a)|];
            clip_red; destruct (Clip.audioQueueRef w0); clip_red; exact H0. }
      unfold Clip.audio_done, Clip.audio_onended, Clip.audio_onerror, Clip.play_rejected.
      destruct (Clip.is_playing a w);
        [destruct (E (Clip.set_heard (Clip.heard w ++ [Finished a])
                        (Clip.set_playing (Clip.remove_audio a (Clip.playing w)) w)) Hm)
           as [E1 E2]
        |destruct (E w Hm) as [E1 E2]];
        destruct how; auto. }
    destruct e as [url | a | a | a]; cbn [Clip.sequencer_step]; try apply D.
    unfold Clip.enqueueAudio. destruct (negb (truthy url)); [auto|].
    clip_red. rewrite Hm. clip_red. auto. }
  destruct H as [H1 H2]. destruct (IH _ H1) as [K1 K2].
  split; [exact K1 | now rewrite K2].
Qed.

(** C3 as stated fails in both versions for a message replayed by hand.  In
    the speech-synthesis version the replayed utterance is sounding when the
    audio button turns audio output off: the button only records the new
    mode, the utterance stays with the synthesiser, [isSpeaking] stays set,
    and the handler of its end runs after the disable.  In the audio-clip
    version the replayed clip is sounding when audio output is turned off:
    the effect clears the speaking state and pauses nothing, and the clip
    goes on sounding. *)
Lemma C3_counterexample :
  (audioMode (fst (Tts_session true true tts_replay_begun)) = true
   /\ Tts.synth (snd (Tts_session true true tts_replay_begun)) = [replayed "Welcome"]
   /\ Tts_logged (snd (Tts_session true true tts_replay_begun))
        (snd (Tts_session true true (tts_replay_begun ++ [pressed press_audio])))
      = [set_state (setAudioMode false)]
   /\ audioMode (fst (Tts_session true true (tts_replay_begun ++ [pressed press_audio])))
      = false
   /\ isSpeaking (fst (Tts_session true true (tts_replay_begun ++ [pressed press_audio])))
      = true
   /\ Tts.synth (snd (Tts_session true true (tts_replay_begun ++ [pressed press_audio])))
      = [replayed "Welcome"]
   /\ Tts_logged
        (snd (Tts_session true true (tts_replay_begun ++ [pressed press_audio])))
        (snd (Tts_session true true
                (tts_replay_begun ++ [pressed press_audio; happens Tts.utterance_end])))
      = [set_state (setIsSpeaking false)])
  /\ (messages (fst (Clip_session true clip_replay_begun)) = [message_with_clip]
      /\ audioMode (fst (Clip_session true clip_replay_begun)) = true
      /\ Clip.playing (snd (Clip_session true clip_replay_begun)) = [replayed_clip]
      /\ Clip_logged (snd (Clip_session true clip_replay_begun))
           (snd (Clip_session true (clip_replay_begun ++ [clip_pressed tap_audio])))
         = [set_state (setAudioMode false); set_state (setIsSpeaking false)]
      /\ audioMode (fst (Clip_session true (clip_replay_begun ++ [clip_pressed tap_audio])))
         = false
      /\ Clip.audioModeRef
           (snd (Clip_session true (clip_replay_begun ++ [clip_pressed tap_audio])))
         = false
      /\ Clip.playing
           (snd (Clip_session true (clip_replay_begun ++ [clip_pressed tap_audio])))
         = [replayed_clip]).
Proof. vm_compute. repeat split. Qed.

(** C3, amended.  In the audio-clip version, when audio output is turned
    off, the effect records the mode, empties the clip queue, pauses the
    clip of the queue in flight (the one held in [currentAudioRef]) when
    there is one, and clears the speaking state, at once; every other clip
    that sounds, that is a clip replayed by hand, goes on sounding; and as
    long as audio output stays off the sequencer starts no clip, whatever
    is enqueued or reported.  In the speech-synthesis version the audio
    button records the new mode and leaves the synthesiser and the speech
    queue as they are. *)
Theorem C3_audio_off_stops_the_clip_queue_only :
  (forall w : Clip.World,
      Clip.audioModeRef (Clip.audioMode_effect false w) = false
      /\ Clip.audioQueueRef (Clip.audioMode_effect false w) = []
      /\ Clip.currentAudioRef (Clip.audioMode_effect false w) = None
      /\ Clip.trace (Clip.audioMode_effect false w)
         = Clip.trace w ++ map audio_pause (olist (Clip.currentAudioRef w))
           ++ [set_state (setIsSpeaking false)]
      /\ Clip.playing (Clip.audioMode_effect false w)
         = match Clip.currentAudioRef w with
           | Some c => Clip.remove_audio c (Clip.playing w)
           | None => Clip.playing w
           end)
  /\ (forall (w : Clip.World) (a : Audio),
        In a (Clip.playing w) ->
        (forall c, Clip.currentAudioRef w = Some c -> audio_eqb c a = false) ->
        In a (Clip.playing (Clip.audioMode_effect false w)))
  /\ (forall (es : list Clip.Sequencer) (w : Clip.World),
        Clip.audioModeRef w = false ->
        Clip.audioModeRef (fold_left Clip.sequencer_step es w) = false
        /\ played (Clip.trace (fold_left Clip.sequencer_step es w))
           = played (Clip.trace w))
  /\ (forall (r : Render) (w : Tts.World),
        Tts.trace (Tts.toggleAudioMode r w)
        = Tts.trace w ++ [set_state (setAudioMode (negb (audioMode r)))]
        /\ Tts.synth (Tts.toggleAudioMode r w) = Tts.synth w
        /\ Tts.speechQueueRef (Tts.toggleAudioMode r w) = Tts.speechQueueRef w
        /\ Tts.isSpeakingRef (Tts.toggleAudioMode r w) = Tts.isSpeakingRef w).
Proof.
  assert (E : forall w : Clip.World,
            Clip.audioModeRef (Clip.audioMode_effect false w) = false
            /\ Clip.audioQueueRef (Clip.audioMode_effect false w) = []
            /\ Clip.currentAudioRef (Clip.audioMode_effect false w) = None
            /\ Clip.trace (Clip.audioMode_effect false w)
               = Clip.trace w ++ map audio_pause (olist (Clip.currentAudioRef w))
                 ++ [set_state (setIsSpeaking false)]
            /\ Clip.playing (Clip.audioMode_effect false w)
               = match Clip.currentAudioRef w with
                 | Some c => Clip.remove_audio c (Clip.playing w)
                 | None => Clip.playing w
                 end).
  { intros w. unfold Clip.audioMode_effect, Clip.stopCurrentAudio, Clip.pause.
    cbn [negb]. clip_red.
    destruct (Clip.currentAudioRef w) as [c|] eqn:Hc; clip_red; cbn [olist map app];
      rewrite <- ?app_assoc; repeat split; exact Hc. }
  split; [exact E|]. split; [|split; [exact Clip_sequencer_off|]].
  - intros w a Hin Hc. destruct (E w) as (_ & _ & _ & _ & Hp). rewrite Hp.
    destruct (Clip.currentAudioRef w) as [c|]; [|exact Hin].
    apply In_remove_audio_other; [apply Hc; reflexivity | exact Hin].
  - intros r w. repeat split.
Qed.

Lemma C3_witness :
  In replayed_clip (Clip.playing (snd (Clip_session true clip_replay_begun)))
  /\ In replayed_clip
       (Clip.playing
          (Clip.audioMode_effect false (snd (Clip_session true clip_replay_begun))))
  /\ Clip.audioModeRef (Clip.mounted 1) = false
  /\ played (Clip.trace
               (fold_left Clip.sequencer_step
                  [Clip.enqueue "data:a"; Clip.segment_end replayed_clip;
                   Clip.enqueue "data:b"]
                  (Clip.mounted 1)))
     = played (Clip.trace (Clip.mounted 1)).
Proof.
  assert (H1 : In replayed_clip (Clip.playing (snd (Clip_session true clip_replay_begun))))
    by (vm_compute; left; reflexivity).
  assert (H2 : forall c,
             Clip.currentAudioRef (snd (Clip_session true clip_replay_begun)) = Some c ->
             audio_eqb c replayed_clip = false)
    by (intros c Hc; vm_compute in Hc; discriminate Hc).
  assert (H3 : Clip.audioModeRef (Clip.mounted 1) = false) by reflexivity.
  split; [exact H1|].
  split; [exact (proj1 (proj2 C3_audio_off_stops_the_clip_queue_only) _ _ H1 H2)|].
  split; [exact H3|].
  exact (proj2 (proj1 (proj2 (proj2 C3_audio_off_stops_the_clip_queue_only))
                  [Clip.enqueue "data:a"; Clip.segment_end replayed_clip;
                   Clip.enqueue "data:b"] (Clip.mounted 1) H3)).
Defined.

(** ** Replay of a message *)

Lemma rerender_speechSynthesis (l : list Action) :
  forall r : Render, speechSynthesis (rerender r l) = speechSynthesis r.
Proof.
  induction l as [|a l IH]; intros r; cbn [rerender]; [reflexivity|].
  destruct a; try apply IH. rewrite IH. destruct u; reflexivity.
Qed.

(** The handlers of the mount effect never feed the speech queue: they
    hold the synthesiser state of the first render, which is null.  So on
    the mounted component the queue stays empty, and whenever [isSpeaking]
    holds an utterance is with the synthesiser. *)
Lemma Tts_speaking_event (b : bool) (w : Tts.World) (e : Tts.Event) :
  Tts.speechQueueRef w = [] ->
  (b = true -> Tts.synth w <> []) ->
  Tts.speechQueueRef (Tts.step Tts_first_render w e) = []
  /\ (speaking_flag b (Tts_logged w (Tts.step Tts_first_render w e)) = true ->
      Tts.synth (Tts.step Tts_first_render w e) <> [])
  /\ spoken (Tts.trace (Tts.step Tts_first_render w e)) = spoken (Tts.trace w).
Proof.
  intros Hq Hs.
  assert (Hsame : forall w', Tts.trace w' = Tts.trace w -> Tts.synth w' = Tts.synth w ->
            Tts.speechQueueRef w' = [] ->
            Tts.speechQueueRef w' = []
            /\ (speaking_flag b (Tts_logged w w') = true -> Tts.synth w' <> [])
            /\ spoken (Tts.trace w') = spoken (Tts.trace w)).
  { intros w' Ht Hy Hq'. unfold Tts_logged. rewrite Ht, Hy, skipn_length_nil.
    cbn [speaking_flag]. auto. }
  assert (Hdone : forall failed,
            Tts.speechQueueRef (Tts.utterance_done Tts_first_render failed w) = []
            /\ (speaking_flag b
                  (Tts_logged w (Tts.utterance_done Tts_first_render failed w)) = true ->
                Tts.synth (Tts.utterance_done Tts_first_render failed w) <> [])
            /\ spoken (Tts.trace (Tts.utterance_done Tts_first_render failed w))
               = spoken (Tts.trace w)).
  { intros failed. unfold Tts.utterance_done.
    destruct (Tts.synth w) as [|u rest] eqn:E; [apply Hsame; auto|].
    unfold Tts.utterance_onerror, Tts.utterance_onend, Tts.processNextSpeech.
    destruct (Tts.origin u); [destruct failed|]; tts_red; rewrite Hq; tts_red;
      unfold Tts_logged; tts_red; rewrite skipn_length_app, spoken_app;
      cbn [speaking_flag spoken]; rewrite app_nil_r;
      (split; [first [exact Hq | reflexivity] | split; [discriminate | reflexivity]]). }
  destruct e; cbn [Tts.step]; try apply Hdone.
  all: try solve
    [ unfold Tts.onresult, Tts.onspeechend, Tts.onspeechstart, Tts.onerror, Tts.onend,
        Tts.on_connect, Tts.on_connected, Tts.on_session_joined, Tts.on_ai_start,
        Tts.on_ai_chunk, Tts.on_ai_complete, Tts.on_error, Tts.on_disconnect,
        Tts.handleSendMessage, Tts.speakChunk, Tts.setTimeout, Tts.stop;
      cbn [Tts_first_render sessionData audioMode speechSynthesis conversationMode
             isAIResponding isConversationLocked recognition negb orb andb];
      repeat (tts_red;
              match goal with
              | |- context [if ?c then _ else _] => destruct c
              | |- context [match ?x with _ => _ end] => destruct x
              end);
      tts_red; unfold Tts_logged; tts_red;
      rewrite <- ?app_assoc, ?skipn_length_app, ?skipn_length_nil, ?spoken_app;
      cbn [speaking_flag spoken app]; rewrite ?app_nil_r;
      (split; [exact Hq | split; [exact Hs | reflexivity]]) ].
  - (* utterance_start *)
    unfold Tts.utterance_started.
    destruct (Tts.synth w) as [|u rest] eqn:E; [apply Hsame; auto|].
    destruct (Tts.origin u); [apply Hsame; auto|].
    tts_red. unfold Tts_logged. tts_red. rewrite skipn_length_app, spoken_app.
    cbn [speaking_flag spoken]. rewrite app_nil_r, E.
    split; [exact Hq | split; [discriminate | reflexivity]].
  - (* timeout *)
    destruct (Tts.take_timer handle (Tts.timers w)) as [[cb rest]|];
      [|apply Hsame; auto].
    rewrite Tts_first_render_fire. apply Hsame; auto.
Qed.

Lemma Tts_speaking_command (r : Render) (w : Tts.World) (c : TtsCommand) :
  Tts.speechQueueRef w = [] ->
  (isSpeaking r = true -> Tts.synth w <> []) ->
  Tts.speechQueueRef (Tts_command r w c) = []
  /\ (speaking_flag (isSpeaking r) (Tts_logged w (Tts_command r w c)) = true ->
      Tts.synth (Tts_command r w c) <> []).
Proof.
  intros Hq Hs.
  destruct c; cbn [Tts_command].
  all: try solve
    [ unfold Tts.toggleConversationMode, Tts.toggleAudioMode, Tts.handleVoiceInput,
        Tts.handleKeyPress_Enter, Tts.send_button_onClick, Tts.sessionData_effect,
        Tts.handleSendMessage, Tts.stop, Tts.start;
      repeat (tts_red;
              match goal with
              | |- context [if ?c then _ else _] => destruct c
              | |- context [match ?x with _ => _ end] => destruct x
              end);
      tts_red; unfold Tts_logged; tts_red;
      rewrite <- ?app_assoc, ?skipn_length_app, ?skipn_length_nil;
      cbn [speaking_flag app];
      (split; [exact Hq | exact Hs]) ].
  unfold Tts.handleSpeak, Tts.cancel, Tts.synth_speak.
  destruct (negb (speechSynthesis r)).
  - tts_red. unfold Tts_logged. tts_red. rewrite skipn_length_app.
    cbn [speaking_flag]. auto.
  - destruct (isSpeaking r) eqn:Hi; cbn [Tts.origin]; tts_red; unfold Tts_logged; tts_red;
      rewrite <- ?app_assoc, skipn_length_app; cbn [speaking_flag];
      (split; [first [exact Hq | reflexivity] | discriminate]).
Qed.

Lemma Tts_speaking_live_step (s : Render * Tts.World) (i : TtsLive) :
  Tts_speaking_means_utterance s ->
  Tts_speaking_means_utterance (Tts_live_step true Tts_first_render s i).
Proof.
  destruct s as [r w]. unfold Tts_speaking_means_utterance. cbn [fst snd].
  intros [Hq Hs].
  destruct i as [e|c|d]; cbn [Tts_live_step fst snd]; rewrite rerender_isSpeaking.
  - destruct (Tts_speaking_event (isSpeaking r) w e Hq Hs) as (A & B & _). auto.
  - apply Tts_speaking_command; assumption.
  - apply (Tts_speaking_command (with_sessionData d r) w session_data_changed Hq Hs).
Qed.

Lemma Tts_speaking_session (has_recognition has_synthesis : bool) (l : list TtsLive) :
  Tts_speaking_means_utterance (Tts_session has_recognition has_synthesis l)
  /\ speechSynthesis (fst (Tts_session has_recognition has_synthesis l)) = has_synthesis.
Proof.
  unfold Tts_session.
  assert (H : forall s,
             Tts_speaking_means_utterance s ->
             Tts_speaking_means_utterance (Tts_mounted_run s l)
             /\ speechSynthesis (fst (Tts_mounted_run s l)) = speechSynthesis (fst s)).
  { induction l as [|i l IH]; intros s Hs; [auto|].
    unfold Tts_mounted_run. cbn [fold_left].
    fold (Tts_mounted_run (Tts_mounted_step s i) l).
    assert (Hs' : Tts_speaking_means_utterance (Tts_mounted_step s i))
      by (unfold Tts_mounted_step; do 2 apply Tts_speaking_live_step; exact Hs).
    destruct (IH _ Hs') as [A B]. split; [exact A|]. rewrite B.
    unfold Tts_mounted_step.
    destruct s as [r w].
    destruct i as [e|c|d]; cbn [Tts_live_step fst];
      rewrite !rerender_speechSynthesis; reflexivity. }
  destruct (H (Tts_render_mounted has_recognition has_synthesis 1, Tts.mounted 1))
    as [A B].
  - split; [reflexivity | discriminate].
  - split; [exact A | exact B].
Qed.

(** The effect on the session data leaves the speech as it is. *)
Lemma Tts_effect_keeps_speech (r : Render) (w : Tts.World) :
  Tts.synth (snd (Tts_live_step true Tts_first_render (r, w)
                    (pressed session_data_changed))) = Tts.synth w
  /\ Tts.speechQueueRef (snd (Tts_live_step true Tts_first_render (r, w)
                                (pressed session_data_changed))) = Tts.speechQueueRef w
  /\ Tts.isSpeakingRef (snd (Tts_live_step true Tts_first_render (r, w)
                               (pressed session_data_changed))) = Tts.isSpeakingRef w
  /\ spoken (Tts.trace (snd (Tts_live_step true Tts_first_render (r, w)
                               (pressed session_data_changed)))) = spoken (Tts.trace w)
  /\ isSpeaking (fst (Tts_live_step true Tts_first_render (r, w)
                        (pressed session_data_changed))) = isSpeaking r.
Proof.
  cbn [Tts_live_step Tts_command fst snd]. rewrite rerender_isSpeaking.
  unfold Tts.sessionData_effect.
  repeat (tts_red;
          match goal with
          | |- context [if ?c then _ else _] => destruct c
          | |- context [match ?x with _ => _ end] => destruct x
          end);
    tts_red; unfold Tts_logged; tts_red;
    rewrite <- ?app_assoc, ?skipn_length_app, ?skipn_length_nil, ?spoken_app;
    cbn [speaking_flag spoken app]; rewrite ?app_nil_r; repeat split.
Qed.

(** C10 as stated fails: the first message on screen is replayed and,
    before the synthesiser reports its start, a second one is replayed.
    The first utterance is with the synthesiser and [isSpeaking] does not
    hold yet, so the second invocation cancels nothing and hands its text
    over as well: both are spoken. *)
Lemma C10_counterexample :
  map text (messages (fst (Tts_session true true tts_two_messages)))
  = ["Welcome"; first_chunk]
  /\ Tts.synth (snd (Tts_session true true
                       (tts_two_messages ++ [pressed (press_replay "Welcome")])))
     = [replayed "Welcome"]
  /\ isSpeaking (fst (Tts_session true true
                        (tts_two_messages ++ [pressed (press_replay "Welcome")])))
     = false
  /\ Tts.synth (snd (Tts_session true true
                       (tts_two_messages ++ [pressed (press_replay "Welcome");
                                             pressed (press_replay first_chunk)])))
     = [replayed "Welcome"; replayed first_chunk]
  /\ spoken (Tts.trace (snd (Tts_session true true
                               (tts_two_messages
                                ++ [pressed (press_replay "Welcome");
                                    pressed (press_replay first_chunk)]))))
     = ["Welcome"; first_chunk]
  /\ existsb is_cancel
       (Tts.trace (snd (Tts_session true true
                          (tts_two_messages ++ [pressed (press_replay "Welcome");
                                                pressed (press_replay first_chunk)]))))
     = false.
Proof. vm_compute. repeat split. Qed.

(** C10, amended.  With a synthesiser present, [handleSpeak] invoked in a
    render in which [isSpeaking] holds cancels the synthesis in flight,
    empties [speechQueueRef], clears [isSpeakingRef] and [isSpeaking], and
    speaks nothing; invoked in a render in which [isSpeaking] does not hold
    it hands the requested text to the synthesiser, behind whatever is
    there.  In every session of the mounted component: when the replay
    button is pressed while [isSpeaking] holds, an utterance is with the
    synthesiser, and after the press none is, the queue is empty, the
    speaking state is cleared and nothing more was spoken; when it is
    pressed while [isSpeaking] does not hold, the requested text is spoken
    and joins the utterances with the synthesiser. *)
Theorem C10_replay_cancels_while_isSpeaking_holds :
  (forall (r : Render) (text : string) (w : Tts.World),
      speechSynthesis r = true ->
      (isSpeaking r = true ->
         Tts.trace (Tts.handleSpeak r text w)
         = Tts.trace w ++ [synth_cancel; set_state (setIsSpeaking false)]
         /\ Tts.synth (Tts.handleSpeak r text w) = []
         /\ Tts.speechQueueRef (Tts.handleSpeak r text w) = []
         /\ Tts.isSpeakingRef (Tts.handleSpeak r text w) = false)
      /\ (isSpeaking r = false ->
         Tts.handleSpeak r text w = Tts.synth_speak (replayed text) w)
      /\ spoken (Tts.trace (Tts.handleSpeak r text w))
         = spoken (Tts.trace w) ++ (if isSpeaking r then [] else [text]))
  /\ (forall (has_recognition : bool) (l : list TtsLive) (text : string),
        (isSpeaking (fst (Tts_session has_recognition true l)) = true ->
           Tts.synth (snd (Tts_session has_recognition true l)) <> []
           /\ Tts.synth (snd (Tts_session has_recognition true
                                (l ++ [pressed (press_replay text)]))) = []
           /\ Tts.speechQueueRef (snd (Tts_session has_recognition true
                                         (l ++ [pressed (press_replay text)]))) = []
           /\ Tts.isSpeakingRef (snd (Tts_session has_recognition true
                                        (l ++ [pressed (press_replay text)]))) = false
           /\ isSpeaking (fst (Tts_session has_recognition true
                                 (l ++ [pressed (press_replay text)]))) = false
           /\ spoken (Tts.trace (snd (Tts_session has_recognition true
                                        (l ++ [pressed (press_replay text)]))))
              = spoken (Tts.trace (snd (Tts_session has_recognition true l))))
        /\ (isSpeaking (fst (Tts_session has_recognition true l)) = false ->
            Tts.synth (snd (Tts_session has_recognition true
                              (l ++ [pressed (press_replay text)])))
            = Tts.synth (snd (Tts_session has_recognition true l)) ++ [replayed text]
            /\ spoken (Tts.trace (snd (Tts_session has_recognition true
                                         (l ++ [pressed (press_replay text)]))))
               = spoken (Tts.trace (snd (Tts_session has_recognition true l))) ++ [text]
            /\ isSpeaking (fst (Tts_session has_recognition true
                                  (l ++ [pressed (press_replay text)]))) = false)).
Proof.
  assert (F : forall (r : Render) (text : string) (w : Tts.World),
      speechSynthesis r = true ->
      (isSpeaking r = true ->
         Tts.trace (Tts.handleSpeak r text w)
         = Tts.trace w ++ [synth_cancel; set_state (setIsSpeaking false)]
         /\ Tts.synth (Tts.handleSpeak r text w) = []
         /\ Tts.speechQueueRef (Tts.handleSpeak r text w) = []
         /\ Tts.isSpeakingRef (Tts.handleSpeak r text w) = false)
      /\ (isSpeaking r = false ->
         Tts.handleSpeak r text w = Tts.synth_speak (replayed text) w)
      /\ spoken (Tts.trace (Tts.handleSpeak r text w))
         = spoken (Tts.trace w) ++ (if isSpeaking r then [] else [text])).
  { intros r text w Hs. unfold Tts.handleSpeak. rewrite Hs. cbn [negb].
    split; [|split].
    - intros H. rewrite H. unfold Tts.cancel. tts_red. rewrite <- app_assoc.
      repeat split.
    - intros H. rewrite H. reflexivity.
    - destruct (isSpeaking r); unfold Tts.cancel, Tts.synth_speak; cbn [Tts.origin];
        tts_red; rewrite !spoken_app; cbn [spoken]; rewrite ?app_nil_r; reflexivity. }
  split; [exact F|].
  intros has_recognition l text.
  destruct (Tts_speaking_session has_recognition true l) as [[Hq Hu] Hsyn].
  unfold Tts_session in *. rewrite Tts_mounted_run_app.
  destruct (Tts_mounted_run (Tts_render_mounted has_recognition true 1, Tts.mounted 1) l)
    as [r w].
  cbn [fst snd] in *. unfold Tts_mounted_run. cbn [fold_left]. unfold Tts_mounted_step.
  destruct (F r text w Hsyn) as (F1 & F2 & F3).
  assert (Hstep : Tts_live_step true Tts_first_render (r, w) (pressed (press_replay text))
                  = (rerender r (Tts_logged w (Tts.handleSpeak r text w)),
                     Tts.handleSpeak r text w)) by reflexivity.
  rewrite Hstep.
  destruct (Tts_effect_keeps_speech
              (rerender r (Tts_logged w (Tts.handleSpeak r text w)))
              (Tts.handleSpeak r text w)) as (E1 & E2 & E3 & E4 & E5).
  rewrite E1, E2, E3, E4, E5, rerender_isSpeaking.
  split.
  - intros Hi. destruct (F1 Hi) as (T1 & T2 & T3 & T4).
    rewrite T2, T3, T4, F3, Hi, app_nil_r.
    unfold Tts_logged. rewrite T1, skipn_length_app. cbn [speaking_flag].
    repeat split; apply Hu, Hi.
  - intros Hi. rewrite F3, Hi, (F2 Hi).
    unfold Tts.synth_speak, replayed. cbn [Tts.origin Tts.utterance_text]. tts_red.
    unfold Tts_logged. tts_red. rewrite skipn_length_app. cbn [speaking_flag].
    repeat split; exact Hi.
Qed.

Lemma C10_witness :
  isSpeaking (fst (Tts_session true true tts_replay_begun)) = true
  /\ Tts.synth (snd (Tts_session true true tts_replay_begun)) <> []
  /\ Tts.synth (snd (Tts_session true true
                       (tts_replay_begun ++ [pressed (press_replay "Welcome")]))) = []
  /\ spoken (Tts.trace (snd (Tts_session true true
                               (tts_replay_begun ++ [pressed (press_replay "Welcome")]))))
     = spoken (Tts.trace (snd (Tts_session true true tts_replay_begun))).
Proof.
  assert (H : isSpeaking (fst (Tts_session true true tts_replay_begun)) = true)
    by (vm_compute; reflexivity).
  split; [exact H|].
  destruct (proj1 (proj2 C10_replay_cancels_while_isSpeaking_holds true tts_replay_begun
                     "Welcome") H) as (A & B & _ & _ & _ & C).
  split; [exact A|]. split; [exact B | exact C].
Defined.
